(** * Boat Renting API: pricing engine and request handlers

    A shallow embedding of [main.py] (the FastAPI service of the boat rental
    marketplace) together with the properties its specification states.

    Layout: the Python data the service manipulates (binary64 floats,
    calendar dates, dictionaries, exceptions), then the functions of
    [main.py] in source order, then the lemmas. *)

From Stdlib Require Import ZArith Lia SpecFloat Bool Ascii String.
From stdpp Require Import base option list strings gmap.

Local Open Scope Z_scope.

(** ** Python floats

    A Python [float] is an IEEE 754 binary64 number.  The arithmetic is the
    one of the Standard Library's [SpecFloat] at precision 53 and maximal
    exponent 1024: [*] and [+] round to nearest, ties to even. *)
Module Float64.

Definition prec : Z := 53.
Definition emax : Z := 1024.

Definition float : Type := spec_float.

Definition fmul (x y : float) : float := SFmul prec emax x y.
Definition fadd (x y : float) : float := SFadd prec emax x y.

(** Python's [==] on floats: numeric equality, [-0.0 == 0.0] holds and
    [nan == nan] does not. *)
Definition feqb (x y : float) : bool := SFeqb x y.

(** The double nearest to the rational [(-1)^s * num / den] (ties to
    even): the exact quotient of two integers, rounded once.  This is what
    [strtod] computes for a decimal numeral [num * 10^-k]. *)
Definition nearest (s : bool) (num den : positive) : float :=
  SFdiv prec emax (S754_finite s num 0) (S754_finite false den 0).

Definition pow10 (k : nat) : positive := Nat.iter k (Pos.mul 10) 1%positive.

(** The float written [n / 10^k] in decimal in the source, for instance
    [decimal 8 2] for the literal [0.08]. *)
Definition decimal (n : Z) (k : nat) : float :=
  match n with
  | Z0 => S754_zero false
  | Zpos p => nearest false p (pow10 k)
  | Zneg p => nearest true p (pow10 k)
  end.

(** The integer nearest to [a / b] for [b > 0], ties to even. *)
Definition rne_div (a b : Z) : Z :=
  let q := a / b in
  let r := a mod b in
  match 2 * r ?= b with
  | Lt => q
  | Gt => q + 1
  | Eq => if Z.even q then q else q + 1
  end.

(** [|x| * 100] rounded to an integer (ties to even) for the finite
    float of mantissa [m] and exponent [e]: the digits that [round(x, 2)]
    keeps.  The rounding is done on the exact binary value of [x]. *)
Definition cents (m : positive) (e : Z) : Z :=
  match e with
  | Zneg p => rne_div (Zpos m * 100) (2 ^ Zpos p)
  | _ => Zpos m * 100 * 2 ^ e
  end.

(** The double nearest to [n] hundredths, with the sign [s]. *)
Definition of_cents (s : bool) (n : Z) : float :=
  match n with
  | Zpos p => nearest s p 100
  | _ => S754_zero s
  end.

(** Python's [round(x, 2)] on a float: the exact value of [x] is rounded
    to two decimals, ties to even, and the double nearest to that decimal
    is returned; the sign of [x] is kept, zeros, infinities and nan round
    to themselves.  (CPython raises [OverflowError] when the decimal does
    not fit a double; with two decimals this cannot happen, a double
    above [2^53] being an integer that rounds to itself: see
    [round2_finite].) *)
Definition round2 (x : float) : float :=
  match x with
  | S754_finite s m e => of_cents s (cents m e)
  | _ => x
  end.

(** The conversion of a Python [int] to a float, correctly rounded;
    [None] stands for the [OverflowError] ("int too large to convert to
    float"). *)
Definition of_int (z : Z) : option float :=
  match binary_normalize prec emax z 0 false with
  | S754_infinity _ => None
  | f => Some f
  end.

Definition is_finite (x : float) : bool :=
  match x with
  | S754_zero _ | S754_finite _ _ _ => true
  | _ => false
  end.

Definition is_zero (x : float) : bool :=
  match x with
  | S754_zero _ => true
  | _ => false
  end.

(** A float is held to two decimals when it is finite and [round(x, 2)]
    gives it back: [math.isfinite(x) and round(x, 2) == x], with Python's
    [==].  This is to be the double nearest to a whole number of
    hundredths: see [two_decimals_hundredths].  An infinity or a nan is
    not held to two decimals. *)
Definition two_decimals (x : float) : Prop :=
  is_finite x = true ∧ feqb (round2 x) x = true.

(** The float of sign [s], mantissa [m] and exponent [e] for a rounded
    mantissa [2^52 ≤ m ≤ 2^53]: at [2^53] the rounding has carried into a
    54th bit and the exponent moves up. *)
Definition normal (s : bool) (m e : Z) : float :=
  if m =? 2 ^ 53 then S754_finite s (2 ^ 52) (e + 1)
  else match m with Zpos p => S754_finite s p e | _ => S754_nan end.

(** A normal mantissa and exponent whose value is an integer: 53
    significant bits, and the bits below the binary point, if any, all
    zero. *)
Definition integral (m : positive) (e : Z) : Prop :=
  Zpos (digits2_pos m) = prec ∧ e ≤ emax - prec ∧
  (e < 0 → (2 ^ (- e) | Zpos m)).

(** The nonzero integers among the floats. *)
Definition integer_valued (x : float) : Prop :=
  match x with
  | S754_finite _ m e => integral m e
  | _ => False
  end.

(** The floats that products of whole amounts and Python integers take:
    a zero, a nonzero integer, or an infinity. *)
Definition whole (x : float) : Prop :=
  match x with
  | S754_zero _ | S754_infinity _ => True
  | S754_nan => False
  | S754_finite _ m e => integral m e
  end.

End Float64.

Export Float64.

(** ** Calendar dates

    [datetime.date]: a proleptic Gregorian year, month and day.  Subtracting
    two dates gives a [timedelta] whose [days] is the difference of their
    ordinals, as in the [datetime] module. *)
Module Date.

Record date : Type := mkdate { year : Z; month : Z; day : Z }.

Definition MINYEAR : Z := 1.
Definition MAXYEAR : Z := 9999.

Definition is_leap (y : Z) : bool :=
  (y mod 4 =? 0) && (negb (y mod 100 =? 0) || (y mod 400 =? 0)).

Definition days_before_year (y : Z) : Z :=
  let y := y - 1 in
  y * 365 + y / 4 - y / 100 + y / 400.

Definition DAYS_IN_MONTH : list Z :=
  [-1; 31; 28; 31; 30; 31; 30; 31; 31; 30; 31; 30; 31].

Definition DAYS_BEFORE_MONTH : list Z :=
  [-1; 0; 31; 59; 90; 120; 151; 181; 212; 243; 273; 304; 334].

Definition days_in_month (y m : Z) : Z :=
  if (m =? 2) && is_leap y then 29
  else nth (Z.to_nat m) DAYS_IN_MONTH 0.

Definition days_before_month (y m : Z) : Z :=
  nth (Z.to_nat m) DAYS_BEFORE_MONTH 0
  + (if (2 <? m) && is_leap y then 1 else 0).

Definition ymd2ord (y m d : Z) : Z :=
  days_before_year y + days_before_month y m + d.

Definition toordinal (d : date) : Z := ymd2ord (year d) (month d) (day d).

(** The dates the [date] constructor accepts. *)
Definition valid (d : date) : Prop :=
  MINYEAR ≤ year d ≤ MAXYEAR ∧ 1 ≤ month d ≤ 12 ∧
  1 ≤ day d ≤ days_in_month (year d) (month d).

(** [(d1 - d2).days] *)
Definition sub_days (d1 d2 : date) : Z := toordinal d1 - toordinal d2.

(** [d1 < d2], the comparison of the (year, month, day) triples. *)
Definition lt (d1 d2 : date) : Prop :=
  year d1 < year d2 ∨
  (year d1 = year d2 ∧
   (month d1 < month d2 ∨ (month d1 = month d2 ∧ day d1 < day d2))).

Definition digit (n : Z) : ascii := ascii_of_nat (48 + Z.to_nat (n mod 10)).

Definition pad2 (n : Z) : string :=
  String (digit (n / 10)) (String (digit n) EmptyString).

Definition pad4 (n : Z) : string :=
  String (digit (n / 1000)) (String (digit (n / 100)) (pad2 n)).

(** [d.isoformat()], that is YYYY-MM-DD *)
Definition isoformat (d : date) : string :=
  pad4 (year d) +:+ "-" +:+ pad2 (month d) +:+ "-" +:+ pad2 (day d).

End Date.

Export Date.

(** ** Python values, dictionaries and exceptions *)

(** The exceptions the service can raise.  [HTTPException] is FastAPI's;
    the three others come from the builtins [float] and [*]. *)
Inductive exn : Type :=
  | HTTPException (status_code : Z) (detail : string)
  | TypeError
  | ValueError
  | OverflowError.

(** The outcome of a call: a value, or a raised exception. *)
Inductive result (A : Type) : Type :=
  | Ok (a : A)
  | Raise (e : exn).

Arguments Ok {A} a.
Arguments Raise {A} e.

#[global] Instance result_ret : MRet result := λ A a, Ok a.
#[global] Instance result_bind : MBind result := λ A B f r,
  match r with
  | Ok a => f a
  | Raise e => Raise e
  end.
#[global] Instance result_fmap : FMap result := λ A B f r,
  match r with
  | Ok a => Ok (f a)
  | Raise e => Raise e
  end.

(** The error kinds of the specification, as the exceptions that carry
    them. *)
Definition InvalidDateRange : exn :=
  HTTPException 400 "End date must be after start date by at least 1 day".
Definition InvalidIdentifier : exn := HTTPException 400 "Invalid boat_id".
Definition NotFound : exn := HTTPException 404 "Boat not found".
Definition StoreUnavailable : exn := HTTPException 500 "Database not available".

(** A Python [dict] with string keys: the items in insertion order. *)
Abbreviation dict V := (list (string * V)).

Fixpoint dict_get {V : Type} (k : string) (d : dict V) : option V :=
  match d with
  | [] => None
  | (k', v) :: d' => if String.eqb k k' then Some v else dict_get k d'
  end.

(** [d[k] = v]: the value is replaced in place when the key is present, and
    the item is appended otherwise. *)
Fixpoint dict_set {V : Type} (k : string) (v : V) (d : dict V) : dict V :=
  match d with
  | [] => [(k, v)]
  | (k', v') :: d' =>
      if String.eqb k k' then (k, v) :: d' else (k', v') :: dict_set k v d'
  end.

Definition keys {V : Type} (d : dict V) : list string := map fst d.

Definition dict_map {V W : Type} (f : V → W) (d : dict V) : dict W :=
  map (λ kv, (kv.1, f kv.2)) d.

(** The keys of a [dict] are pairwise distinct. *)
Definition well_formed {V : Type} (d : dict V) : Prop := NoDup (keys d).

(** The sum of the values of [d], added from the left starting from 0, as
    the loop of [compute_quote] accumulates [extras_total]. *)
Definition sum_values (d : dict float) : float :=
  fold_left (λ acc kv, fadd acc kv.2) d (S754_zero false).

Section Values.

(** The identifiers of the document store ([bson.ObjectId]). *)
Context {oid : Type}.

(** The values found in requests and in stored documents. *)
#[local] Unset Elimination Schemes.
Inductive pyval : Type :=
  | VNone
  | VBool (b : bool)
  | VInt (z : Z)
  | VFloat (f : float)
  | VStr (s : string)
  | VObjectId (o : oid)
  | VList (l : list pyval)
  | VDict (d : list (string * pyval)).
#[local] Set Elimination Schemes.

(** [float(s)] on a string is Python's parser of float numerals; [None]
    stands for its [ValueError]. *)
Variable float_of_string : string → option float.

(** The builtin [float(v)]. *)
Definition py_float (v : pyval) : result float :=
  match v with
  | VFloat f => Ok f
  | VInt z =>
      match of_int z with
      | Some f => Ok f
      | None => Raise OverflowError
      end
  | VBool b => Ok (if b then decimal 1 0 else S754_zero false)
  | VStr s =>
      match float_of_string s with
      | Some f => Ok f
      | None => Raise ValueError
      end
  | _ => Raise TypeError
  end.

(** [d.get(k, default)] *)
Definition get (d : dict pyval) (k : string) (default : pyval) : pyval :=
  match dict_get k d with
  | Some v => v
  | None => default
  end.

End Values.

Arguments pyval oid : clear implicits.

(** [x * n] for a float [x] and an int [n]: the int is converted first. *)
Definition mul_int (x : float) (n : Z) : result float :=
  match of_int n with
  | Some y => Ok (fmul x y)
  | None => Raise OverflowError
  end.

(** ** [main.py] *)

(** Models for API requests.  The framework has validated them before a
    handler runs: the dates are calendar dates and [guests] is at least 1. *)
Module QuoteRequest.
Record t : Type := {
  boat_id : string;
  start_date : date;
  end_date : date;
  guests : Z;
  extras : dict bool;
}.
End QuoteRequest.

Module BookingRequest.
Record t : Type := {
  boat_id : string;
  start_date : date;
  end_date : date;
  guests : Z;
  customer_name : string;
  customer_email : string;
  customer_phone : option string;
  extras : dict bool;
  notes : option string;
}.
End BookingRequest.

(** Utility functions *)

Record rule : Type := { type : string; amount : float }.

Definition EXTRA_PRICING : dict rule := [
  ("skipper", {| type := "per_day"; amount := decimal 1500 1 |});
  ("fuel", {| type := "per_day"; amount := decimal 800 1 |});
  ("snorkel", {| type := "per_person_per_day"; amount := decimal 200 1 |})
].

Definition date_range_days (start end_ : date) : result Z :=
  let days := sub_days end_ start in
  if days <? 1 then Raise InvalidDateRange else Ok days.

(** The price breakdown that [compute_quote] builds and returns, with the
    values its keys have on return. *)
Record breakdown : Type := {
  nights : Z;
  base : float;
  extras : dict float;
  cleaning_fee : float;
  tax : float;
  total : float;
  currency : string;
  transparent : bool;
  notes : string;
}.

(** The cost of one enabled extra under its pricing rule. *)
Definition extra_cost (r : rule) (days guests : Z) : result float :=
  if String.eqb (type r) "per_day" then mul_int (amount r) days
  else if String.eqb (type r) "per_person_per_day" then
    c ← mul_int (amount r) guests; mul_int c days
  else Ok (S754_zero false).

(** The loop over the items of [extras]; the state is the extras map of
    the breakdown and [extras_total]. *)
Fixpoint extras_loop (days guests : Z) (items : dict bool)
    (acc : dict float * float) : result (dict float * float) :=
  match items with
  | [] => Ok acc
  | (key, enabled) :: rest =>
      if negb enabled then extras_loop days guests rest acc
      else
        match dict_get key EXTRA_PRICING with
        | None => extras_loop days guests rest acc
        | Some r =>
            cost ← extra_cost r days guests;
            extras_loop days guests rest
              (dict_set key (round2 cost) acc.1, fadd acc.2 cost)
        end
  end.

(** What [create_booking] returns. *)
Module BookingResponse.
Record t : Type := {
  id : string;
  status : string;
  pricing : breakdown;
}.
End BookingResponse.

(** A database: its collections by name, each a map from [_id] to the
    rest of the document. *)
Abbreviation collection oid := (gmap oid (dict (pyval oid))).
Abbreviation database oid := (gmap string (gmap oid (dict (pyval oid)))).

(** The items of [extras] that the loop prices: the enabled ones with a
    rule in the catalog. *)
Definition priced (item : string * bool) : bool :=
  item.2 && bool_decide (is_Some (dict_get item.1 EXTRA_PRICING)).

Section Main.

Context {oid : Type} `{Countable oid}.

(** [bson.ObjectId(s)]: the identifier that the string denotes, [None]
    when the constructor raises. *)
Variable ObjectId : string → option oid.

Variable float_of_string : string → option float.

(** [create_document(collection_name, data)] of the [database] module:
    it returns the identifier of the inserted document, as a string. *)
Variable create_document :
  string → dict (pyval oid) → database oid → result string * database oid.

(** [db[name].find_one({"_id": o})] *)
Definition find_one (db : database oid) (name : string) (o : oid)
    : option (dict (pyval oid)) :=
  c ← db !! name; doc ← c !! o; Some (("_id", VObjectId o) :: doc).

(** The global [db] is [None] when no database is configured. *)
Definition get_boat_or_404 (db : option (database oid)) (boat_id : string)
    : result (dict (pyval oid)) :=
  match ObjectId boat_id with
  | None => Raise InvalidIdentifier
  | Some o =>
      match db with
      | None => Raise TypeError
      | Some db =>
          match find_one db "boat" o with
          | None | Some [] => Raise NotFound
          | Some boat => Ok boat
          end
      end
  end.

(** [compute_quote], returning with the breakdown the values of its
    local variables [extras_total] and [subtotal].  The breakdown is given
    with the values its keys have on return ([tax] and [total] are 0.0
    until the last two assignments); [extras or {}] is [extras], the empty
    dict being the only falsy value of its type. *)
Definition compute_quote_locals (boat : dict (pyval oid))
    (start end_ : date) (guests : Z) (extras : dict bool)
    : result (breakdown * (float * float)) :=
  days ← date_range_days start end_;
  base_daily ← py_float float_of_string (get boat "base_price_per_day" (VInt 0));
  cleaning_fee ← py_float float_of_string (get boat "cleaning_fee" (VFloat (S754_zero false)));
  tax_rate ← py_float float_of_string (get boat "tax_rate" (VFloat (S754_zero false)));
  base_cost ← mul_int base_daily days;
  let b_base := round2 base_cost in
  let b_cleaning_fee := round2 cleaning_fee in
  '(b_extras, extras_total) ← extras_loop days guests extras ([], S754_zero false);
  let subtotal := fadd (fadd b_base extras_total) b_cleaning_fee in
  let b_tax := round2 (fmul subtotal tax_rate) in
  let b_total := round2 (fadd subtotal b_tax) in
  Ok ({| nights := days;
         base := b_base;
         extras := b_extras;
         cleaning_fee := b_cleaning_fee;
         tax := b_tax;
         total := b_total;
         currency := "USD";
         transparent := true;
         notes := "Prices include all fees and taxes. No hidden fees." |},
      (extras_total, subtotal)).

Definition compute_quote (boat : dict (pyval oid))
    (start end_ : date) (guests : Z) (extras : dict bool) : result breakdown :=
  fst <$> compute_quote_locals boat start end_ guests extras.

(** Seed data on first run: the three boats [seed_boats] inserts into an
    empty collection. *)
Definition sample_boats : list (dict (pyval oid)) := [
  [ ("name", VStr "Aqua Breeze 32");
    ("type", VStr "sailboat");
    ("capacity", VInt 6);
    ("base_price_per_day", VFloat (decimal 4200 1));
    ("location", VStr "Marina Grande");
    ("images", VList [VStr "https://images.unsplash.com/photo-1505852679233-d9fd70aff56d?q=80&w=1600&auto=format&fit=crop"]);
    ("description", VStr "Elegant cruiser perfect for day sails and weekend getaways.");
    ("features", VList [VStr "GPS"; VStr "Bluetooth Audio"; VStr "Bimini"; VStr "Fresh water shower"]);
    ("tax_rate", VFloat (decimal 8 2));
    ("cleaning_fee", VFloat (decimal 350 1)) ];
  [ ("name", VStr "Sunset Whisper 45");
    ("type", VStr "yacht");
    ("capacity", VInt 10);
    ("base_price_per_day", VFloat (decimal 8500 1));
    ("location", VStr "Harbor Cove");
    ("images", VList [VStr "https://images.unsplash.com/photo-1502877338535-766e1452684a?q=80&w=1600&auto=format&fit=crop"]);
    ("description", VStr "Spacious comfort with refined finishes for premium charters.");
    ("features", VList [VStr "Skylounge"; VStr "Air Conditioning"; VStr "Kitchenette"; VStr "Skipper ready"]);
    ("tax_rate", VFloat (decimal 1 1));
    ("cleaning_fee", VFloat (decimal 600 1)) ];
  [ ("name", VStr "Sandline 24");
    ("type", VStr "speedboat");
    ("capacity", VInt 4);
    ("base_price_per_day", VFloat (decimal 2600 1));
    ("location", VStr "Pier 7");
    ("images", VList [VStr "https://images.unsplash.com/photo-1504367087812-9f34b82a0f05?q=80&w=1600&auto=format&fit=crop"]);
    ("description", VStr "Sporty and nimble for quick coastal hops and snorkeling.");
    ("features", VList [VStr "Life vests"; VStr "Cooler"; VStr "Sun awning"]);
    ("tax_rate", VFloat (decimal 7 2));
    ("cleaning_fee", VFloat (decimal 250 1)) ]
].

(** The breakdown as the Python [dict] it is. *)
Definition breakdown_dict (b : breakdown) : dict (pyval oid) := [
  ("nights", VInt (nights b));
  ("base", VFloat (base b));
  ("extras", VDict (dict_map VFloat (extras b)));
  ("cleaning_fee", VFloat (cleaning_fee b));
  ("tax", VFloat (tax b));
  ("total", VFloat (total b));
  ("currency", VStr (currency b));
  ("transparent", VBool (transparent b));
  ("notes", VStr (notes b))
].

(** Request handlers.  A handler runs on the database and may change it;
    an exception leaves the database as it is when it is raised. *)
Definition handler (A : Type) : Type := database oid → result A * database oid.

Definition hret {A : Type} (a : A) : handler A := λ st, (Ok a, st).

Definition hbind {A B : Type} (h : handler A) (k : A → handler B) : handler B :=
  λ st,
    match h st with
    | (Ok a, st') => k a st'
    | (Raise e, st') => (Raise e, st')
    end.

(** A call that reads the database and does not change it. *)
Definition reading {A : Type} (f : database oid → result A) : handler A :=
  λ st, (f st, st).

(** The guard [if db is None: raise HTTPException(status_code=500, ...)]
    in front of the body of a handler. *)
Definition guarded {A : Type} (body : handler A) (db : option (database oid))
    : result A * option (database oid) :=
  match db with
  | None => (Raise StoreUnavailable, None)
  | Some st => let '(r, st') := body st in (r, Some st')
  end.

Notation "x ⇐ h ; k" := (hbind h (λ x, k))
  (at level 20, h at level 100, k at level 200, only parsing).

(** Boats *)

Definition create_boat (boat : dict (pyval oid)) : option (database oid) →
    result (dict (pyval oid)) * option (database oid) :=
  guarded (
    boat_id ⇐ create_document "boat" boat;
    hret [("id", VStr boat_id)]).

(** Pricing / Quote *)

Definition quote (req : QuoteRequest.t) : option (database oid) →
    result (breakdown * string) * option (database oid) :=
  guarded (
    boat ⇐ reading (λ st, get_boat_or_404 (Some st) (QuoteRequest.boat_id req));
    breakdown ⇐ reading (λ _,
      compute_quote boat (QuoteRequest.start_date req) (QuoteRequest.end_date req)
        (QuoteRequest.guests req) (QuoteRequest.extras req));
    hret (breakdown, QuoteRequest.boat_id req)).

(** Bookings *)

Definition optional_str (o : option string) : pyval oid :=
  match o with
  | Some s => VStr s
  | None => VNone
  end.

(** [utcnow] is the value of [datetime.utcnow().isoformat()] at the
    call. *)
Definition create_booking (utcnow : string) (req : BookingRequest.t)
    : option (database oid) → result BookingResponse.t * option (database oid) :=
  guarded (
    boat ⇐ reading (λ st, get_boat_or_404 (Some st) (BookingRequest.boat_id req));
    pricing ⇐ reading (λ _,
      compute_quote boat (BookingRequest.start_date req)
        (BookingRequest.end_date req) (BookingRequest.guests req)
        (BookingRequest.extras req));
    let booking_doc : dict (pyval oid) := [
      ("boat_id", VStr (BookingRequest.boat_id req));
      ("start_date", VStr (isoformat (BookingRequest.start_date req)));
      ("end_date", VStr (isoformat (BookingRequest.end_date req)));
      ("guests", VInt (BookingRequest.guests req));
      ("customer_name", VStr (BookingRequest.customer_name req));
      ("customer_email", VStr (BookingRequest.customer_email req));
      ("customer_phone", optional_str (BookingRequest.customer_phone req));
      ("extras", VDict (dict_map VBool (BookingRequest.extras req)));
      ("notes", optional_str (BookingRequest.notes req));
      ("pricing", VDict (breakdown_dict pricing));
      ("status", VStr "requested");
      ("created_at", VStr utcnow)
    ] in
    booking_id ⇐ create_document "booking" booking_doc;
    hret {| BookingResponse.id := booking_id;
            BookingResponse.status := "requested";
            BookingResponse.pricing := pricing |}).

(** The boat and the booking records of a database. *)
Definition boats (st : database oid) : collection oid := default ∅ (st !! "boat").

Definition bookings (st : database oid) : collection oid := default ∅ (st !! "booking").

End Main.

(** The sum the breakdown itemizes: base, extras and cleaning fee, added
    from the left as [compute_quote] adds them. *)
Definition subtotal_of (bd : breakdown) : float :=
  fadd (fadd (base bd) (sum_values (extras bd))) (cleaning_fee bd).

(** The equation [total == base + sum(extras) + cleaning_fee + tax] between
    floats. *)
Definition total_is_sum (bd : breakdown) : Prop :=
  total bd = fadd (subtotal_of bd) (tax bd).

(** ** The document store *)

Section Store.

Context {oid : Type} `{Countable oid} `{!Infinite oid}.

(** [str(o)] for an identifier [o]. *)
Variable str : oid → string.

(** Modelled from the spec: [create_document] of the [database] module,
    which is not among the sources.  The specification gives it as the
    store's operation insertOne(collection, document) → generated
    identifier: the document is stored as it is given, under an identifier
    that the collection does not use yet, and that identifier is
    returned. *)
Definition insert_one (name : string) (doc : dict (pyval oid))
    (db : database oid) : result string * database oid :=
  let c := default ∅ (db !! name) in
  let o := fresh (dom c) in
  (Ok (str o), <[name := <[o := doc]> c]> db).

End Store.

(** ** The boat list and the seed data

    The two functions of [main.py] that read or fill the boat collection
    without pricing anything. *)

(** [d.pop(k)]: the value under [k] and the dict without the item;
    [None] stands for the [KeyError]. *)
Fixpoint dict_pop {V : Type} (k : string) (d : dict V) : option (V * dict V) :=
  match d with
  | [] => None
  | (k', v) :: d' =>
      if String.eqb k k' then Some (v, d')
      else '(x, r) ← dict_pop k d'; Some (x, (k', v) :: r)
  end.

Section Listing.

Context {oid : Type} `{Countable oid}.

(** [str(v)] *)
Variable str : pyval oid → string.

(** [get_documents(collection_name)] of the [database] module: the
    documents of the collection, each with its [_id]; [None] when it
    raises. *)
Variable get_documents :
  string → database oid → option (list (dict (pyval oid))).

(** The function [to_public] local to [list_boats]:
    [doc["id"] = str(doc.pop("_id"))].  [None] stands for the [KeyError]
    of [pop]. *)
Definition to_public (doc : dict (pyval oid)) : option (dict (pyval oid)) :=
  '(v, rest) ← dict_pop "_id" doc;
  Some (dict_set "id" (VStr (str v)) rest).

(** [None] stands for an exception: the one of [get_documents], or the
    [KeyError] of [to_public]. *)
Definition list_boats (db : option (database oid))
    : option (list (dict (pyval oid))) :=
  docs ← match db with
         | Some st => get_documents "boat" st
         | None => Some []
         end;
  mapM to_public docs.

End Listing.

Section Seed.

Context {oid : Type} `{Countable oid}.

(** [c.count_documents({})] *)
Definition count_documents (c : collection oid) : Z := Z.of_nat (size c).

(** [c.insert_many(docs)]: each document is stored under the identifier
    that the driver generates for it; [ids] are these identifiers, in
    the order of the documents. *)
Definition insert_many (ids : list oid) (docs : list (dict (pyval oid)))
    (c : collection oid) : collection oid :=
  foldl (λ c item, <[item.1 := item.2]> c) c (zip ids docs).

(** [seed_boats], run at start-up: what it does to the database.  It
    returns nothing and lets no exception out. *)
Definition seed_boats (ids : list oid) (db : option (database oid))
    : option (database oid) :=
  match db with
  | None => None
  | Some st =>
      let count := count_documents (boats st) in
      if count =? 0
      then Some (<["boat" := insert_many ids sample_boats (boats st)]> st)
      else Some st
  end.

End Seed.

(** The request that [create_booking] prices: the fields of the booking
    that it passes to [compute_quote]. *)
Definition as_quote (req : BookingRequest.t) : QuoteRequest.t :=
  {| QuoteRequest.boat_id := BookingRequest.boat_id req;
     QuoteRequest.start_date := BookingRequest.start_date req;
     QuoteRequest.end_date := BookingRequest.end_date req;
     QuoteRequest.guests := BookingRequest.guests req;
     QuoteRequest.extras := BookingRequest.extras req |}.

(** ** Amounts in whole dollars *)

(** Python's [x < 0] on a float. *)
Definition negative (x : float) : bool := SFltb x (S754_zero false).

(** A finite float below [2^K] in magnitude: [abs(x) < 2.0 ** K]. *)
Definition below (K : Z) (x : float) : Prop :=
  match x with
  | S754_zero _ => True
  | S754_finite _ m e => Zpos (digits2_pos m) + e ≤ K
  | _ => False
  end.

(** The cost of an extra over the integers: the rules of [EXTRA_PRICING],
    whose amounts 150.0, 80.0 and 20.0 are whole. *)
Definition exact_cost (key : string) (days guests : Z) : Z :=
  if String.eqb key "skipper" then 150 * days
  else if String.eqb key "fuel" then 80 * days
  else if String.eqb key "snorkel" then 20 * guests * days
  else 0.

(** The costs of the items that the loop of [compute_quote] prices, added
    over the integers. *)
Definition exact_extras_total (days guests : Z) (items : dict bool) : Z :=
  foldr (λ item acc, exact_cost item.1 days guests + acc) 0
    (List.filter priced items).

(** The extras of a request in whole dollars: 150 a day for a skipper, 80
    a day for fuel, 20 a guest and a day for snorkel. *)
Definition whole_extras (days guests : Z) (selection : dict bool) : Z :=
  (if bool_decide (("skipper", true) ∈ selection) then 150 * days else 0) +
  (if bool_decide (("fuel", true) ∈ selection) then 80 * days else 0) +
  (if bool_decide (("snorkel", true) ∈ selection) then 20 * guests * days else 0).

(** A store for the examples: an identifier is written as 24 hexadecimal
    digits and is denoted by that string; no field holds a numeral as a
    string. *)
Definition is_hex (a : ascii) : bool :=
  let n := nat_of_ascii a in
  (Nat.leb 48 n && Nat.leb n 57) || (Nat.leb 97 n && Nat.leb n 102)
  || (Nat.leb 65 n && Nat.leb n 70).

Definition hex_ObjectId (s : string) : option string :=
  if Nat.eqb (String.length s) 24 && forallb is_hex (list_ascii_of_string s)
  then Some s else None.

Definition no_numeral : string → option float := λ _, None.

Definition aqua_breeze : dict (pyval string) :=
  nth 0 sample_boats [].

Definition aqua_id : string := "64f0c0ffee64f0c0ffee64f0".

Definition marina : database string :=
  {[ "boat" := {[ aqua_id := aqua_breeze ]} ]}.


(** The inputs of the examples. *)
Definition july_1 : date := mkdate 2024 7 1.
Definition july_3 : date := mkdate 2024 7 3.
Definition july_4 : date := mkdate 2024 7 4.
Definition july_7 : date := mkdate 2024 7 7.

Definition skipper_and_snorkel : dict bool :=
  [("skipper", true); ("snorkel", true)].

(** The breakdown of three nights on the Aqua Breeze 32 for two guests with
    skipper and snorkel. *)
Definition aqua_quote : breakdown :=
  {| nights := 3;
     base := decimal 126000 2;
     extras := [("skipper", decimal 45000 2); ("snorkel", decimal 12000 2)];
     cleaning_fee := decimal 3500 2;
     tax := decimal 14920 2;
     total := decimal 201420 2;
     currency := "USD";
     transparent := true;
     notes := "Prices include all fees and taxes. No hidden fees." |}.

(** A boat at 99.99 a day, no cleaning fee, taxed at 0.1. *)
Definition dinghy : dict (pyval string) := [
  ("base_price_per_day", VFloat (decimal 9999 2));
  ("cleaning_fee", VFloat (S754_zero false));
  ("tax_rate", VFloat (decimal 1 1))
].

(** A record with a daily price of 1e308 and no other rate field. *)
Definition flagship : dict (pyval string) := [
  ("base_price_per_day", VFloat (decimal (10 ^ 308) 0))
].

Definition booking_request (boat_id : string) (start end_ : date)
    : BookingRequest.t :=
  {| BookingRequest.boat_id := boat_id;
     BookingRequest.start_date := start;
     BookingRequest.end_date := end_;
     BookingRequest.guests := 2;
     BookingRequest.customer_name := "Ada";
     BookingRequest.customer_email := "ada@example.org";
     BookingRequest.customer_phone := None;
     BookingRequest.extras := skipper_and_snorkel;
     BookingRequest.notes := None |}.

(** A boat with whole-dollar rates and no tax: 120 a day, stored as an
    int, and a cleaning fee of 15.0. *)
Definition punt : dict (pyval string) := [
  ("name", VStr "Punt");
  ("base_price_per_day", VInt 120);
  ("cleaning_fee", VFloat (decimal 150 1))
].

Definition snorkel_and_skipper : dict bool :=
  [("snorkel", true); ("skipper", true)].

Definition all_extras : dict bool :=
  [("snorkel", true); ("skipper", true); ("fuel", true)].

(** A party for which the order of the extras shows in the total. *)
Definition crowd : Z := 76861433640456465.

(** A database without boats, and the identifiers of the three boats
    that [seed_boats] inserts into it. *)
Definition harbour : database string := ∅.

Definition seed_ids : list string := [
  "65a000000000000000000001";
  "65a000000000000000000002";
  "65a000000000000000000003"
].

Definition sunset_whisper : dict (pyval string) :=
  nth 1 sample_boats [].

Definition weekend_quote : QuoteRequest.t :=
  {| QuoteRequest.boat_id := "65a000000000000000000002";
     QuoteRequest.start_date := july_1;
     QuoteRequest.end_date := july_3;
     QuoteRequest.guests := 4;
     QuoteRequest.extras := skipper_and_snorkel |}.

(** The breakdown of three nights on the punt for two guests with every
    extra. *)
Definition punt_quote : breakdown :=
  {| nights := 3;
     base := decimal 36000 2;
     extras := [("snorkel", decimal 12000 2); ("skipper", decimal 45000 2);
                ("fuel", decimal 24000 2)];
     cleaning_fee := decimal 1500 2;
     tax := S754_zero false;
     total := decimal 118500 2;
     currency := "USD";
     transparent := true;
     notes := "Prices include all fees and taxes. No hidden fees." |}.

(** * Facts *)

(** ** Binary64 rounding

    What the pricing needs of the arithmetic: a product of integer-valued
    floats is an integer-valued float (or an infinity), and rounding such a
    float to two decimals gives it back. *)

Lemma digits2_bounds p :
  2 ^ (Zpos (digits2_pos p) - 1) ≤ Zpos p < 2 ^ Zpos (digits2_pos p).
Proof.
  induction p as [p IH|p IH|]; cbn [digits2_pos].
  - rewrite Pos2Z.inj_succ. replace (Z.succ (Zpos (digits2_pos p)) - 1) with (Z.succ (Zpos (digits2_pos p) - 1)) by lia.
    rewrite !Z.pow_succ_r by lia. lia.
  - rewrite Pos2Z.inj_succ. replace (Z.succ (Zpos (digits2_pos p)) - 1) with (Z.succ (Zpos (digits2_pos p) - 1)) by lia.
    rewrite !Z.pow_succ_r by lia. lia.
  - cbn. lia.
Qed.

Lemma pow2_lt_inv a b : 0 ≤ a → 0 ≤ b → 2 ^ a < 2 ^ b → a < b.
Proof. intros. apply (Z.pow_lt_mono_r_iff 2); lia. Qed.

Lemma digits2_unique p d :
  2 ^ (d - 1) ≤ Zpos p < 2 ^ d → Zpos (digits2_pos p) = d.
Proof.
  intros [H1 H2]. pose proof (digits2_bounds p) as [B1 B2].
  assert (0 < d). { destruct (Z.ltb_spec 0 d); [lia|]. rewrite Z.pow_neg_r in H1 by lia.
    assert (d = 0 \/ d < 0) as [->| ] by lia; [cbn in H2; lia | rewrite Z.pow_neg_r in H2; lia ]. }
  assert (Zpos (digits2_pos p) - 1 < d) by (apply pow2_lt_inv; lia).
  assert (d - 1 < Zpos (digits2_pos p)) by (apply pow2_lt_inv; lia).
  lia.
Qed.

Lemma iter_xO p n : Zpos (Pos.iter xO p n) = Zpos p * 2 ^ Zpos n.
Proof.
  revert p. induction n using Pos.peano_ind; intros p.
  - cbn. lia.
  - rewrite Pos.iter_succ. rewrite Pos2Z.inj_xO, IHn, Pos2Z.inj_succ, Z.pow_succ_r by lia. lia.
Qed.

Lemma shr_1_spec m r s : 0 ≤ m →
  shr_1 (Build_shr_record m r s) = Build_shr_record (m / 2) (Z.odd m) (r || s).
Proof.
  intros Hm. rewrite <- Z.div2_div.
  destruct m as [|[p|p|]|]; try lia; reflexivity.
Qed.

Lemma pow2_xO p : 2 ^ Zpos p~0 = 2 ^ Zpos p * 2 ^ Zpos p.
Proof.
  replace (Zpos p~0) with (Zpos p + Zpos p) by lia.
  rewrite Z.pow_add_r by lia. reflexivity.
Qed.

Lemma pow2_xI p : 2 ^ Zpos p~1 = 2 * (2 ^ Zpos p * 2 ^ Zpos p).
Proof.
  replace (Zpos p~1) with (1 + Zpos p + Zpos p) by lia.
  rewrite !Z.pow_add_r by lia. change (2 ^ 1) with 2. lia.
Qed.

Lemma iter_shr_m p : ∀ mrs, 0 ≤ shr_m mrs →
  shr_m (SpecFloat.iter_pos shr_1 p mrs) = shr_m mrs / 2 ^ Zpos p.
Proof.
  assert (H1 : forall mrs, 0 <= shr_m mrs -> shr_m (shr_1 mrs) = shr_m mrs / 2).
  { intros [m r s] Hm. cbn [shr_m] in *. rewrite shr_1_spec by lia. reflexivity. }
  induction p as [p IH|p IH|]; intros mrs Hm; cbn [SpecFloat.iter_pos].
  - assert (Ha : 0 <= shr_m (shr_1 mrs)) by (rewrite H1 by lia; apply Z.div_pos; lia).
    assert (Hb : 0 <= shr_m (SpecFloat.iter_pos shr_1 p (shr_1 mrs))) by (rewrite IH by lia; apply Z.div_pos; lia).
    rewrite IH, IH, H1 by assumption.
    rewrite !Z.div_div by lia. rewrite pow2_xI. f_equal; lia.
  - assert (Hb : 0 <= shr_m (SpecFloat.iter_pos shr_1 p mrs)) by (rewrite IH by lia; apply Z.div_pos; lia).
    rewrite IH, IH by assumption.
    rewrite !Z.div_div by lia. rewrite pow2_xO. f_equal; lia.
  - rewrite H1 by lia. reflexivity.
Qed.

Lemma iter_shr_exact p : ∀ m, 0 ≤ m → (2 ^ Zpos p | m) →
  SpecFloat.iter_pos shr_1 p (Build_shr_record m false false) =
  Build_shr_record (m / 2 ^ Zpos p) false false.
Proof.
  induction p as [p IH|p IH|]; intros m Hm [q ->]; cbn [SpecFloat.iter_pos].
  - rewrite pow2_xI in *.
    assert (HP : 0 < 2 ^ Zpos p) by lia.
    set (P := 2 ^ Zpos p) in *.
    assert (0 <= q) by nia.
    rewrite Z.div_mul by lia.
    replace (q * (2 * (P * P))) with (q * P * P * 2) by lia.
    rewrite shr_1_spec by nia.
    rewrite Z.div_mul, Z.odd_mul, andb_false_r by lia. cbn [orb].
    rewrite IH by (try nia; eexists; reflexivity).
    rewrite Z.div_mul by lia.
    rewrite IH by (try nia; eexists; reflexivity).
    rewrite Z.div_mul by lia. reflexivity.
  - rewrite pow2_xO in *.
    assert (HP : 0 < 2 ^ Zpos p) by lia.
    set (P := 2 ^ Zpos p) in *.
    assert (0 <= q) by nia.
    rewrite Z.div_mul by lia.
    replace (q * (P * P)) with (q * P * P) by lia.
    rewrite IH by (try nia; eexists; reflexivity).
    rewrite Z.div_mul by lia.
    rewrite IH by (try nia; eexists; reflexivity).
    rewrite Z.div_mul by lia. reflexivity.
  - change (2 ^ 1) with 2 in *. assert (0 <= q) by lia. rewrite shr_1_spec by lia.
    rewrite Z.odd_mul, andb_false_r. reflexivity.
Qed.

Lemma digits2_shift m k : 0 ≤ k →
  ∀ p, Zpos p = Zpos m * 2 ^ k → Zpos (digits2_pos p) = Zpos (digits2_pos m) + k.
Proof.
  intros Hk p Hp. apply digits2_unique. rewrite Hp.
  pose proof (digits2_bounds m) as [B1 B2].
  replace (Zpos (digits2_pos m) + k - 1) with ((Zpos (digits2_pos m) - 1) + k) by lia.
  rewrite !Z.pow_add_r by lia.
  assert (0 < 2 ^ k) by (apply Z.pow_pos_nonneg; lia). nia.
Qed.

(** Rounding a mantissa that needs no rounding. *)
Lemma binary_round_aux_exact s m k e M :
  Zpos (digits2_pos m) = prec → 0 ≤ k →
  emin prec emax ≤ e + k ≤ emax - prec →
  M = Zpos m * 2 ^ k →
  binary_round_aux prec emax s M e loc_Exact = S754_finite s m (e + k).
Proof.
  intros Hd Hk He HM.
  assert (0 < 2 ^ k) by (apply Z.pow_pos_nonneg; lia).
  destruct M as [|q|q]; try nia. rename HM into Hq.
  pose proof (digits2_shift m k Hk q Hq) as Hdq.
  unfold binary_round_aux, shr_fexp. cbn [Zdigits2 shr_record_of_loc].
  rewrite Hdq, Hd.
  replace (fexp prec emax (prec + k + e) - e) with k.
  2:{ unfold fexp, emin, prec, emax in *. lia. }
  assert (Hshr : shr (Build_shr_record (Zpos q) false false) e k =
                 (Build_shr_record (Zpos m) false false, e + k)).
  { destruct k as [|k|k]; try lia.
    - cbn [shr]. rewrite Z.add_0_r. do 2 f_equal. rewrite Hq. cbn. lia.
    - cbn [shr]. rewrite iter_shr_exact by (rewrite ?Hq; try lia; eexists; reflexivity).
      rewrite Hq, Z.div_mul by lia. reflexivity. }
  rewrite Hshr. cbn [shr_m loc_of_shr_record round_nearest_even Zdigits2 shr_record_of_loc].
  rewrite Hd.
  replace (fexp prec emax (prec + (e + k)) - (e + k)) with 0.
  2:{ unfold fexp, emin, prec, emax in *. lia. }
  cbn [shr shr_m].
  destruct (Z.leb_spec (e + k) (emax - prec)); [reflexivity|lia].
Qed.

Lemma integral_bounds m e : integral m e →
  2 ^ 52 ≤ Zpos m < 2 ^ 53 ∧ -52 ≤ e ≤ 971.
Proof.
  intros (Hd & He & Hdiv). pose proof (digits2_bounds m) as HB. rewrite Hd in HB.
  unfold prec, emax in *. split; [exact HB|]. split; [|lia].
  destruct (Z.ltb_spec e (-52)); [|lia]. exfalso.
  destruct Hdiv as [q Hq]; [lia|].
  assert (2 ^ 53 <= 2 ^ (- e)) by (apply Z.pow_le_mono_r; lia).
  assert (0 < q) by nia. nia.
Qed.

Lemma cents_integral m e : integral m e →
  ∃ n, cents m e = Zpos n ∧
    ∀ t, 0 ≤ t → 0 ≤ t + e → Zpos n * 2 ^ t = 100 * (Zpos m * 2 ^ (t + e)).
Proof.
  intros Hi. pose proof (integral_bounds m e Hi) as [Hm He].
  destruct Hi as (Hd & _ & Hdiv). unfold cents.
  destruct e as [|e|e].
  - exists (m * 100)%positive. split; [cbn; f_equal; lia|].
    intros t Ht _. rewrite Z.add_0_r. lia.
  - exists (m * 100 * 2 ^ e)%positive. split.
    + rewrite Pos2Z.inj_mul, Pos2Z.inj_pow. reflexivity.
    + intros t Ht _. rewrite Pos2Z.inj_mul, Pos2Z.inj_pow, Pos2Z.inj_mul.
      rewrite Z.pow_add_r by lia. lia.
  - destruct Hdiv as [q Hq]; [lia|]. change (- Zneg e) with (Zpos e) in Hq.
    assert (0 < 2 ^ Zpos e) by lia.
    assert (0 < q) by nia.
    unfold rne_div. rewrite Hq.
    replace (q * 2 ^ Zpos e * 100) with (q * 100 * 2 ^ Zpos e) by lia.
    rewrite Z.mod_mul, Z.div_mul by lia.
    replace (2 * 0 ?= 2 ^ Zpos e) with Lt by (symmetry; apply Z.compare_lt_iff; lia).
    destruct q as [|q|q]; try lia. exists (q * 100)%positive.
    split; [reflexivity|].
    intros t Ht Hte. rewrite Pos2Z.inj_mul.
    replace t with ((t + Zneg e) + Zpos e) at 1 by lia.
    rewrite Z.pow_add_r by lia. lia.
Qed.

Lemma nearest_exact s n m e :
  integral m e →
  (∀ t, 0 ≤ t → 0 ≤ t + e → Zpos n * 2 ^ t = 100 * (Zpos m * 2 ^ (t + e))) →
  nearest s n 100 = S754_finite s m e.
Proof.
  intros Hi Hrel. pose proof (integral_bounds m e Hi) as [Hm He].
  pose proof Hi as (Hd & _ & _).
  (* the size of the numerator *)
  assert (Hn : 2 ^ (58 + e) <= Zpos n < 2 ^ (60 + e)).
  { pose proof (Hrel 52 ltac:(lia) ltac:(lia)) as H52.
    assert (0 < 2 ^ (52 + e)) by (apply Z.pow_pos_nonneg; lia).
    replace (58 + e) with (6 + (52 + e)) by lia.
    replace (60 + e) with (8 + (52 + e)) by lia.
    rewrite (Z.pow_add_r 2 6), (Z.pow_add_r 2 8) by lia.
    change (2 ^ 6) with 64. change (2 ^ 8) with 256.
    change (2 ^ 53) with (2 * 2 ^ 52) in Hm.
    assert (HC : 0 < 2 ^ 52) by lia.
    remember (2 ^ 52) as C eqn:EC. remember (2 ^ (52 + e)) as X eqn:EX.
    clear EC EX. split.
    - apply (Z.mul_le_mono_pos_r _ _ C); [lia|].
      assert (C * X <= Zpos m * X) by (apply Z.mul_le_mono_nonneg_r; lia).
      assert (0 < C * X) by (apply Z.mul_pos_pos; lia). lia.
    - apply (Z.mul_lt_mono_pos_r C); [lia|].
      assert (Zpos m * X < 2 * C * X) by (apply Z.mul_lt_mono_pos_r; lia).
      assert (0 < C * X) by (apply Z.mul_pos_pos; lia). lia. }
  set (dn := Zpos (digits2_pos n)).
  assert (Hdn : dn = 59 + e \/ dn = 60 + e).
  { destruct (Z.ltb_spec (Zpos n) (2 ^ (59 + e))).
    - left. apply digits2_unique. replace (59 + e - 1) with (58 + e) by lia. lia.
    - right. apply digits2_unique. replace (60 + e - 1) with (59 + e) by lia. lia. }
  unfold nearest, SFdiv, SFdiv_core_binary.
  change (Zdigits2 (Zpos n)) with dn. change (Zdigits2 100) with 7.
  set (e' := Z.min (fexp prec emax (dn + 0 - (7 + 0))) (0 - 0)).
  assert (He' : e' = dn - 60 /\ dn <= 60 \/ e' = 0 /\ 60 < dn).
  { unfold e', fexp, emin, prec, emax. lia. }
  set (sft := 0 - 0 - e').
  assert (Hsft : 0 <= sft /\ 0 <= sft + e) by (unfold sft; lia).
  assert (Hm' : match sft with Zpos _ => Z.shiftl (Zpos n) sft | Z0 => Zpos n | Zneg _ => 0 end
                = 100 * (Zpos m * 2 ^ (sft + e))).
  { rewrite <- Hrel by lia. clearbody sft. destruct sft; try lia.
    rewrite Z.shiftl_mul_pow2 by lia. reflexivity. }
  rewrite Hm'.
  assert (Hdiv : Z.div_eucl (100 * (Zpos m * 2 ^ (sft + e))) 100 = (Zpos m * 2 ^ (sft + e), 0)).
  { pose proof (Z.div_mul (Zpos m * 2 ^ (sft + e)) 100 ltac:(lia)) as Hq.
    pose proof (Z.mod_mul (Zpos m * 2 ^ (sft + e)) 100 ltac:(lia)) as Hr.
    rewrite (Z.mul_comm 100). unfold Z.div, Z.modulo in Hq, Hr.
    destruct (Z.div_eucl _ 100). cbn in Hq, Hr. congruence. }
  rewrite Hdiv.
  change (new_location 100 0) with loc_Exact.
  rewrite (binary_round_aux_exact _ m (sft + e) e' _ Hd); [| lia | | reflexivity].
  - f_equal; [destruct s; reflexivity | unfold sft; lia].
  - unfold emin, prec, emax, sft. lia.
Qed.

Lemma round2_integral s m e :
  integral m e → round2 (S754_finite s m e) = S754_finite s m e.
Proof.
  intros Hi. destruct (cents_integral m e Hi) as (n & Hc & Hrel).
  unfold round2, of_cents. rewrite Hc. apply nearest_exact; assumption.
Qed.

Lemma round2_whole x : whole x → round2 x = x.
Proof. destruct x; cbn [whole]; intros H; try reflexivity. apply round2_integral, H. Qed.

Lemma shr_record_of_loc_m m l : shr_m (shr_record_of_loc m l) = m.
Proof. destruct l as [|[]]; reflexivity. Qed.

Lemma loc_of_shr_record_of_loc m l : loc_of_shr_record (shr_record_of_loc m l) = l.
Proof. destruct l as [|[]]; reflexivity. Qed.

Lemma shr_spec mrs e k : 0 ≤ shr_m mrs → 0 ≤ k →
  snd (shr mrs e k) = e + k ∧ shr_m (fst (shr mrs e k)) = shr_m mrs / 2 ^ k.
Proof.
  intros Hm Hk. destruct k as [|k|k]; try lia; cbn [shr fst snd].
  - rewrite Z.pow_0_r, Z.div_1_r. lia.
  - split; [reflexivity | apply iter_shr_m; assumption].
Qed.

Lemma round_nearest_even_cases m l :
  round_nearest_even m l = m ∨ round_nearest_even m l = m + 1.
Proof. destruct l as [|[]]; cbn; try destruct (Z.even m); auto. Qed.

(** The shape of a rounded result: a normal mantissa at the exponent the
    size of the input commands (or one more when rounding carries), unless
    that exponent is out of range. *)
Lemma binary_round_aux_shape s M E l :
  0 < M → prec ≤ Zdigits2 M → emin prec emax ≤ E + Zdigits2 M - prec →
  ∃ m e, Zpos (digits2_pos m) = prec ∧
    E + Zdigits2 M - prec ≤ e ≤ E + Zdigits2 M - prec + 1 ∧
    binary_round_aux prec emax s M E l =
    if e <=? emax - prec then S754_finite s m e else S754_infinity s.
Proof.
  intros HM HD HE. destruct M as [|q|q]; try lia. cbn [Zdigits2] in *.
  set (D := Zpos (digits2_pos q)) in *.
  pose proof (digits2_bounds q) as HB. fold D in HB.
  unfold binary_round_aux, shr_fexp. cbn [Zdigits2]. fold D.
  replace (fexp prec emax (D + E) - E) with (D - prec).
  2:{ unfold fexp, emin, prec, emax in *. lia. }
  destruct (shr_spec (shr_record_of_loc (Zpos q) l) E (D - prec)) as [He' Hm'];
    [rewrite shr_record_of_loc_m; lia | lia |].
  destruct (shr (shr_record_of_loc (Zpos q) l) E (D - prec)) as [mrs' e'].
  cbn [fst snd] in He', Hm'. rewrite shr_record_of_loc_m in Hm'.
  (* the truncated mantissa has 53 bits *)
  assert (H0 : 2 ^ 52 <= shr_m mrs' < 2 ^ 53).
  { rewrite Hm'. unfold prec in *.
    assert (0 < 2 ^ (D - 53)) by (apply Z.pow_pos_nonneg; lia).
    split.
    - apply Z.div_le_lower_bound; [lia|].
      rewrite <- Z.pow_add_r by lia. replace (D - 53 + 52) with (D - 1) by lia. lia.
    - apply Z.div_lt_upper_bound; [lia|].
      rewrite <- Z.pow_add_r by lia. replace (D - 53 + 53) with D by lia. lia. }
  set (m1 := round_nearest_even (shr_m mrs') (loc_of_shr_record mrs')).
  assert (H1 : 2 ^ 52 <= m1 <= 2 ^ 53).
  { unfold m1. destruct (round_nearest_even_cases (shr_m mrs') (loc_of_shr_record mrs')) as [-> | ->]; lia. }
  clearbody m1. destruct m1 as [|p1|p1]; try lia.
  cbn [Zdigits2 shr_record_of_loc].
  destruct (Z.eq_dec (Zpos p1) (2 ^ 53)) as [Hc|Hc].
  - (* the rounding carried into a 54th bit *)
    assert (Hp1 : p1 = (2 ^ 53)%positive) by (apply Pos2Z.inj; exact Hc).
    subst p1. change (Zpos (digits2_pos (2 ^ 53))) with 54.
    replace (fexp prec emax (54 + e') - e') with 1.
    2:{ unfold fexp, emin, prec, emax in *. lia. }
    cbn [shr SpecFloat.iter_pos shr_1 shr_m Pos.pow Pos.iter Pos.mul].
    exists (2 ^ 52)%positive, (e' + 1). split; [reflexivity|]. split; [lia|].
    reflexivity.
  - assert (Hd1 : Zpos (digits2_pos p1) = 53) by (apply digits2_unique; change (53 - 1) with 52; lia).
    rewrite Hd1.
    replace (fexp prec emax (53 + e') - e') with 0.
    2:{ unfold fexp, emin, prec, emax in *. lia. }
    cbn [shr shr_m].
    exists p1, e'. split; [exact Hd1|]. split; [lia|]. reflexivity.
Qed.

Lemma integral_divide m e t : integral m e → 0 ≤ t → t ≤ - e ∨ t = 0 → (2 ^ t | Zpos m).
Proof.
  intros (_ & _ & Hdiv) Ht [Hte | ->]; [|exists (Zpos m); cbn; lia].
  destruct (Z.eq_dec t 0) as [-> | Hne]; [exists (Zpos m); cbn; lia|].
  destruct Hdiv as [q Hq]; [lia|].
  exists (q * 2 ^ (- e - t)). rewrite <- Z.mul_assoc, <- Z.pow_add_r by lia.
  replace (- e - t + t) with (- e) by lia. exact Hq.
Qed.

Lemma fmul_integral sx mx ex sy my ey :
  integral mx ex → integral my ey →
  whole (fmul (S754_finite sx mx ex) (S754_finite sy my ey)).
Proof.
  intros Hx Hy.
  pose proof (integral_bounds _ _ Hx) as [Bx Ex].
  pose proof (integral_bounds _ _ Hy) as [By Ey].
  unfold fmul, SFmul.
  set (P := (mx * my)%positive). set (E := ex + ey).
  assert (HP : 2 ^ 104 <= Zpos P < 2 ^ 106).
  { unfold P. rewrite Pos2Z.inj_mul.
    change (2 ^ 104) with (2 ^ 52 * 2 ^ 52). change (2 ^ 106) with (2 ^ 53 * 2 ^ 53).
    remember (2 ^ 52) as C. remember (2 ^ 53) as C'. assert (0 < C) by (subst; lia).
    assert (0 < C') by (subst; lia). clear HeqC HeqC'. nia. }
  set (D := Zpos (digits2_pos P)).
  assert (HD : D = 105 \/ D = 106).
  { destruct (Z.ltb_spec (Zpos P) (2 ^ 105)).
    - left. apply digits2_unique. change (105 - 1) with 104. lia.
    - right. apply digits2_unique. change (106 - 1) with 105. lia. }
  pose proof (digits2_bounds P) as HB. fold D in HB.
  destruct (Z.ltb_spec (E + (D - 53)) 0) as [Hneg | Hpos].
  - (* the product is below 2^53: it is exact *)
    assert (Hdiv : (2 ^ (- E) | Zpos P)).
    { set (t1 := Z.max 0 (Z.min (- ex) (- E))).
      destruct (integral_divide mx ex t1 Hx) as [a Ha]; [lia | lia |].
      destruct (integral_divide my ey (- E - t1) Hy) as [b Hb]; [lia | lia |].
      assert (Ht : 2 ^ (- E) = 2 ^ t1 * 2 ^ (- E - t1)).
      { rewrite <- Z.pow_add_r by lia. f_equal. lia. }
      exists (a * b). unfold P. rewrite Pos2Z.inj_mul, Ha, Hb, Ht. lia. }
    destruct Hdiv as [c Hc].
    assert (Hsplit : 2 ^ (- E) = 2 ^ (- E - (D - 53)) * 2 ^ (D - 53)).
    { rewrite <- Z.pow_add_r by lia. f_equal. lia. }
    assert (H2k : 0 < 2 ^ (D - 53)) by (apply Z.pow_pos_nonneg; lia).
    assert (H2r : 0 < 2 ^ (- E - (D - 53))) by (apply Z.pow_pos_nonneg; lia).
    assert (Hc0 : 0 < c) by nia.
    set (m := c * 2 ^ (- E - (D - 53))).
    assert (Hm : Zpos P = m * 2 ^ (D - 53)) by (unfold m; rewrite Hc, Hsplit; lia).
    assert (Hm0 : 0 < m) by (unfold m; nia).
    assert (Hmb : 2 ^ 52 <= m < 2 ^ 53).
    { split.
      - apply (Z.mul_le_mono_pos_r _ _ (2 ^ (D - 53))); [lia|]. rewrite <- Hm, <- Z.pow_add_r by lia.
        replace (52 + (D - 53)) with (D - 1) by lia. lia.
      - apply (Z.mul_lt_mono_pos_r (2 ^ (D - 53))); [lia|]. rewrite <- Hm, <- Z.pow_add_r by lia.
        replace (53 + (D - 53)) with D by lia. lia. }
    destruct m as [|pm|pm] eqn:Em; try lia.
    assert (Hdm : Zpos (digits2_pos pm) = prec) by (apply digits2_unique; exact Hmb).
    rewrite (binary_round_aux_exact _ pm (D - 53) E (Zpos P) Hdm); [| lia | | exact Hm].
    2:{ unfold emin, prec, emax. lia. }
    cbn [whole]. split; [exact Hdm|]. split; [unfold emax, prec; lia|].
    intros _. exists c. replace (- (E + (D - 53))) with (- E - (D - 53)) by lia.
    symmetry. exact Em.
  - destruct (binary_round_aux_shape (xorb sx sy) (Zpos P) E loc_Exact) as (m & e & Hdm & He & ->).
    + lia.
    + cbn [Zdigits2]. fold D. unfold prec. lia.
    + cbn [Zdigits2]. fold D. unfold emin, prec, emax. lia.
    + cbn [Zdigits2] in He. fold D in He. unfold prec in He.
      destruct (Z.leb_spec e (emax - prec)); cbn [whole]; [|exact I].
      split; [exact Hdm|]. split; [assumption|]. intros; lia.
Qed.

Lemma fmul_whole x y : whole x → integer_valued y → whole (fmul x y).
Proof.
  destruct y as [| | |sy my ey]; cbn [integer_valued]; try tauto.
  destruct x as [sx|sx| |sx mx ex]; cbn [whole]; intros Hx Hy; try exact I; try tauto.
  apply fmul_integral; assumption.
Qed.

Lemma binary_round_integral s p :
  whole (binary_round prec emax s p 0) ∧
  is_zero (binary_round prec emax s p 0) = false.
Proof.
  unfold binary_round, shl_align.
  set (d := Zpos (digits2_pos p)). rewrite Z.add_0_r.
  pose proof (digits2_bounds p) as HB. fold d in HB.
  assert (Hf : fexp prec emax d - 0 = d - 53) by (unfold fexp, emin, prec, emax; lia).
  rewrite Hf.
  destruct (d - 53) as [|k|k] eqn:Hk.
  - (* exactly 53 bits *)
    rewrite (binary_round_aux_exact s p 0 0 (Zpos p)); [| unfold prec; lia | lia | unfold emin, prec, emax; lia | lia].
    split; [|reflexivity]. cbn [whole]. split; [unfold prec; lia|]. split; [unfold emax, prec; lia|lia].
  - destruct (binary_round_aux_shape s (Zpos p) 0 loc_Exact) as (m & e & Hdm & He & ->).
    + lia.
    + cbn [Zdigits2]. fold d. unfold prec. lia.
    + cbn [Zdigits2]. fold d. unfold emin, prec, emax. lia.
    + cbn [Zdigits2] in He. fold d in He. unfold prec in He.
      destruct (Z.leb_spec e (emax - prec)); (split; [|reflexivity]); cbn [whole]; [|exact I].
      split; [exact Hdm|]. split; [assumption|]. intros; lia.
  - (* fewer than 53 bits: the mantissa is shifted left *)
    assert (Hq : Zpos (Pos.iter xO p k) = Zpos p * 2 ^ Zpos k) by apply iter_xO.
    assert (Hdq : Zpos (digits2_pos (Pos.iter xO p k)) = prec).
    { rewrite (digits2_shift p (Zpos k)) by (lia || exact Hq). fold d. unfold prec. lia. }
    rewrite (binary_round_aux_exact s (Pos.iter xO p k) 0 (fexp prec emax d) _ Hdq);
      [| lia | unfold fexp, emin, prec, emax; lia | lia].
    split; [|reflexivity]. cbn [whole]. split; [exact Hdq|].
    assert (Hfe : fexp prec emax d + 0 = - Zpos k) by (unfold fexp, emin, prec, emax; lia).
    rewrite Hfe. split; [unfold emax, prec; lia|].
    intros _. exists (Zpos p). rewrite Hq. f_equal.
Qed.

Lemma of_int_integer z f : of_int z = Some f → z ≠ 0 → integer_valued f.
Proof.
  unfold of_int, binary_normalize. intros H Hz.
  destruct z as [|p|p]; try lia.
  - destruct (binary_round_integral false p) as [Hw Hnz].
    destruct (binary_round prec emax false p 0) as [s| | |]; try discriminate; inversion H; subst;
      cbn in Hw, Hnz |- *; try discriminate; try tauto.
  - destruct (binary_round_integral true p) as [Hw Hnz].
    destruct (binary_round prec emax true p 0) as [s| | |]; try discriminate; inversion H; subst;
      cbn in Hw, Hnz |- *; try discriminate; try tauto.
Qed.

Lemma of_int_whole z f : of_int z = Some f → whole f.
Proof.
  intros H. destruct (Z.eq_dec z 0) as [-> | Hz].
  - inversion H. exact I.
  - pose proof (of_int_integer z f H Hz) as Hi. destruct f; cbn in *; tauto.
Qed.

(** Rounding keeps the sign. *)
Lemma binary_round_aux_sign s M E l s' m e :
  binary_round_aux prec emax s M E l = S754_finite s' m e → s' = s.
Proof.
  unfold binary_round_aux.
  destruct (shr_fexp prec emax M E l) as [mrs' e'].
  destruct (shr_fexp prec emax _ e' loc_Exact) as [mrs'' e''].
  destruct (shr_m mrs''); try discriminate.
  destruct (e'' <=? emax - prec); intros [= <- _ _]; reflexivity.
Qed.

(** An integer below [2^53] in magnitude converts exactly: no overflow. *)
Lemma binary_round_small s p :
  Zpos p < 2 ^ 53 →
  ∃ m e, binary_round prec emax s p 0 = S754_finite s m e.
Proof.
  intros Hp. unfold binary_round, shl_align.
  set (d := Zpos (digits2_pos p)). rewrite Z.add_0_r.
  pose proof (digits2_bounds p) as HB. fold d in HB.
  assert (Hd : d ≤ 53).
  { destruct (Z.leb_spec d 53); [assumption|]. exfalso.
    assert (2 ^ 53 ≤ 2 ^ (d - 1)) by (apply Z.pow_le_mono_r; lia). lia. }
  assert (Hf : fexp prec emax d - 0 = d - 53) by (unfold fexp, emin, prec, emax; lia).
  rewrite Hf.
  destruct (d - 53) as [|k|k] eqn:Hk; try lia.
  - rewrite (binary_round_aux_exact s p 0 0 (Zpos p));
      [eauto | unfold prec; lia | lia | unfold emin, prec, emax; lia | lia].
  - assert (Hq : Zpos (Pos.iter xO p k) = Zpos p * 2 ^ Zpos k) by apply iter_xO.
    assert (Hdq : Zpos (digits2_pos (Pos.iter xO p k)) = prec).
    { rewrite (digits2_shift p (Zpos k)) by (lia || exact Hq). fold d. unfold prec. lia. }
    rewrite (binary_round_aux_exact s (Pos.iter xO p k) 0 (fexp prec emax d) _ Hdq);
      [eauto | lia | unfold fexp, emin, prec, emax; lia | lia].
Qed.

Lemma of_int_small z : 0 < z < 2 ^ 53 →
  ∃ m e, of_int z = Some (S754_finite false m e).
Proof.
  intros Hz. destruct z as [|p|p]; try lia.
  unfold of_int, binary_normalize.
  destruct (binary_round_small false p) as (m & e & ->); [lia|]. eauto.
Qed.

(** The float of a positive integer is positive. *)
Lemma of_int_positive z f : 0 < z → of_int z = Some f →
  ∃ m e, f = S754_finite false m e.
Proof.
  intros Hz Hf. pose proof (of_int_integer z f Hf ltac:(lia)) as Hi.
  destruct f as [| | |s m e]; cbn [integer_valued] in Hi; try tauto.
  destruct z as [|p|p]; try lia.
  unfold of_int, binary_normalize, binary_round in Hf.
  destruct (shl_align p 0 _) as [mz ez].
  destruct (binary_round_aux prec emax false (Zpos mz) ez loc_Exact) eqn:Hr;
    try discriminate.
  injection Hf as -> -> ->.
  apply binary_round_aux_sign in Hr. subst. eauto.
Qed.

(** The quotient of a numerator below [2^60] by 100 is in range. *)
Lemma nearest_in_range s n :
  Zpos n < 2 ^ 60 → is_finite (nearest s n 100) = true.
Proof.
  intros Hn. unfold nearest, SFdiv, SFdiv_core_binary.
  set (dn := Zdigits2 (Zpos n)). change (Zdigits2 100) with 7.
  pose proof (digits2_bounds n) as HB. change (Zpos (digits2_pos n)) with dn in HB.
  assert (Hdn : 1 ≤ dn ≤ 60).
  { split; [unfold dn; cbn; lia|].
    destruct (Z.leb_spec dn 60); [assumption|]. exfalso.
    assert (2 ^ 60 ≤ 2 ^ (dn - 1)) by (apply Z.pow_le_mono_r; lia). lia. }
  replace (Z.min (fexp prec emax (dn + 0 - (7 + 0))) (0 - 0)) with (dn - 60)
    by (unfold fexp, emin, prec, emax; lia).
  replace (0 - 0 - (dn - 60)) with (60 - dn) by lia.
  assert (Hm' : match 60 - dn with
                | Zpos _ => Z.shiftl (Zpos n) (60 - dn)
                | Z0 => Zpos n
                | Zneg _ => 0
                end = Zpos n * 2 ^ (60 - dn)).
  { destruct (60 - dn) eqn:E; try lia.
    rewrite Z.shiftl_mul_pow2 by lia. reflexivity. }
  rewrite Hm'.
  assert (Hsz : 2 ^ 59 ≤ Zpos n * 2 ^ (60 - dn) < 2 ^ 60).
  { assert (0 < 2 ^ (60 - dn)) by (apply Z.pow_pos_nonneg; lia).
    replace (2 ^ 59) with (2 ^ (dn - 1) * 2 ^ (60 - dn))
      by (rewrite <- Z.pow_add_r by lia; f_equal; lia).
    replace (2 ^ 60) with (2 ^ dn * 2 ^ (60 - dn))
      by (rewrite <- Z.pow_add_r by lia; f_equal; lia).
    split; [apply Z.mul_le_mono_nonneg_r | apply Z.mul_lt_mono_pos_r]; lia. }
  remember (Zpos n * 2 ^ (60 - dn)) as N eqn:EN.
  pose proof (Z_div_mod_eq_full N 100) as Hdiv.
  pose proof (Z.mod_pos_bound N 100 ltac:(lia)) as Hmod.
  unfold Z.div, Z.modulo in Hdiv, Hmod.
  destruct (Z.div_eucl N 100) as [q r].
  change (2 ^ 59) with 576460752303423488 in Hsz.
  change (2 ^ 60) with 1152921504606846976 in Hsz.
  assert (Hq : 2 ^ 52 ≤ q < 2 ^ 54).
  { change (2 ^ 52) with 4503599627370496.
    change (2 ^ 54) with 18014398509481984. lia. }
  set (dq := Zdigits2 q).
  assert (Hdq : dq = 53 ∨ dq = 54).
  { destruct q as [|q|q]; try lia. unfold dq. cbn [Zdigits2].
    destruct (Z.ltb_spec (Zpos q) (2 ^ 53)).
    - left. apply digits2_unique. change (53 - 1) with 52. lia.
    - right. apply digits2_unique. change (54 - 1) with 53. lia. }
  destruct (binary_round_aux_shape (xorb s false) q (dn - 60) (new_location 100 r))
    as (m & e & _ & He & ->).
  - lia.
  - fold dq. unfold prec. lia.
  - fold dq. unfold emin, prec, emax. lia.
  - fold dq in He. unfold prec in He.
    destruct (Z.leb_spec e (emax - prec)) as [|Hbig]; [reflexivity|].
    unfold emax, prec in Hbig. lia.
Qed.

(** [round(x, 2)] of a finite float is finite: the conversion back from
    the decimal never overflows. *)
Lemma round2_finite x :
  valid_binary prec emax x = true → is_finite x = true →
  is_finite (round2 x) = true.
Proof.
  destruct x as [s|s| |s m e]; cbn [valid_binary is_finite round2];
    try discriminate; [reflexivity|].
  intros Hv _. unfold bounded, canonical_mantissa in Hv.
  apply andb_true_iff in Hv as [Hc He].
  apply Z.eqb_eq in Hc. apply Z.leb_le in He.
  pose proof (digits2_bounds m) as HB.
  destruct (Z.ltb_spec e 0) as [Hneg|Hpos].
  - (* below 2^53: at most 100 * 2^52 hundredths *)
    assert (Hd : Zpos (digits2_pos m) ≤ 53)
      by (unfold fexp, emin, prec, emax in Hc; lia).
    assert (Hm : Zpos m < 2 ^ 53).
    { apply Z.lt_le_trans with (1 := proj2 HB). apply Z.pow_le_mono_r; lia. }
    destruct e as [|e|e]; try lia. unfold cents, rne_div.
    assert (H2 : 2 ≤ 2 ^ Zpos e).
    { change 2 with (2 ^ 1) at 1. apply Z.pow_le_mono_r; lia. }
    pose proof (Z_div_mod_eq_full (Zpos m * 100) (2 ^ Zpos e)) as Hdiv.
    pose proof (Z.mod_pos_bound (Zpos m * 100) (2 ^ Zpos e) ltac:(lia)) as Hmod.
    assert (Hq : 0 ≤ Zpos m * 100 / 2 ^ Zpos e ≤ 50 * 2 ^ 53).
    { split; [apply Z.div_pos; lia|].
      apply Z.div_le_upper_bound; [lia|].
      change (2 ^ 53) with 9007199254740992 in *. nia. }
    set (q := Zpos m * 100 / 2 ^ Zpos e) in *.
    assert (Hn : ∀ n, 0 ≤ n ≤ q + 1 → is_finite (of_cents s n) = true).
    { intros [|n|n] Hn; try lia; cbn [of_cents is_finite]; try reflexivity.
      apply nearest_in_range.
      change (2 ^ 53) with 9007199254740992 in *.
      change (2 ^ 60) with 1152921504606846976. lia. }
    destruct (2 * ((Zpos m * 100) mod 2 ^ Zpos e) ?= 2 ^ Zpos e);
      try destruct (Z.even q); apply Hn; lia.
  - (* an integer: it rounds to itself *)
    assert (Hi : integral m e).
    { split; [unfold fexp, emin, prec, emax in *; lia|].
      split; [exact He | lia]. }
    change (of_cents s (cents m e)) with (round2 (S754_finite s m e)).
    rewrite (round2_integral s m e Hi). reflexivity.
Qed.

(** *** Rounding to two decimals twice

    [round(x, 2)] goes from the float to a decimal and back.  Below [2^46]
    the doubles are less than a hundredth apart and the hundredths are
    read back from the double; from [2^46] on they are more than a
    hundredth apart and the double is read back from the hundredths. *)

(** [rne_div] picks the nearest integer. *)
Lemma rne_div_unique a b c :
  0 < b → 2 * Z.abs (a - c * b) < b → rne_div a b = c.
Proof.
  intros Hb Hc. unfold rne_div.
  pose proof (Z_div_mod_eq_full a b) as Hdiv.
  pose proof (Z.mod_pos_bound a b Hb) as Hmod.
  set (q := a / b) in *. set (r := a mod b) in *.
  destruct (Z.le_gt_cases (c * b) a) as [Hle|Hgt].
  - assert (q = c) by nia. subst c.
    assert (2 * r < b) by lia.
    replace (2 * r ?= b) with Lt by (symmetry; apply Z.compare_lt_iff; lia).
    reflexivity.
  - assert (q = c - 1) by nia.
    assert (b < 2 * r) by nia.
    replace (2 * r ?= b) with Gt by (symmetry; apply Z.compare_gt_iff; lia).
    lia.
Qed.

(** It is at most half a unit away from the quotient. *)
Lemma rne_div_error a b :
  0 < b → 2 * Z.abs (a - rne_div a b * b) ≤ b.
Proof.
  intros Hb. unfold rne_div.
  pose proof (Z_div_mod_eq_full a b) as Hdiv.
  pose proof (Z.mod_pos_bound a b Hb) as Hmod.
  set (q := a / b) in *. set (r := a mod b) in *.
  destruct (Z.compare_spec (2 * r) b); try destruct (Z.even q); nia.
Qed.

(** The second half of [binary_round_aux]: a rounded mantissa is put
    back on 53 bits. *)
Lemma renormalize s m1 e' :
  2 ^ 52 ≤ m1 ≤ 2 ^ 53 → emin prec emax ≤ e' → e' + 1 ≤ emax - prec →
  (let '(mrs'', e'') := shr_fexp prec emax m1 e' loc_Exact in
   match shr_m mrs'' with
   | 0 => S754_zero s
   | Zpos m => if e'' <=? emax - prec then S754_finite s m e'' else S754_infinity s
   | Zneg _ => S754_nan
   end) = normal s m1 e'.
Proof.
  intros H1 Hlo Hhi. unfold normal, shr_fexp.
  destruct m1 as [|p1|p1]; try lia.
  cbn [Zdigits2 shr_record_of_loc].
  destruct (Z.eqb_spec (Zpos p1) (2 ^ 53)) as [Hc|Hc].
  - assert (Hp1 : p1 = (2 ^ 53)%positive) by (apply Pos2Z.inj; exact Hc).
    subst p1. change (Zpos (digits2_pos (2 ^ 53))) with 54.
    replace (fexp prec emax (54 + e') - e') with 1.
    2:{ unfold fexp, emin, prec, emax in *. lia. }
    cbn [shr SpecFloat.iter_pos shr_1 shr_m Pos.pow Pos.iter Pos.mul].
    destruct (Z.leb_spec (e' + 1) (emax - prec)); [reflexivity | lia].
  - assert (Hd1 : Zpos (digits2_pos p1) = 53) by (apply digits2_unique; change (53 - 1) with 52; lia).
    rewrite Hd1.
    replace (fexp prec emax (53 + e') - e') with 0.
    2:{ unfold fexp, emin, prec, emax in *. lia. }
    cbn [shr shr_m].
    destruct (Z.leb_spec e' (emax - prec)); [reflexivity | lia].
Qed.

(** [binary_round_aux] on a mantissa of 53 bits (no bit to drop) and of
    54 bits (one bit to drop). *)
Lemma binary_round_aux_53 s q E l :
  2 ^ 52 ≤ Zpos q < 2 ^ 53 → emin prec emax ≤ E → E + 1 ≤ emax - prec →
  binary_round_aux prec emax s (Zpos q) E l =
  normal s (round_nearest_even (Zpos q) l) E.
Proof.
  intros Hq Hlo Hhi.
  assert (Hd : Zpos (digits2_pos q) = 53) by (apply digits2_unique; change (53 - 1) with 52; lia).
  unfold binary_round_aux. unfold shr_fexp at 1. cbn [Zdigits2]. rewrite Hd.
  replace (fexp prec emax (53 + E) - E) with 0.
  2:{ unfold fexp, emin, prec, emax in *. lia. }
  cbn [shr]. rewrite shr_record_of_loc_m, loc_of_shr_record_of_loc.
  apply renormalize; try assumption.
  destruct (round_nearest_even_cases (Zpos q) l) as [-> | ->]; lia.
Qed.

Lemma binary_round_aux_54 s q E l :
  2 ^ 53 ≤ Zpos q < 2 ^ 54 → emin prec emax ≤ E + 1 → E + 2 ≤ emax - prec →
  binary_round_aux prec emax s (Zpos q) E l =
  normal s (round_nearest_even (Zpos q / 2)
              (loc_of_shr_record (shr_1 (shr_record_of_loc (Zpos q) l)))) (E + 1).
Proof.
  intros Hq Hlo Hhi.
  assert (Hd : Zpos (digits2_pos q) = 54) by (apply digits2_unique; change (54 - 1) with 53; lia).
  unfold binary_round_aux. unfold shr_fexp at 1. cbn [Zdigits2]. rewrite Hd.
  replace (fexp prec emax (54 + E) - E) with 1.
  2:{ unfold fexp, emin, prec, emax in *. lia. }
  cbn [shr SpecFloat.iter_pos].
  assert (Hm : shr_m (shr_1 (shr_record_of_loc (Zpos q) l)) = Zpos q / 2).
  { destruct l as [|[]]; cbn [shr_record_of_loc]; rewrite shr_1_spec by lia; reflexivity. }
  rewrite Hm.
  apply renormalize; [| assumption | lia].
  assert (2 ^ 52 ≤ Zpos q / 2 < 2 ^ 53).
  { split; [apply Z.div_le_lower_bound | apply Z.div_lt_upper_bound]; lia. }
  destruct (round_nearest_even_cases (Zpos q / 2)
              (loc_of_shr_record (shr_1 (shr_record_of_loc (Zpos q) l)))) as [-> | ->]; lia.
Qed.

(** The quotient [q] and the remainder [ρ] of a division by 100, rounded
    as [SFdiv] does, is [rne_div]; so it is when the last bit of [q] is
    dropped first. *)
Lemma round_quotient_100 q ρ :
  0 ≤ ρ < 100 →
  round_nearest_even q (new_location 100 ρ) = rne_div (100 * q + ρ) 100.
Proof.
  intros Hρ. unfold rne_div.
  assert (Hq : (100 * q + ρ) / 100 = q) by (symmetry; apply (Z.div_unique _ _ _ ρ); lia).
  assert (Hr : (100 * q + ρ) mod 100 = ρ) by (symmetry; apply (Z.mod_unique _ _ q); lia).
  rewrite Hq, Hr.
  change (new_location 100 ρ) with (new_location_even 100 ρ). unfold new_location_even.
  destruct (Z.eqb_spec ρ 0) as [-> | Hne]; [reflexivity|].
  cbn [round_nearest_even]. destruct (2 * ρ ?= 100); reflexivity.
Qed.

Lemma round_quotient_200 q ρ :
  0 ≤ q → 0 ≤ ρ < 100 →
  round_nearest_even (q / 2)
    (loc_of_shr_record (shr_1 (shr_record_of_loc q (new_location 100 ρ)))) =
  rne_div (100 * q + ρ) 200.
Proof.
  intros Hq0 Hρ. unfold rne_div.
  pose proof (Z.div_mod q 2 ltac:(lia)) as Hq2.
  pose proof (Zmod_odd q) as Hodd.
  assert (Hq : (100 * q + ρ) / 200 = q / 2).
  { symmetry. apply (Z.div_unique _ _ _ (100 * (q mod 2) + ρ)); [|lia].
    destruct (Z.odd q); lia. }
  assert (Hr : (100 * q + ρ) mod 200 = 100 * (q mod 2) + ρ).
  { symmetry. apply (Z.mod_unique _ _ (q / 2)); [|lia].
    destruct (Z.odd q); lia. }
  rewrite Hq, Hr.
  change (new_location 100 ρ) with (new_location_even 100 ρ). unfold new_location_even.
  destruct (Z.eqb_spec ρ 0) as [-> | Hne].
  - cbn [shr_record_of_loc]. rewrite shr_1_spec by lia. cbn [orb].
    destruct (Z.odd q); rewrite Hodd; cbn [loc_of_shr_record round_nearest_even]; reflexivity.
  - assert (Hrec : ∀ c, shr_1 (shr_record_of_loc q (loc_Inexact c)) =
                        Build_shr_record (q / 2) (Z.odd q) true).
    { intros []; cbn [shr_record_of_loc]; rewrite shr_1_spec by lia; reflexivity. }
    rewrite Hrec.
    destruct (Z.odd q); rewrite Hodd; cbn [loc_of_shr_record round_nearest_even].
    + replace (2 * (100 * 1 + ρ) ?= 200) with Gt; [reflexivity|].
      symmetry. apply Z.compare_gt_iff. lia.
    + replace (2 * (100 * 0 + ρ) ?= 200) with Lt; [reflexivity|].
      symmetry. apply Z.compare_lt_iff. lia.
Qed.

(** [nearest s n 100] for [n < 2^60], in integers: [n] is scaled to 60
    bits, so that the quotient by 100 has 53 or 54 bits, and the quotient
    is rounded to 53 bits. *)
Lemma nearest_small s n :
  Zpos n < 2 ^ 60 →
  let σ := 60 - Zpos (digits2_pos n) in
  let N := Zpos n * 2 ^ σ in
  0 ≤ σ ∧ 2 ^ 59 ≤ N < 2 ^ 60 ∧
  nearest s n 100 =
  if N <? 100 * 2 ^ 53 then normal s (rne_div N 100) (- σ)
  else normal s (rne_div N 200) (1 - σ).
Proof.
  intros Hn σ N.
  pose proof (digits2_bounds n) as HB.
  set (dn := Zpos (digits2_pos n)) in *.
  assert (Hdn : 1 ≤ dn ≤ 60).
  { split; [unfold dn; lia|]. destruct (Z.leb_spec dn 60); [assumption|exfalso].
    assert (2 ^ 60 ≤ 2 ^ (dn - 1)) by (apply Z.pow_le_mono_r; lia). lia. }
  assert (Hσ : 0 ≤ σ) by (unfold σ; lia).
  assert (HN : 2 ^ 59 ≤ N < 2 ^ 60).
  { assert (E59 : 2 ^ 59 = 2 ^ (dn - 1) * 2 ^ σ).
    { rewrite <- Z.pow_add_r by lia. f_equal. unfold σ. lia. }
    assert (E60 : 2 ^ 60 = 2 ^ dn * 2 ^ σ).
    { rewrite <- Z.pow_add_r by lia. f_equal. unfold σ. lia. }
    rewrite E59, E60. unfold N.
    assert (0 < 2 ^ σ) by (apply Z.pow_pos_nonneg; lia).
    split; [apply Z.mul_le_mono_nonneg_r | apply Z.mul_lt_mono_pos_r]; lia. }
  split; [assumption|]. split; [assumption|].
  unfold nearest, SFdiv, SFdiv_core_binary.
  change (Zdigits2 (Zpos n)) with dn. change (Zdigits2 100) with 7.
  replace (Z.min (fexp prec emax (dn + 0 - (7 + 0))) (0 - 0)) with (- σ).
  2:{ unfold σ, fexp, emin, prec, emax. lia. }
  replace (0 - 0 - - σ) with σ by lia.
  replace (match σ with Zpos _ => Z.shiftl (Zpos n) σ | Z0 => Zpos n | Zneg _ => 0 end) with N.
  2:{ unfold N. destruct σ as [|p|p] eqn:E; try lia.
      rewrite Z.shiftl_mul_pow2 by lia. reflexivity. }
  pose proof (Z.div_mod N 100 ltac:(lia)) as Hdm.
  pose proof (Z.mod_pos_bound N 100 ltac:(lia)) as Hmod.
  unfold Z.div, Z.modulo in Hdm, Hmod.
  destruct (Z.div_eucl N 100) as [q ρ]. cbn [fst snd] in Hdm, Hmod.
  replace (xorb s false) with s by (destruct s; reflexivity).
  assert (Hq : 2 ^ 52 ≤ q < 2 ^ 54) by lia.
  destruct q as [|q|q]; try lia.
  destruct (Z.ltb_spec N (100 * 2 ^ 53)) as [Hlt | Hge].
  - rewrite binary_round_aux_53 by (unfold emin, prec, emax, σ in *; lia).
    rewrite round_quotient_100 by lia. rewrite <- Hdm. reflexivity.
  - rewrite binary_round_aux_54 by (unfold emin, prec, emax, σ in *; lia).
    rewrite round_quotient_200 by lia. rewrite <- Hdm.
    f_equal. lia.
Qed.

Lemma normal_cases s m1 e1 :
  2 ^ 52 ≤ m1 ≤ 2 ^ 53 →
  ∃ m e, normal s m1 e1 = S754_finite s m e ∧ Zpos (digits2_pos m) = prec ∧
    (m1 = 2 ^ 53 ∧ Zpos m = 2 ^ 52 ∧ e = e1 + 1 ∨ m1 < 2 ^ 53 ∧ Zpos m = m1 ∧ e = e1).
Proof.
  intros H. unfold normal. destruct (Z.eqb_spec m1 (2 ^ 53)) as [-> | Hne].
  - exists (2 ^ 52)%positive, (e1 + 1). split; [reflexivity|]. split; [reflexivity|].
    left. repeat split; reflexivity.
  - destruct m1 as [|p|p]; try lia. exists p, e1. split; [reflexivity|].
    split; [apply digits2_unique; change (prec - 1) with 52; change prec with 53; lia|].
    right. split; [lia|]. split; reflexivity.
Qed.

Lemma rne_div_floor a b : 0 < b → a / b ≤ rne_div a b.
Proof.
  intros Hb. unfold rne_div.
  destruct (2 * (a mod b) ?= b); try destruct (Z.even (a / b)); lia.
Qed.

(** Between [2^46] and [2^53] the doubles are [2^e] apart with
    [-6 ≤ e ≤ -1], more than a hundredth: the double nearest to the
    hundredths nearest to a double is that double. *)
Lemma round2_large s m e :
  Zpos (digits2_pos m) = prec → -6 ≤ e ≤ -1 →
  round2 (S754_finite s m e) = S754_finite s m e.
Proof.
  intros Hd He. pose proof (digits2_bounds m) as HB. rewrite Hd in HB.
  change (prec - 1) with 52 in HB. change prec with 53 in HB.
  unfold round2, cents.
  destruct e as [|p|p]; try lia.
  set (b := 2 ^ Zpos p).
  assert (Hb : b = 2 ∨ b = 4 ∨ b = 8 ∨ b = 16 ∨ b = 32 ∨ b = 64).
  { assert (Hp : Zpos p = 1 ∨ Zpos p = 2 ∨ Zpos p = 3 ∨ Zpos p = 4 ∨ Zpos p = 5 ∨ Zpos p = 6) by lia.
    unfold b. destruct Hp as [-> | [-> | [-> | [-> | [-> | ->]]]]]; cbn; lia. }
  assert (Hσ : ∀ d, 2 ^ (d - 1) * b = 2 ^ 59 → 60 - d = Zpos p).
  { intros d Hd'. unfold b in Hd'.
    destruct (Z.le_gt_cases d 0) as [Hle | Hgt].
    - destruct (Z.eq_dec d 0) as [-> | Hne].
      + change (2 ^ (0 - 1)) with 0 in Hd'. lia.
      + rewrite (Z.pow_neg_r 2 (d - 1)) in Hd' by lia. lia.
    - rewrite <- Z.pow_add_r in Hd' by lia.
      apply (Z.pow_inj_r 2) in Hd'; lia. }
  pose proof (rne_div_error (Zpos m * 100) b ltac:(lia)) as Herr.
  pose proof (rne_div_floor (Zpos m * 100) b ltac:(lia)) as Hfl.
  assert (Hlow : 2 ^ 52 * 100 / b ≤ Zpos m * 100 / b) by (apply Z.div_le_mono; lia).
  assert (Hex : 2 ^ 52 * 100 / b * b = 2 ^ 52 * 100).
  { destruct Hb as [-> | [-> | [-> | [-> | [-> | ->]]]]]; reflexivity. }
  set (c := rne_div (Zpos m * 100) b) in *.
  assert (Hc : 2 ^ 52 * 100 ≤ c * b) by nia.
  destruct c as [|n|n] eqn:Ec; try lia.
  cbn [of_cents].
  assert (Hn : Zpos n < 2 ^ 60) by nia.
  destruct (nearest_small s n Hn) as (Hσ0 & HN & ->).
  set (dn := Zpos (digits2_pos n)) in *.
  pose proof (digits2_bounds n) as HBn. fold dn in HBn.
  set (σ := 60 - dn) in *.
  (* the numerator has [59 - p] or [60 - p] bits *)
  assert (Hnb : Zpos n * b < 100 * 2 ^ 53) by lia.
  assert (Hcase : σ = Zpos p ∨ σ = Zpos p + 1).
  { destruct (Z.le_gt_cases σ (Zpos p - 1)) as [Hle | Hgt].
    - exfalso.
      assert (2 ^ (σ + 1) ≤ 2 ^ Zpos p) by (apply Z.pow_le_mono_r; lia).
      rewrite Z.pow_add_r in * by lia. change (2 ^ 1) with 2 in *. fold b in H.
      assert (Zpos n * (2 ^ σ * 2) ≤ Zpos n * b) by (apply Z.mul_le_mono_nonneg_l; lia).
      lia.
    - destruct (Z.le_gt_cases (Zpos p + 2) σ) as [Hge | Hlt]; [exfalso | lia].
      assert (2 ^ (Zpos p + 2) ≤ 2 ^ σ) by (apply Z.pow_le_mono_r; lia).
      rewrite Z.pow_add_r in * by lia. change (2 ^ 2) with 4 in *. fold b in H.
      assert (Zpos n * (b * 4) ≤ Zpos n * 2 ^ σ) by (apply Z.mul_le_mono_nonneg_l; lia).
      lia. }
  assert (Hm53 : (Zpos m =? 2 ^ 53) = false) by (apply Z.eqb_neq; lia).
  destruct Hcase as [Hσp | Hσp]; rewrite Hσp in *.
  - fold b in HN |- *.
    destruct (Z.ltb_spec (Zpos n * b) (100 * 2 ^ 53)); [|lia].
    rewrite (rne_div_unique _ _ (Zpos m)) by lia.
    unfold normal. rewrite Hm53. reflexivity.
  - rewrite Z.pow_add_r in * by lia. change (2 ^ 1) with 2 in *. fold b in HN |- *.
    destruct (Z.ltb_spec (Zpos n * (b * 2)) (100 * 2 ^ 53)); [lia|].
    rewrite (rne_div_unique _ _ (Zpos m)) by lia.
    unfold normal. rewrite Hm53. f_equal. lia.
Qed.

(** Below [2^46] the doubles are less than a hundredth apart: the
    hundredths are recovered from their nearest double. *)
Lemma round2_close s n m e :
  e ≤ -7 → nearest s n 100 = S754_finite s m e →
  2 * Z.abs (Zpos m * 100 - Zpos n * 2 ^ (- e)) < 2 ^ (- e) →
  round2 (S754_finite s m e) = S754_finite s m e.
Proof.
  intros He Hn Herr. destruct e as [|p|p]; try lia.
  change (- Zneg p) with (Zpos p) in Herr.
  unfold round2, cents.
  rewrite (rne_div_unique _ _ (Zpos n)) by lia.
  exact Hn.
Qed.

(** The double nearest to [n] hundredths rounds to itself. *)
Lemma round2_nearest_small s n :
  Zpos n < 2 ^ 60 → round2 (nearest s n 100) = nearest s n 100.
Proof.
  intros Hn. destruct (nearest_small s n Hn) as (Hσ & HN & Heq).
  set (σ := 60 - Zpos (digits2_pos n)) in *.
  set (N := Zpos n * 2 ^ σ) in *.
  assert (Hσ60 : σ ≤ 59) by (unfold σ; lia).
  assert (H : ∃ m1 e1, nearest s n 100 = normal s m1 e1 ∧ 2 ^ 52 ≤ m1 ≤ 2 ^ 53 ∧
            -59 ≤ e1 ≤ 1 ∧
            (e1 ≤ 0 → 2 * Z.abs (m1 * 100 - Zpos n * 2 ^ (- e1)) ≤ 100)).
  { destruct (Z.ltb_spec N (100 * 2 ^ 53)) as [Hlt | Hge].
    - exists (rne_div N 100), (- σ). split; [exact Heq|].
      pose proof (rne_div_error N 100 ltac:(lia)) as Herr.
      split; [|split; [lia|]].
      + lia.
      + intros _. replace (- - σ) with σ by lia. fold N. lia.
    - exists (rne_div N 200), (1 - σ). split; [exact Heq|].
      pose proof (rne_div_error N 200 ltac:(lia)) as Herr.
      split; [|split; [lia|]].
      + lia.
      + intros He1. replace (- (1 - σ)) with (σ - 1) by lia.
        assert (N = Zpos n * 2 ^ (σ - 1) * 2).
        { unfold N. replace σ with ((σ - 1) + 1) at 1 by lia.
          rewrite Z.pow_add_r by lia. change (2 ^ 1) with 2. lia. }
        lia. }
  destruct H as (m1 & e1 & Hnm & Hm1 & He1 & Hacc).
  destruct (normal_cases s m1 e1 Hm1) as (m & e & Hnorm & Hd & Hcases).
  rewrite Hnm, Hnorm.
  destruct (Z.le_gt_cases 0 e) as [Hpos | Hneg].
  - apply round2_integral. split; [exact Hd|]. unfold emax, prec. split; lia.
  - destruct (Z.le_gt_cases (-6) e) as [Hbig | Hsmall].
    + apply round2_large; [exact Hd | lia].
    + apply (round2_close s n); [lia | congruence |].
      assert (H128 : 2 ^ 7 ≤ 2 ^ (- e)) by (apply Z.pow_le_mono_r; lia).
      change (2 ^ 7) with 128 in H128.
      destruct Hcases as [(-> & Hm & ->) | (_ & Hm & ->)]; rewrite Hm.
      * assert (E : 2 ^ (- e1) = 2 ^ (- (e1 + 1)) * 2).
        { replace (- e1) with (- (e1 + 1) + 1) at 1 by lia.
          rewrite Z.pow_add_r by lia. reflexivity. }
        specialize (Hacc ltac:(lia)). rewrite E in Hacc.
        change (2 ^ 53) with (2 ^ 52 * 2) in Hacc. lia.
      * specialize (Hacc ltac:(lia)). lia.
Qed.

Lemma round2_nearest_big s n :
  2 ^ 60 ≤ Zpos n → round2 (nearest s n 100) = nearest s n 100.
Proof.
  intros Hn. apply round2_whole.
  pose proof (digits2_bounds n) as HB.
  set (dn := Zpos (digits2_pos n)) in *.
  assert (Hdn : 61 ≤ dn).
  { destruct (Z.le_gt_cases 61 dn); [assumption|exfalso].
    assert (2 ^ dn ≤ 2 ^ 60) by (apply Z.pow_le_mono_r; lia). lia. }
  unfold nearest, SFdiv, SFdiv_core_binary.
  change (Zdigits2 (Zpos n)) with dn. change (Zdigits2 100) with 7.
  replace (Z.min (fexp prec emax (dn + 0 - (7 + 0))) (0 - 0)) with 0.
  2:{ unfold fexp, emin, prec, emax. lia. }
  change (0 - 0 - 0) with 0. cbv iota zeta.
  pose proof (Z.div_mod (Zpos n) 100 ltac:(lia)) as Hdm.
  pose proof (Z.mod_pos_bound (Zpos n) 100 ltac:(lia)) as Hmod.
  unfold Z.div, Z.modulo in Hdm, Hmod.
  destruct (Z.div_eucl (Zpos n) 100) as [q ρ]. cbn [fst snd] in Hdm, Hmod.
  assert (Hq : 2 ^ 53 ≤ q) by lia.
  destruct q as [|q|q]; try lia.
  pose proof (digits2_bounds q) as HBq.
  assert (HDq : 54 ≤ Zpos (digits2_pos q)).
  { destruct (Z.le_gt_cases 54 (Zpos (digits2_pos q))); [assumption|exfalso].
    assert (2 ^ Zpos (digits2_pos q) ≤ 2 ^ 53) by (apply Z.pow_le_mono_r; lia). lia. }
  destruct (binary_round_aux_shape (xorb s false) (Zpos q) 0 (new_location 100 ρ))
    as (m & e & Hd & He & ->); cbn [Zdigits2] in *; unfold emin, prec, emax in *; try lia.
  destruct (Z.leb_spec e (1024 - 53)); cbn [whole]; [|exact I].
  split; [exact Hd|]. unfold emax, prec. split; [lia|]. intros. lia.
Qed.

(** Rounding to two decimals is idempotent: what [round(x, 2)] returns is
    a float that [round(·, 2)] leaves as it is. *)
Lemma round2_of_cents s n : round2 (of_cents s n) = of_cents s n.
Proof.
  destruct n as [|n|n]; try reflexivity. cbn [of_cents].
  destruct (Z.lt_ge_cases (Zpos n) (2 ^ 60)).
  - apply round2_nearest_small; assumption.
  - apply round2_nearest_big; assumption.
Qed.

Lemma round2_idempotent x : round2 (round2 x) = round2 x.
Proof. destruct x; try reflexivity. apply round2_of_cents. Qed.

(** Python's [==] holds between a finite float and itself. *)
Lemma feqb_refl x : is_finite x = true → feqb x x = true.
Proof.
  destruct x as [s|s| |s m e]; try discriminate; intros _; [reflexivity|].
  unfold feqb, SFeqb, SFcompare.
  rewrite Z.compare_refl, Pos.compare_cont_refl. destruct s; reflexivity.
Qed.

(** A float that compares equal to a nonzero finite float is that float. *)
Lemma feqb_finite_eq y s m e :
  feqb y (S754_finite s m e) = true → y = S754_finite s m e.
Proof.
  destruct y as [s'|s'| |s' m' e']; unfold feqb, SFeqb, SFcompare;
    try (destruct s; discriminate); try (destruct s'; discriminate);
    try discriminate.
  destruct s', s; try discriminate; intros Hc.
  - destruct (Z.compare_spec e' e) as [->|?|?]; try discriminate.
    destruct (Pos.compare_cont Eq m' m) eqn:Hm; try discriminate.
    apply Pos.compare_eq in Hm. congruence.
  - destruct (Z.compare_spec e' e) as [->|?|?]; try discriminate.
    destruct (Pos.compare_cont Eq m' m) eqn:Hm; try discriminate.
    apply Pos.compare_eq in Hm. congruence.
Qed.

(** A finite sum has finite terms, and a finite [round(x, 2)] a finite
    [x]: an infinity or a nan, once there, stays. *)
Lemma fadd_finite_inv x y :
  is_finite (fadd x y) = true → is_finite x = true ∧ is_finite y = true.
Proof.
  destruct x as [sx|sx| |sx mx ex], y as [sy|sy| |sy my ey];
    try (intros _; split; reflexivity);
    try destruct sx; try destruct sy; cbn; intros H; try discriminate H.
Qed.

Lemma round2_finite_inv x : is_finite (round2 x) = true → is_finite x = true.
Proof. destruct x; cbn; auto. Qed.

Lemma fold_fadd_finite_inv (d : dict float) : ∀ acc,
  is_finite (fold_left (λ acc kv, fadd acc kv.2) d acc) = true →
  is_finite acc = true ∧ Forall (λ kv, is_finite kv.2 = true) d.
Proof.
  induction d as [|[k v] d IH]; intros acc; cbn [fold_left].
  - auto.
  - intros Hf. destruct (IH _ Hf) as [Ha Hd].
    apply fadd_finite_inv in Ha as [Ha Hv]. cbn [snd] in Hv. auto.
Qed.

Lemma sum_values_finite_inv d :
  is_finite (sum_values d) = true → Forall (λ kv, is_finite kv.2 = true) d.
Proof. intros Hf. exact (proj2 (fold_fadd_finite_inv d _ Hf)). Qed.

(** What [round(x, 2)] returns is held to two decimals, when finite. *)
Lemma round2_two_decimals x :
  is_finite (round2 x) = true → two_decimals (round2 x).
Proof.
  intros Hf. split; [exact Hf|]. rewrite round2_idempotent. apply feqb_refl, Hf.
Qed.

Lemma two_decimals_hundredths x :
  two_decimals x ↔ is_finite x = true ∧ ∃ s n, x = of_cents s n.
Proof.
  unfold two_decimals. split.
  - intros [Hf Hx]. split; [exact Hf|].
    destruct x as [s|s| |s m e]; try discriminate.
    + exists s, 0. reflexivity.
    + exists s, (cents m e). symmetry. apply feqb_finite_eq. exact Hx.
  - intros [Hf (s & n & ->)]. split; [exact Hf|].
    rewrite round2_of_cents. apply feqb_refl, Hf.
Qed.

(** ** Calendar dates

    The ordinal of a date grows with the date, so the sign of
    [(end - start).days] tells which of the two dates comes first. *)

Lemma days_before_year_succ y :
  days_before_year (y + 1) =
  days_before_year y + (if is_leap y then 366 else 365).
Proof.
  unfold days_before_year, is_leap.
  replace (y + 1 - 1) with y by lia.
  destruct (Z.eqb_spec (y mod 4) 0), (Z.eqb_spec (y mod 100) 0),
    (Z.eqb_spec (y mod 400) 0); cbn [andb orb negb];
    Z.div_mod_to_equations; lia.
Qed.

Lemma days_before_year_mono y1 y2 :
  y1 ≤ y2 → days_before_year y1 ≤ days_before_year y2.
Proof.
  unfold days_before_year. intros. Z.div_mod_to_equations. lia.
Qed.

Lemma month_cases m : 1 ≤ m ≤ 12 →
  m = 1 ∨ m = 2 ∨ m = 3 ∨ m = 4 ∨ m = 5 ∨ m = 6 ∨
  m = 7 ∨ m = 8 ∨ m = 9 ∨ m = 10 ∨ m = 11 ∨ m = 12.
Proof. lia. Qed.

Lemma days_before_month_next y m : 1 ≤ m ≤ 12 →
  days_before_month y m + days_in_month y m =
  if m =? 12 then (if is_leap y then 366 else 365)
  else days_before_month y (m + 1).
Proof.
  intros Hm. unfold days_before_month, days_in_month.
  destruct (month_cases m Hm) as [->|[->|[->|[->|[->|[->|[->|[->|[->|[->|[->| ->]]]]]]]]]]];
    destruct (is_leap y); reflexivity.
Qed.

Lemma days_before_month_mono y m1 m2 : 1 ≤ m1 → m1 ≤ m2 → m2 ≤ 12 →
  days_before_month y m1 ≤ days_before_month y m2.
Proof.
  intros H1 H12 H2. unfold days_before_month.
  destruct (month_cases m1 ltac:(lia)) as [->|[->|[->|[->|[->|[->|[->|[->|[->|[->|[->| ->]]]]]]]]]]];
    destruct (month_cases m2 ltac:(lia)) as [->|[->|[->|[->|[->|[->|[->|[->|[->|[->|[->| ->]]]]]]]]]]];
    try lia; destruct (is_leap y); vm_compute; discriminate.
Qed.

Lemma days_in_month_pos y m : 1 ≤ m ≤ 12 → 28 ≤ days_in_month y m ≤ 31.
Proof.
  intros Hm. unfold days_in_month.
  destruct (month_cases m Hm) as [->|[->|[->|[->|[->|[->|[->|[->|[->|[->|[->| ->]]]]]]]]]]];
    destruct (is_leap y); vm_compute; split; discriminate.
Qed.

Lemma days_before_month_nonneg y m : 1 ≤ m ≤ 12 → 0 ≤ days_before_month y m.
Proof.
  intros Hm. unfold days_before_month.
  destruct (month_cases m Hm) as [->|[->|[->|[->|[->|[->|[->|[->|[->|[->|[->| ->]]]]]]]]]]];
    destruct (is_leap y); vm_compute; discriminate.
Qed.

(** A date lies within its year. *)
Lemma toordinal_in_year d : valid d →
  days_before_year (year d) < toordinal d ≤ days_before_year (year d + 1).
Proof.
  intros (Hy & Hm & Hd). unfold toordinal, ymd2ord.
  pose proof (days_before_month_next (year d) (month d) Hm) as Hn.
  pose proof (days_before_month_nonneg (year d) (month d) Hm) as H1.
  rewrite days_before_year_succ.
  destruct (Z.eqb_spec (month d) 12) as [E|E].
  - lia.
  - pose proof (days_before_month_mono (year d) (month d + 1) 12 ltac:(lia) ltac:(lia) ltac:(lia)) as H2.
    pose proof (days_before_month_next (year d) 12 ltac:(lia)) as H3.
    pose proof (days_in_month_pos (year d) 12 ltac:(lia)).
    cbn [Z.eqb Pos.eqb] in H3. lia.
Qed.

Lemma toordinal_range d : valid d → 1 ≤ toordinal d ≤ 3652059.
Proof.
  intros Hv. pose proof (toordinal_in_year d Hv) as Ho.
  destruct Hv as ((Hy1 & Hy2) & _). unfold MINYEAR, MAXYEAR in *.
  pose proof (days_before_year_mono 1 (year d) Hy1) as H1.
  pose proof (days_before_year_mono (year d + 1) 10000 ltac:(lia)) as H2.
  change (days_before_year 1) with 0 in H1.
  change (days_before_year 10000) with 3652059 in H2. lia.
Qed.

Lemma toordinal_lt d1 d2 : valid d1 → valid d2 →
  lt d1 d2 → toordinal d1 < toordinal d2.
Proof.
  intros V1 V2 [Hy | (Hy & [Hm | (Hm & Hd)])].
  - pose proof (toordinal_in_year d1 V1). pose proof (toordinal_in_year d2 V2).
    pose proof (days_before_year_mono (year d1 + 1) (year d2) ltac:(lia)). lia.
  - destruct V1 as (_ & Hm1 & Hd1), V2 as (_ & Hm2 & Hd2).
    unfold toordinal, ymd2ord. rewrite <- Hy in *.
    pose proof (days_before_month_next (year d1) (month d1) Hm1) as Hn.
    destruct (Z.eqb_spec (month d1) 12); [lia|].
    pose proof (days_before_month_mono (year d1) (month d1 + 1) (month d2)
                  ltac:(lia) ltac:(lia) ltac:(lia)). lia.
  - unfold toordinal, ymd2ord. rewrite Hy, Hm. lia.
Qed.

Lemma date_trichotomy d1 d2 : lt d1 d2 ∨ d1 = d2 ∨ lt d2 d1.
Proof.
  destruct d1 as [y1 m1 a1], d2 as [y2 m2 a2]. unfold lt. cbn.
  destruct (Z.lt_trichotomy y1 y2) as [?|[->|?]]; [lia | | lia].
  destruct (Z.lt_trichotomy m1 m2) as [?|[->|?]]; [lia | | lia].
  destruct (Z.lt_trichotomy a1 a2) as [?|[->|?]]; [lia | | lia].
  right. left. reflexivity.
Qed.

(** The order of the dates is the order of their ordinals. *)
Lemma toordinal_lt_iff d1 d2 : valid d1 → valid d2 →
  (lt d1 d2 ↔ toordinal d1 < toordinal d2).
Proof.
  intros V1 V2. split; [apply toordinal_lt; assumption|].
  intros Ho. destruct (date_trichotomy d1 d2) as [?|[->|Hgt]]; [assumption|lia|].
  apply (toordinal_lt d2 d1 V2 V1) in Hgt. lia.
Qed.

(** ** Dictionaries *)

Lemma dict_get_app {V : Type} (k : string) (d1 d2 : dict V) :
  dict_get k (d1 ++ d2) =
  match dict_get k d1 with
  | Some v => Some v
  | None => dict_get k d2
  end.
Proof.
  induction d1 as [|[k' v'] d1 IH]; cbn [dict_get app]; [reflexivity|].
  destruct (String.eqb k k'); [reflexivity | exact IH].
Qed.

(** Assigning to a key that is not in the dictionary appends the item. *)
Lemma dict_set_fresh {V : Type} (k : string) (v : V) (d : dict V) :
  dict_get k d = None → dict_set k v d = d ++ [(k, v)].
Proof.
  induction d as [|[k' v'] d IH]; cbn [dict_get dict_set app]; [reflexivity|].
  destruct (String.eqb k k'); [discriminate|]. intros Hn. rewrite IH by exact Hn.
  reflexivity.
Qed.

Lemma dict_get_set_eq {V : Type} (k : string) (v : V) (d : dict V) :
  dict_get k (dict_set k v d) = Some v.
Proof.
  induction d as [|[k' v'] d IH]; cbn [dict_get dict_set].
  - rewrite String.eqb_refl. reflexivity.
  - destruct (String.eqb k k') eqn:E; cbn [dict_get].
    + rewrite String.eqb_refl. reflexivity.
    + rewrite E. exact IH.
Qed.

Lemma dict_get_set_ne {V : Type} (k k0 : string) (v : V) (d : dict V) :
  k0 ≠ k → dict_get k0 (dict_set k v d) = dict_get k0 d.
Proof.
  intros Hne. apply String.eqb_neq in Hne.
  induction d as [|[k' v'] d IH]; cbn [dict_get dict_set].
  - rewrite Hne. reflexivity.
  - destruct (String.eqb k k') eqn:E; cbn [dict_get].
    + apply String.eqb_eq in E. subst k'. rewrite Hne. reflexivity.
    + destruct (String.eqb k0 k'); [reflexivity | exact IH].
Qed.

Lemma dict_get_None {V : Type} (k : string) (d : dict V) :
  k ∉ keys d → dict_get k d = None.
Proof.
  induction d as [|[k' v'] d IH]; cbn [dict_get keys map fst]; [reflexivity|].
  intros Hn. destruct (String.eqb_spec k k') as [->|Hne].
  - exfalso. apply Hn. left.
  - apply IH. intros Hin. apply Hn. right. exact Hin.
Qed.

Lemma dict_get_Some_elem {V : Type} (k : string) (v : V) (d : dict V) :
  dict_get k d = Some v → (k, v) ∈ d.
Proof.
  induction d as [|[k' v'] d IH]; cbn [dict_get]; [discriminate|].
  destruct (String.eqb_spec k k') as [->|Hne].
  - intros [= ->]. left.
  - intros Hg. right. apply IH, Hg.
Qed.

Lemma sum_values_snoc (d : dict float) (k : string) (v : float) :
  sum_values (d ++ [(k, v)]) = fadd (sum_values d) v.
Proof. unfold sum_values. rewrite fold_left_app. reflexivity. Qed.

(** ** The pricing catalog *)

(** The catalog holds exactly the three rules of the specification. *)
Lemma EXTRA_PRICING_cases key r :
  dict_get key EXTRA_PRICING = Some r →
  (key = "skipper" ∧ r = {| type := "per_day"; amount := decimal 1500 1 |}) ∨
  (key = "fuel" ∧ r = {| type := "per_day"; amount := decimal 800 1 |}) ∨
  (key = "snorkel" ∧
   r = {| type := "per_person_per_day"; amount := decimal 200 1 |}).
Proof.
  unfold EXTRA_PRICING. cbn [dict_get].
  destruct (String.eqb_spec key "skipper") as [->|_]; [intros [= <-]; auto|].
  destruct (String.eqb_spec key "fuel") as [->|_]; [intros [= <-]; auto|].
  destruct (String.eqb_spec key "snorkel") as [->|_]; [intros [= <-]; auto 6|].
  discriminate.
Qed.

(** The unit amounts are whole numbers of dollars. *)
Lemma amount_integer key r :
  dict_get key EXTRA_PRICING = Some r → integer_valued (amount r).
Proof.
  intros Hr.
  destruct (EXTRA_PRICING_cases key r Hr) as [[_ ->]|[[_ ->]|[_ ->]]];
    vm_compute; (split; [reflexivity|]); (split; [discriminate|]); intros _.
  - exists 150. reflexivity.
  - exists 80. reflexivity.
  - exists 20. reflexivity.
Qed.

(** ** The cost of an extra *)

Lemma fmul_whole_l x y : integer_valued x → whole y → whole (fmul x y).
Proof.
  destruct x as [| | |sx mx ex]; cbn [integer_valued]; try tauto.
  destruct y as [sy|sy| |sy my ey]; cbn [whole]; intros Hx Hy; try exact I; try tauto.
  apply fmul_integral; assumption.
Qed.

Lemma mul_int_whole x n c :
  whole x → n ≠ 0 → mul_int x n = Ok c → whole c.
Proof.
  unfold mul_int. intros Hx Hn. destruct (of_int n) as [y|] eqn:Hy; [|discriminate].
  intros [= <-]. apply fmul_whole; [exact Hx|]. apply (of_int_integer n); assumption.
Qed.

Lemma mul_int_whole_l x n c :
  integer_valued x → mul_int x n = Ok c → whole c.
Proof.
  unfold mul_int. intros Hx. destruct (of_int n) as [y|] eqn:Hy; [|discriminate].
  intros [= <-]. apply fmul_whole_l; [exact Hx|]. apply (of_int_whole n), Hy.
Qed.

(** What [extra_cost] computes under each rule of the catalog. *)
Lemma extra_cost_catalog key r days guests :
  dict_get key EXTRA_PRICING = Some r →
  extra_cost r days guests =
    if String.eqb key "snorkel"
    then c ← mul_int (amount r) guests; mul_int c days
    else mul_int (amount r) days.
Proof.
  intros Hr.
  destruct (EXTRA_PRICING_cases key r Hr) as [[-> ->]|[[-> ->]|[-> ->]]];
    reflexivity.
Qed.

(** The cost of a catalog extra is a whole number of dollars (or an
    infinity): rounding it to two decimals does not change it. *)
Lemma extra_cost_whole key r days guests c :
  dict_get key EXTRA_PRICING = Some r → days ≠ 0 →
  extra_cost r days guests = Ok c → whole c.
Proof.
  intros Hr Hd. rewrite (extra_cost_catalog key r days guests Hr).
  pose proof (amount_integer key r Hr) as Ha.
  destruct (String.eqb key "snorkel").
  - destruct (mul_int (amount r) guests) as [c1|] eqn:H1; [|discriminate].
    cbn. intros H2. apply (mul_int_whole c1 days c); [|exact Hd|exact H2].
    apply (mul_int_whole_l (amount r) guests c1 Ha H1).
  - intros H1. apply (mul_int_whole (amount r) days c); [|exact Hd|exact H1].
    destruct (amount r); cbn in Ha |- *; tauto.
Qed.

Lemma extra_cost_round2 key r days guests c :
  dict_get key EXTRA_PRICING = Some r → days ≠ 0 →
  extra_cost r days guests = Ok c → round2 c = c.
Proof. intros. apply round2_whole. eapply extra_cost_whole; eassumption. Qed.

(** ** The loop over the extras *)

Lemma extras_loop_filter days guests items acc :
  extras_loop days guests items acc =
  extras_loop days guests (List.filter priced items) acc.
Proof.
  revert acc. induction items as [|[key enabled] rest IH]; intros acc; [reflexivity|].
  cbn [List.filter]. unfold priced at 1. cbn [fst snd extras_loop].
  destruct enabled; cbn [negb andb].
  - destruct (dict_get key EXTRA_PRICING) as [r|] eqn:Hr.
    + rewrite bool_decide_eq_true_2 by eauto.
      cbn [extras_loop negb]. rewrite Hr.
      destruct (extra_cost r days guests); cbn [mbind result_bind]; [apply IH | reflexivity].
    + rewrite bool_decide_eq_false_2; [apply IH|].
      intros [? ?]. discriminate.
  - apply IH.
Qed.

(** The loop leaves alone the keys it does not meet. *)
Lemma extras_loop_other days guests key items : ∀ acc res,
  key ∉ keys items →
  extras_loop days guests items acc = Ok res →
  dict_get key res.1 = dict_get key acc.1.
Proof.
  induction items as [|[k enabled] rest IH]; intros acc res Hk; cbn [extras_loop].
  - intros [= <-]. reflexivity.
  - assert (Hne : key ≠ k) by (intros ->; apply Hk; left).
    assert (Hrest : key ∉ keys rest) by (intros Hin; apply Hk; right; exact Hin).
    destruct (negb enabled); [apply IH, Hrest|].
    destruct (dict_get k EXTRA_PRICING) as [r|]; [|apply IH, Hrest].
    destruct (extra_cost r days guests) as [c|]; cbn [mbind result_bind]; [|discriminate].
    intros Hl. rewrite (IH _ _ Hrest Hl). cbn [fst].
    apply dict_get_set_ne, Hne.
Qed.

(** Each enabled extra of the catalog is recorded under its key, at its
    cost rounded to two decimals. *)
Lemma extras_loop_records days guests key r items : ∀ acc res,
  NoDup (keys items) → (key, true) ∈ items →
  dict_get key EXTRA_PRICING = Some r →
  extras_loop days guests items acc = Ok res →
  ∃ cost, extra_cost r days guests = Ok cost ∧
          dict_get key res.1 = Some (round2 cost).
Proof.
  induction items as [|[k enabled] rest IH]; intros acc res Hnd Hin Hr;
    [apply elem_of_nil in Hin; destruct Hin|].
  cbn [keys map fst] in Hnd. apply NoDup_cons in Hnd as [Hk Hnd].
  apply elem_of_cons in Hin as [[= <- <-]|Hin]; cbn [extras_loop].
  - cbn [negb]. rewrite Hr.
    destruct (extra_cost r days guests) as [c|]; cbn [mbind result_bind]; [|discriminate].
    intros Hl. exists c. split; [reflexivity|].
    rewrite (extras_loop_other days guests key rest _ _ Hk Hl). cbn [fst].
    apply dict_get_set_eq.
  - destruct (negb enabled); [apply IH; assumption|].
    destruct (dict_get k EXTRA_PRICING) as [r'|]; [|apply IH; assumption].
    destruct (extra_cost r' days guests) as [c|]; cbn [mbind result_bind]; [|discriminate].
    apply IH; assumption.
Qed.

(** The extras map holds nothing but the priced items of the request. *)
Lemma extras_loop_keys days guests key v items : ∀ acc res,
  extras_loop days guests items acc = Ok res →
  dict_get key res.1 = Some v →
  dict_get key acc.1 = Some v ∨
  ((key, true) ∈ items ∧ is_Some (dict_get key EXTRA_PRICING)).
Proof.
  induction items as [|[k enabled] rest IH]; intros acc res; cbn [extras_loop].
  - intros [= <-]. auto.
  - assert (Hweak : (dict_get key acc.1 = Some v ∨
              ((key, true) ∈ rest ∧ is_Some (dict_get key EXTRA_PRICING))) →
            dict_get key acc.1 = Some v ∨
            ((key, true) ∈ (k, enabled) :: rest ∧
             is_Some (dict_get key EXTRA_PRICING))).
    { intros [?|[? ?]]; [left; assumption | right; split; [right|]; assumption]. }
    destruct enabled; cbn [negb]; [|intros; apply Hweak; eapply IH; eassumption].
    destruct (dict_get k EXTRA_PRICING) as [r|] eqn:Hr;
      [|intros; apply Hweak; eapply IH; eassumption].
    destruct (extra_cost r days guests) as [c|]; cbn [mbind result_bind]; [|discriminate].
    intros Hl Hg. destruct (IH _ _ Hl Hg) as [Hacc|[Hin Hsome]].
    + cbn [fst] in Hacc. destruct (String.eqb_spec key k) as [->|Hne].
      * right. split; [left | rewrite Hr; eauto].
      * left. rewrite dict_get_set_ne in Hacc by exact Hne. exact Hacc.
    + right. split; [right|]; assumption.
Qed.

(** The running total is the sum of the amounts stored in the extras map:
    the loop adds the unrounded cost, which its rounding leaves as it is. *)
Lemma extras_loop_total days guests items : ∀ acc res,
  days ≠ 0 → NoDup (keys items) →
  (∀ k, k ∈ keys items → dict_get k acc.1 = None) →
  acc.2 = sum_values acc.1 →
  extras_loop days guests items acc = Ok res →
  res.2 = sum_values res.1.
Proof.
  induction items as [|[k enabled] rest IH]; intros acc res Hd Hnd Hfresh Hacc;
    cbn [extras_loop].
  - intros [= <-]. exact Hacc.
  - cbn [keys map fst] in Hnd, Hfresh. apply NoDup_cons in Hnd as [Hk Hnd].
    assert (Hfresh' : ∀ k', k' ∈ keys rest → dict_get k' acc.1 = None).
    { intros k' Hin. apply Hfresh. right. exact Hin. }
    destruct (negb enabled); [apply IH; assumption|].
    destruct (dict_get k EXTRA_PRICING) as [r|] eqn:Hr; [|apply IH; assumption].
    destruct (extra_cost r days guests) as [c|] eqn:Hc; cbn [mbind result_bind]; [|discriminate].
    apply IH; try assumption; cbn [fst snd].
    + intros k' Hin. rewrite dict_get_set_ne; [apply Hfresh', Hin|].
      intros ->. apply Hk, Hin.
    + rewrite dict_set_fresh by (apply Hfresh; left).
      rewrite sum_values_snoc, Hacc.
      rewrite (extra_cost_round2 k r days guests c Hr Hd Hc). reflexivity.
Qed.

Lemma dict_set_Forall {V : Type} (P : string * V → Prop) k v (d : dict V) :
  Forall P d → P (k, v) → Forall P (dict_set k v d).
Proof.
  intros Hd Hkv. induction Hd as [|[k' v'] d Hx Hd IH]; cbn [dict_set].
  - constructor; [exact Hkv | constructor].
  - destruct (String.eqb k k'); constructor; assumption.
Qed.

(** Every amount of the extras map comes out of [round(., 2)], which
    gives it back. *)
Lemma extras_loop_rounded days guests items : ∀ acc res,
  Forall (λ kv, round2 kv.2 = kv.2) acc.1 →
  extras_loop days guests items acc = Ok res →
  Forall (λ kv, round2 kv.2 = kv.2) res.1.
Proof.
  induction items as [|[k enabled] rest IH]; intros acc res Hacc; cbn [extras_loop].
  - intros [= <-]. exact Hacc.
  - destruct (negb enabled); [apply IH, Hacc|].
    destruct (dict_get k EXTRA_PRICING) as [r|]; [|apply IH, Hacc].
    destruct (extra_cost r days guests) as [c|]; cbn [mbind result_bind]; [|discriminate].
    apply IH. cbn [fst]. apply dict_set_Forall; [exact Hacc|].
    apply round2_idempotent.
Qed.

(** Every amount of the extras map is the rounded cost of its key under
    the rule of the catalog. *)
Lemma extras_loop_costs days guests key v items : ∀ acc res,
  extras_loop days guests items acc = Ok res →
  dict_get key res.1 = Some v →
  dict_get key acc.1 = Some v ∨
  ∃ r cost, dict_get key EXTRA_PRICING = Some r ∧
            extra_cost r days guests = Ok cost ∧ v = round2 cost.
Proof.
  induction items as [|[k enabled] rest IH]; intros acc res; cbn [extras_loop].
  - intros [= <-]. auto.
  - destruct (negb enabled); [apply IH|].
    destruct (dict_get k EXTRA_PRICING) as [r|] eqn:Hr; [|apply IH].
    destruct (extra_cost r days guests) as [c|] eqn:Hc; cbn [mbind result_bind];
      [|discriminate].
    intros Hl Hg. destruct (IH _ _ Hl Hg) as [Hacc|Hex]; [|right; exact Hex].
    cbn [fst] in Hacc. destruct (String.eqb_spec key k) as [->|Hne].
    + rewrite dict_get_set_eq in Hacc. injection Hacc as <-.
      right. exists r, c. auto.
    + left. rewrite dict_get_set_ne in Hacc by exact Hne. exact Hacc.
Qed.

(** The arithmetic raises no HTTP error. *)
Lemma mul_int_not_http x n code detail :
  mul_int x n ≠ Raise (HTTPException code detail).
Proof. unfold mul_int. destruct (of_int n); discriminate. Qed.

Lemma extra_cost_not_http r days guests code detail :
  extra_cost r days guests ≠ Raise (HTTPException code detail).
Proof.
  unfold extra_cost.
  destruct (String.eqb (type r) "per_day"); [apply mul_int_not_http|].
  destruct (String.eqb (type r) "per_person_per_day"); [|discriminate].
  destruct (mul_int (amount r) guests) as [c|e] eqn:E; cbn [mbind result_bind].
  - apply mul_int_not_http.
  - intros [= ->]. exact (mul_int_not_http _ _ _ _ E).
Qed.

Lemma extras_loop_not_http days guests code detail items : ∀ acc,
  extras_loop days guests items acc ≠ Raise (HTTPException code detail).
Proof.
  induction items as [|[k enabled] rest IH]; intros acc; cbn [extras_loop];
    [discriminate|].
  destruct (negb enabled); [apply IH|].
  destruct (dict_get k EXTRA_PRICING) as [r|]; [|apply IH].
  destruct (extra_cost r days guests) as [c|e] eqn:E; cbn [mbind result_bind].
  - apply IH.
  - intros [= ->]. exact (extra_cost_not_http _ _ _ _ _ E).
Qed.

(** The loop returns whenever the days and the guests convert to
    floats. *)
Lemma extras_loop_returns days guests d g items : ∀ acc,
  of_int days = Some d → of_int guests = Some g →
  ∃ res, extras_loop days guests items acc = Ok res.
Proof.
  intros acc Hd Hg. revert acc.
  induction items as [|[k enabled] rest IH]; intros acc; cbn [extras_loop];
    [eauto|].
  destruct (negb enabled); [apply IH|].
  destruct (dict_get k EXTRA_PRICING) as [r|]; [|apply IH].
  assert (Hc : ∃ c, extra_cost r days guests = Ok c).
  { unfold extra_cost, mul_int.
    destruct (String.eqb (type r) "per_day");
      [eexists; rewrite Hd; reflexivity|].
    destruct (String.eqb (type r) "per_person_per_day");
      [|eexists; reflexivity].
    eexists. rewrite Hg. cbn [mbind result_bind]. rewrite Hd. reflexivity. }
  destruct Hc as [c ->]. cbn [mbind result_bind]. apply IH.
Qed.

(** ** [compute_quote] *)

Section Quote.

Context {oid : Type}.
Variable float_of_string : string → option float.

Abbreviation rate_card boat key default :=
  (py_float float_of_string (get boat key default)).

(** What a successful run of [compute_quote] went through. *)
Lemma compute_quote_locals_Ok (boat : dict (pyval oid)) start end_ guests
    selection bd extras_total subtotal :
  compute_quote_locals float_of_string boat start end_ guests selection
    = Ok (bd, (extras_total, subtotal)) →
  let days := sub_days end_ start in
  ∃ base_daily cleaning tax_rate base_cost,
    1 ≤ days ∧
    rate_card boat "base_price_per_day" (VInt 0) = Ok base_daily ∧
    rate_card boat "cleaning_fee" (VFloat (S754_zero false)) = Ok cleaning ∧
    rate_card boat "tax_rate" (VFloat (S754_zero false)) = Ok tax_rate ∧
    mul_int base_daily days = Ok base_cost ∧
    extras_loop days guests selection ([], S754_zero false)
      = Ok (extras bd, extras_total) ∧
    subtotal = fadd (fadd (round2 base_cost) extras_total) (round2 cleaning) ∧
    nights bd = days ∧
    base bd = round2 base_cost ∧
    cleaning_fee bd = round2 cleaning ∧
    tax bd = round2 (fmul subtotal tax_rate) ∧
    total bd = round2 (fadd subtotal (tax bd)).
Proof.
  intros Hq days. unfold compute_quote_locals, date_range_days in Hq.
  fold days in Hq.
  destruct (Z.ltb_spec days 1) as [|Hd]; [discriminate|].
  cbn [mbind result_bind] in Hq.
  destruct (rate_card boat "base_price_per_day" (VInt 0)) as [base_daily|] eqn:E1; [|discriminate].
  cbn [mbind result_bind] in Hq.
  destruct (rate_card boat "cleaning_fee" (VFloat (S754_zero false))) as [cleaning|] eqn:E2; [|discriminate].
  cbn [mbind result_bind] in Hq.
  destruct (rate_card boat "tax_rate" (VFloat (S754_zero false))) as [tax_rate|] eqn:E3; [|discriminate].
  cbn [mbind result_bind] in Hq.
  destruct (mul_int base_daily days) as [base_cost|] eqn:E4; [|discriminate].
  cbn [mbind result_bind] in Hq.
  destruct (extras_loop days guests selection ([], S754_zero false)) as [[emap etot]|] eqn:E5;
    [|discriminate].
  cbn [mbind result_bind] in Hq. injection Hq as <- <- <-.
  exists base_daily, cleaning, tax_rate, base_cost. cbn.
  repeat split; try reflexivity; assumption.
Qed.

Lemma compute_quote_Ok (boat : dict (pyval oid)) start end_ guests selection bd :
  compute_quote float_of_string boat start end_ guests selection = Ok bd →
  ∃ extras_total subtotal,
    compute_quote_locals float_of_string boat start end_ guests selection
      = Ok (bd, (extras_total, subtotal)).
Proof.
  unfold compute_quote.
  destruct (compute_quote_locals float_of_string boat start end_ guests selection)
    as [[bd' [et st]]|]; cbn [fmap result_fmap fst]; [|discriminate].
  intros [= <-]. eauto.
Qed.

(** The running total of the loop is the sum of the extras map. *)
Lemma quote_extras_total (boat : dict (pyval oid)) start end_ guests
    selection bd extras_total subtotal :
  well_formed selection →
  compute_quote_locals float_of_string boat start end_ guests selection
    = Ok (bd, (extras_total, subtotal)) →
  extras_total = sum_values (extras bd) ∧ subtotal = subtotal_of bd.
Proof.
  intros Hwf Hq.
  pose proof (compute_quote_locals_Ok _ _ _ _ _ _ _ _ Hq) as H0. cbv zeta in H0.
  destruct H0
    as (bdaily & cl & rate & bcost & Hd & _ & _ & _ & _ & Hl & Hs & _ & Hb & Hc & _).
  assert (Hne : sub_days end_ start ≠ 0) by lia.
  assert (Het : extras_total = sum_values (extras bd)).
  { apply (extras_loop_total _ _ _ _ _ Hne Hwf) in Hl; [exact Hl | | reflexivity].
    intros; reflexivity. }
  split; [exact Het|]. unfold subtotal_of. rewrite Hb, Hc, <- Het. exact Hs.
Qed.

(** C1 (as amended).  For a breakdown that [compute_quote] returns with a
    finite total, and subtotal = base + sum(extras map values) +
    cleaning_fee: tax == round(subtotal * tax_rate, 2) and
    total == round(subtotal + tax, 2) hold with Python's [==], and base,
    every amount of the extras map, cleaning_fee, tax and total are each
    finite and rounded to two decimals: [round(v, 2) == v].  (A total that
    has overflowed is nan or an infinity, and nan equals nothing: see
    [overflowed_total_equals_nothing].) *)
Theorem quote_invariant (boat : dict (pyval oid)) start end_ guests selection bd :
  well_formed selection →
  compute_quote float_of_string boat start end_ guests selection = Ok bd →
  is_finite (total bd) = true →
  (∃ tax_rate,
     rate_card boat "tax_rate" (VFloat (S754_zero false)) = Ok tax_rate ∧
     feqb (tax bd) (round2 (fmul (subtotal_of bd) tax_rate)) = true) ∧
  feqb (total bd) (round2 (fadd (subtotal_of bd) (tax bd))) = true ∧
  two_decimals (base bd) ∧
  Forall (λ kv, two_decimals kv.2) (extras bd) ∧
  two_decimals (cleaning_fee bd) ∧
  two_decimals (tax bd) ∧
  two_decimals (total bd).
Proof.
  intros Hwf Hq Hfin. destruct (compute_quote_Ok _ _ _ _ _ _ Hq) as (et & sub & Hl).
  destruct (quote_extras_total _ _ _ _ _ _ _ _ Hwf Hl) as [_ ->].
  pose proof (compute_quote_locals_Ok _ _ _ _ _ _ _ _ Hl) as H0. cbv zeta in H0.
  destruct H0
    as (bdaily & cl & rate & bcost & _ & _ & _ & Hr & _ & Hloop & _ & _ & Hb & Hc & Ht & Htot).
  (* a finite total has finite parts *)
  assert (Fsum : is_finite (fadd (subtotal_of bd) (tax bd)) = true)
    by (apply round2_finite_inv; rewrite <- Htot; exact Hfin).
  destruct (fadd_finite_inv _ _ Fsum) as [Fsub Ftax].
  destruct (fadd_finite_inv _ _ Fsub) as [Fbe Fclean].
  destruct (fadd_finite_inv _ _ Fbe) as [Fbase Fextras].
  apply sum_values_finite_inv in Fextras.
  (* each is what [round(., 2)] returned *)
  assert (Rt : two_decimals (tax bd)) by (rewrite Ht in *; apply round2_two_decimals, Ftax).
  assert (Rb : two_decimals (base bd)) by (rewrite Hb in *; apply round2_two_decimals, Fbase).
  assert (Rc : two_decimals (cleaning_fee bd))
    by (rewrite Hc in *; apply round2_two_decimals, Fclean).
  assert (Rtot : two_decimals (total bd)).
  { rewrite Htot in Hfin. rewrite Htot. apply round2_two_decimals, Hfin. }
  assert (Re : Forall (λ kv, two_decimals kv.2) (extras bd)).
  { pose proof (extras_loop_rounded (sub_days end_ start) guests selection
                  ([], S754_zero false) (extras bd, et) ltac:(constructor) Hloop) as Hrd.
    cbn [fst] in Hrd. rewrite Forall_forall in *. intros kv Hkv.
    split; [exact (Fextras kv Hkv)|].
    rewrite (Hrd kv Hkv). apply feqb_refl, (Fextras kv Hkv). }
  split.
  { exists rate. split; [exact Hr|]. rewrite <- Ht. apply feqb_refl, Ftax. }
  split; [rewrite <- Htot; apply feqb_refl, Hfin|].
  auto.
Qed.

(** C2.  The subtotal that tax and total are computed from is the sum of
    the rounded components of the breakdown: the rounded base, plus the
    rounded amounts stored in the extras map, plus the rounded cleaning
    fee. *)
Theorem subtotal_from_rounded_components (boat : dict (pyval oid)) start end_
    guests selection bd extras_total subtotal :
  well_formed selection →
  compute_quote_locals float_of_string boat start end_ guests selection
    = Ok (bd, (extras_total, subtotal)) →
  (∃ base_daily base_cost,
     rate_card boat "base_price_per_day" (VInt 0) = Ok base_daily ∧
     mul_int base_daily (sub_days end_ start) = Ok base_cost ∧
     base bd = round2 base_cost) ∧
  (∀ key v, dict_get key (extras bd) = Some v →
     ∃ r cost, dict_get key EXTRA_PRICING = Some r ∧
       extra_cost r (sub_days end_ start) guests = Ok cost ∧ v = round2 cost) ∧
  (∃ fee, rate_card boat "cleaning_fee" (VFloat (S754_zero false)) = Ok fee ∧
     cleaning_fee bd = round2 fee) ∧
  subtotal =
    fadd (fadd (base bd) (sum_values (extras bd))) (cleaning_fee bd) ∧
  (∃ tax_rate,
     rate_card boat "tax_rate" (VFloat (S754_zero false)) = Ok tax_rate ∧
     tax bd = round2 (fmul subtotal tax_rate)) ∧
  total bd = round2 (fadd subtotal (tax bd)).
Proof.
  intros Hwf Hq.
  destruct (quote_extras_total _ _ _ _ _ _ _ _ Hwf Hq) as [_ Hs].
  pose proof (compute_quote_locals_Ok _ _ _ _ _ _ _ _ Hq) as H0. cbv zeta in H0.
  destruct H0 as (bdaily & cl & rate & bcost & _ & Hbd & Hcl & Hr & Hm & Hloop
                  & _ & _ & Hb & Hc & Ht & Htot).
  split; [exists bdaily, bcost; auto|].
  split.
  { intros key v Hg.
    destruct (extras_loop_costs _ _ key v _ _ _ Hloop Hg) as [Hnil|Hex];
      [discriminate | exact Hex]. }
  split; [exists cl; auto|].
  split; [exact Hs|].
  split; [exists rate; auto | exact Htot].
Qed.

Lemma py_float_not_http (v : pyval oid) code detail :
  py_float float_of_string v ≠ Raise (HTTPException code detail).
Proof. unfold py_float. repeat case_match; discriminate. Qed.

(** The only HTTP error of [compute_quote] is the one of the dates. *)
Lemma compute_quote_locals_http (boat : dict (pyval oid)) start end_ guests
    selection code detail :
  compute_quote_locals float_of_string boat start end_ guests selection
    = Raise (HTTPException code detail) →
  sub_days end_ start < 1.
Proof.
  unfold compute_quote_locals, date_range_days.
  destruct (Z.ltb_spec (sub_days end_ start) 1) as [|Hge]; [intros; assumption|].
  cbn [mbind result_bind]. intros Hq. exfalso. revert Hq.
  destruct (rate_card boat "base_price_per_day" (VInt 0)) as [x|e] eqn:E1;
    cbn [mbind result_bind];
    [|intros [= ->]; exact (py_float_not_http _ _ _ E1)].
  destruct (rate_card boat "cleaning_fee" (VFloat (S754_zero false))) as [y|e] eqn:E2;
    cbn [mbind result_bind];
    [|intros [= ->]; exact (py_float_not_http _ _ _ E2)].
  destruct (rate_card boat "tax_rate" (VFloat (S754_zero false))) as [z|e] eqn:E3;
    cbn [mbind result_bind];
    [|intros [= ->]; exact (py_float_not_http _ _ _ E3)].
  destruct (mul_int x (sub_days end_ start)) as [bc|e] eqn:E4;
    cbn [mbind result_bind];
    [|intros [= ->]; exact (mul_int_not_http _ _ _ _ E4)].
  destruct (extras_loop _ _ _ _) as [[em et]|e] eqn:E5;
    cbn [mbind result_bind]; [discriminate|].
  intros [= ->]. exact (extras_loop_not_http _ _ _ _ _ _ E5).
Qed.

(** Dates less than a day apart stop [compute_quote] at once. *)
Lemma compute_quote_locals_date_range (boat : dict (pyval oid)) start end_
    guests selection :
  sub_days end_ start < 1 →
  compute_quote_locals float_of_string boat start end_ guests selection
    = Raise InvalidDateRange.
Proof.
  intros Hd. unfold compute_quote_locals, date_range_days.
  destruct (Z.ltb_spec (sub_days end_ start) 1); [reflexivity | lia].
Qed.

Lemma compute_quote_date_range (boat : dict (pyval oid)) start end_ guests
    selection :
  sub_days end_ start < 1 →
  compute_quote float_of_string boat start end_ guests selection
    = Raise InvalidDateRange.
Proof.
  intros Hd. unfold compute_quote.
  rewrite (compute_quote_locals_date_range _ _ _ _ _ Hd). reflexivity.
Qed.

(** C3.  [compute_quote] raises the invalid-date-range error exactly when
    the dates are less than one day apart, so when the end date is the
    start date or comes before it; otherwise the number of nights is the
    difference of the dates in days. *)
Theorem invalid_date_range (boat : dict (pyval oid)) start end_ guests selection :
  (compute_quote float_of_string boat start end_ guests selection
     = Raise InvalidDateRange ↔ sub_days end_ start < 1) ∧
  (sub_days end_ start < 1 →
     compute_quote_locals float_of_string boat start end_ guests selection
       = Raise InvalidDateRange) ∧
  (valid start → valid end_ →
     (end_ = start ∨ lt end_ start ↔ sub_days end_ start < 1)) ∧
  (1 ≤ sub_days end_ start →
     date_range_days start end_ = Ok (sub_days end_ start) ∧
     ∀ bd, compute_quote float_of_string boat start end_ guests selection = Ok bd →
           nights bd = sub_days end_ start).
Proof.
  split; [split|split; [apply compute_quote_locals_date_range|split]].
  - unfold compute_quote.
    destruct (compute_quote_locals float_of_string boat start end_ guests selection)
      as [r|e] eqn:Hq; cbn [fmap result_fmap]; [discriminate|].
    intros [= ->]. exact (compute_quote_locals_http _ _ _ _ _ _ _ Hq).
  - apply compute_quote_date_range.
  - intros V1 V2. unfold sub_days.
    pose proof (toordinal_lt_iff end_ start V2 V1) as Hiff.
    pose proof (toordinal_lt_iff start end_ V1 V2) as Hiff'.
    split.
    + intros [-> | Hl]; [lia | apply Hiff in Hl; lia].
    + intros Ho. destruct (date_trichotomy end_ start) as [?|[?|Hgt]]; [auto|auto|].
      apply Hiff' in Hgt. lia.
  - intros Hd. split.
    + unfold date_range_days. destruct (Z.ltb_spec (sub_days end_ start) 1); [lia|reflexivity].
    + intros bd Hq. destruct (compute_quote_Ok _ _ _ _ _ _ Hq) as (et & sub & Hl).
      pose proof (compute_quote_locals_Ok _ _ _ _ _ _ _ _ Hl) as H0. cbv zeta in H0.
      destruct H0 as (? & ? & ? & ? & _ & _ & _ & _ & _ & _ & _ & Hn & _). exact Hn.
Qed.

(** [compute_quote] returns a breakdown when the dates are a day apart or
    more, the three rate fields convert to floats, and so do the number of
    days and the number of guests. *)
Lemma compute_quote_returns (boat : dict (pyval oid)) start end_ guests
    selection base_daily fee tax_rate d g :
  1 ≤ sub_days end_ start →
  rate_card boat "base_price_per_day" (VInt 0) = Ok base_daily →
  rate_card boat "cleaning_fee" (VFloat (S754_zero false)) = Ok fee →
  rate_card boat "tax_rate" (VFloat (S754_zero false)) = Ok tax_rate →
  of_int (sub_days end_ start) = Some d →
  of_int guests = Some g →
  ∃ bd, compute_quote float_of_string boat start end_ guests selection = Ok bd.
Proof.
  intros Hd H1 H2 H3 Hdays Hg.
  unfold compute_quote, compute_quote_locals, date_range_days.
  destruct (Z.ltb_spec (sub_days end_ start) 1); [lia|].
  cbn [mbind result_bind]. rewrite H1. cbn [mbind result_bind].
  rewrite H2. cbn [mbind result_bind]. rewrite H3. cbn [mbind result_bind].
  unfold mul_int at 1. rewrite Hdays. cbn [mbind result_bind].
  destruct (extras_loop_returns (sub_days end_ start) guests d g selection
              ([], S754_zero false) Hdays Hg) as [[em et] ->].
  cbn [mbind result_bind fmap result_fmap fst]. eauto.
Qed.

(** The number of days between two calendar dates converts to a float. *)
Lemma days_convert start end_ :
  valid start → valid end_ → 1 ≤ sub_days end_ start →
  ∃ m e, of_int (sub_days end_ start) = Some (S754_finite false m e).
Proof.
  intros V1 V2 Hd. apply of_int_small.
  pose proof (toordinal_range start V1). pose proof (toordinal_range end_ V2).
  unfold sub_days in *. change (2 ^ 53) with 9007199254740992. lia.
Qed.

(** C5.  Each enabled extra of the catalog is priced by its rule and
    recorded under its key: skipper at round(150.0 * nights, 2), fuel at
    round(80.0 * nights, 2), snorkel at round(20.0 * guests * nights, 2). *)
Theorem extras_priced_by_catalog (boat : dict (pyval oid)) start end_ guests
    selection bd key :
  well_formed selection →
  compute_quote float_of_string boat start end_ guests selection = Ok bd →
  (key, true) ∈ selection →
  (key = "skipper" →
     ∃ cost, mul_int (decimal 1500 1) (nights bd) = Ok cost ∧
             dict_get key (extras bd) = Some (round2 cost)) ∧
  (key = "fuel" →
     ∃ cost, mul_int (decimal 800 1) (nights bd) = Ok cost ∧
             dict_get key (extras bd) = Some (round2 cost)) ∧
  (key = "snorkel" →
     ∃ per_day cost,
       mul_int (decimal 200 1) guests = Ok per_day ∧
       mul_int per_day (nights bd) = Ok cost ∧
       dict_get key (extras bd) = Some (round2 cost)).
Proof.
  intros Hwf Hq Hin. destruct (compute_quote_Ok _ _ _ _ _ _ Hq) as (et & sub & Hl).
  pose proof (compute_quote_locals_Ok _ _ _ _ _ _ _ _ Hl) as H0. cbv zeta in H0.
  destruct H0 as (? & ? & ? & ? & _ & _ & _ & _ & _ & Hloop & _ & Hn & _).
  rewrite Hn.
  assert (Hrec : ∀ r, dict_get key EXTRA_PRICING = Some r →
            ∃ cost, extra_cost r (sub_days end_ start) guests = Ok cost ∧
                    dict_get key (extras bd) = Some (round2 cost)).
  { intros r Hr.
    exact (extras_loop_records _ _ key r selection _ _ Hwf Hin Hr Hloop). }
  repeat split; intros ->.
  - destruct (Hrec _ eq_refl) as (c & Hc & Hg). exists c. split; assumption.
  - destruct (Hrec _ eq_refl) as (c & Hc & Hg). exists c. split; assumption.
  - destruct (Hrec _ eq_refl) as (c & Hc & Hg).
    change (extra_cost _ _ _) with
      (c1 ← mul_int (decimal 200 1) guests; mul_int c1 (sub_days end_ start)) in Hc.
    destruct (mul_int (decimal 200 1) guests) as [c1|]; [|discriminate].
    cbn [mbind result_bind] in Hc. exists c1, c. auto.
Qed.

(** C6.  Items of the request whose key is not in the catalog or whose
    flag is false change nothing: the outcome, breakdown or error, is the
    one of the request without them, and the extras map has no entry for
    them. *)
Theorem unknown_extras_ignored (boat : dict (pyval oid)) start end_ guests
    selection :
  compute_quote_locals float_of_string boat start end_ guests selection =
  compute_quote_locals float_of_string boat start end_ guests
    (List.filter priced selection) ∧
  compute_quote float_of_string boat start end_ guests selection =
  compute_quote float_of_string boat start end_ guests
    (List.filter priced selection) ∧
  ∀ bd key,
    compute_quote float_of_string boat start end_ guests selection = Ok bd →
    dict_get key EXTRA_PRICING = None ∨ (key, true) ∉ selection →
    dict_get key (extras bd) = None.
Proof.
  assert (Heq : compute_quote_locals float_of_string boat start end_ guests selection =
    compute_quote_locals float_of_string boat start end_ guests
      (List.filter priced selection)).
  { unfold compute_quote_locals.
    destruct (date_range_days start end_) as [days|]; cbn [mbind result_bind]; [|reflexivity].
    destruct (rate_card boat "base_price_per_day" (VInt 0)); cbn [mbind result_bind]; [|reflexivity].
    destruct (rate_card boat "cleaning_fee" (VFloat (S754_zero false))); cbn [mbind result_bind]; [|reflexivity].
    destruct (rate_card boat "tax_rate" (VFloat (S754_zero false))); cbn [mbind result_bind]; [|reflexivity].
    destruct (mul_int _ days); cbn [mbind result_bind]; [|reflexivity].
    rewrite <- extras_loop_filter. reflexivity. }
  split; [exact Heq|]. split; [unfold compute_quote; rewrite <- Heq; reflexivity|].
  intros bd key Hq Hkey. destruct (compute_quote_Ok _ _ _ _ _ _ Hq) as (et & sub & Hl).
  pose proof (compute_quote_locals_Ok _ _ _ _ _ _ _ _ Hl) as H0. cbv zeta in H0.
  destruct H0 as (? & ? & ? & ? & _ & _ & _ & _ & _ & Hloop & _).
  destruct (dict_get key (extras bd)) as [v|] eqn:Hg; [exfalso|reflexivity].
  destruct (extras_loop_keys _ _ key v _ _ _ Hloop Hg) as [Hnil|[Hin [r Hr]]];
    [discriminate|].
  destruct Hkey as [Hnone|Hnot]; [congruence | exact (Hnot Hin)].
Qed.

(** C7.  The two worked examples of the specification, on a boat at 420.0
    a day with a cleaning fee of 35.0 and a tax rate of 0.08: three nights
    for two guests with skipper and snorkel, and one night with no
    extras. *)
Theorem worked_examples (boat : dict (pyval oid)) start end_ start' end' guests :
  get boat "base_price_per_day" (VInt 0) = VFloat (decimal 4200 1) →
  get boat "cleaning_fee" (VFloat (S754_zero false)) = VFloat (decimal 350 1) →
  get boat "tax_rate" (VFloat (S754_zero false)) = VFloat (decimal 8 2) →
  sub_days end_ start = 3 →
  sub_days end' start' = 1 →
  compute_quote_locals float_of_string boat start end_ 2
      [("skipper", true); ("snorkel", true)]
    = Ok ({| nights := 3;
             base := decimal 126000 2;
             extras := [("skipper", decimal 45000 2); ("snorkel", decimal 12000 2)];
             cleaning_fee := decimal 3500 2;
             tax := decimal 14920 2;
             total := decimal 201420 2;
             currency := "USD";
             transparent := true;
             notes := "Prices include all fees and taxes. No hidden fees." |},
          (decimal 57000 2, decimal 186500 2)) ∧
  compute_quote_locals float_of_string boat start' end' guests []
    = Ok ({| nights := 1;
             base := decimal 42000 2;
             extras := [];
             cleaning_fee := decimal 3500 2;
             tax := decimal 3640 2;
             total := decimal 49140 2;
             currency := "USD";
             transparent := true;
             notes := "Prices include all fees and taxes. No hidden fees." |},
          (S754_zero false, decimal 45500 2)).
Proof.
  intros Hb Hc Ht H3 H1. unfold compute_quote_locals, date_range_days.
  rewrite Hb, Hc, Ht, H3, H1. split; vm_compute; reflexivity.
Qed.

Lemma get_cons_missing (boat : dict (pyval oid)) key default :
  dict_get key boat = None →
  ∀ key' default',
    get ((key, default) :: boat) key' default' =
    if String.eqb key' key then default else get boat key' default'.
Proof.
  intros Hn key' default'. unfold get. cbn [dict_get].
  destruct (String.eqb key' key); reflexivity.
Qed.

Lemma get_missing (boat : dict (pyval oid)) key default :
  dict_get key boat = None → get boat key default = default.
Proof. unfold get. intros ->. reflexivity. Qed.

(** C9 (as amended).  A rate field that the boat record lacks is read as 0:
    the outcome is the one of the record with that field set to 0, so the
    base is 0.0 when [base_price_per_day] is missing, the cleaning fee is
    0.0 when [cleaning_fee] is missing, and the tax is zero when [tax_rate]
    is missing and the subtotal is finite; a record with none of the three
    gets a quote for any valid dates a day apart or more and any number of
    guests that converts to a float. *)
Theorem missing_rate_fields_read_as_zero (boat : dict (pyval oid)) start end_
    guests selection :
  (dict_get "base_price_per_day" boat = None →
     compute_quote float_of_string boat start end_ guests selection =
     compute_quote float_of_string (("base_price_per_day", VInt 0) :: boat)
       start end_ guests selection ∧
     ∀ bd, compute_quote float_of_string boat start end_ guests selection = Ok bd →
           base bd = S754_zero false) ∧
  (dict_get "cleaning_fee" boat = None →
     compute_quote float_of_string boat start end_ guests selection =
     compute_quote float_of_string
       (("cleaning_fee", VFloat (S754_zero false)) :: boat)
       start end_ guests selection ∧
     ∀ bd, compute_quote float_of_string boat start end_ guests selection = Ok bd →
           cleaning_fee bd = S754_zero false) ∧
  (dict_get "tax_rate" boat = None →
     compute_quote float_of_string boat start end_ guests selection =
     compute_quote float_of_string
       (("tax_rate", VFloat (S754_zero false)) :: boat)
       start end_ guests selection ∧
     ∀ bd extras_total subtotal,
       compute_quote_locals float_of_string boat start end_ guests selection
         = Ok (bd, (extras_total, subtotal)) →
       is_finite subtotal = true → is_zero (tax bd) = true) ∧
  (dict_get "base_price_per_day" boat = None →
   dict_get "cleaning_fee" boat = None →
   dict_get "tax_rate" boat = None →
   valid start → valid end_ → 1 ≤ sub_days end_ start →
   is_Some (of_int guests) →
   ∃ bd, compute_quote float_of_string boat start end_ guests selection = Ok bd ∧
         base bd = S754_zero false ∧ cleaning_fee bd = S754_zero false).
Proof.
  assert (Hbase : dict_get "base_price_per_day" boat = None →
    ∀ bd, compute_quote float_of_string boat start end_ guests selection = Ok bd →
          base bd = S754_zero false).
  { intros Hn bd Hq. destruct (compute_quote_Ok _ _ _ _ _ _ Hq) as (et & sub & Hl).
    pose proof (compute_quote_locals_Ok _ _ _ _ _ _ _ _ Hl) as H0. cbv zeta in H0.
    destruct H0 as (bdaily & ? & ? & bcost & Hd & Hbd & _ & _ & Hm & _ & _ & _ & Hb & _).
    rewrite (get_missing _ _ _ Hn) in Hbd. injection Hbd as <-.
    unfold mul_int in Hm. destruct (of_int (sub_days end_ start)) as [d|] eqn:Hof;
      [|discriminate].
    destruct (of_int_positive (sub_days end_ start) d ltac:(lia) Hof) as (m & e & ->).
    injection Hm as <-. rewrite Hb. reflexivity. }
  assert (Hfee : dict_get "cleaning_fee" boat = None →
    ∀ bd, compute_quote float_of_string boat start end_ guests selection = Ok bd →
          cleaning_fee bd = S754_zero false).
  { intros Hn bd Hq. destruct (compute_quote_Ok _ _ _ _ _ _ Hq) as (et & sub & Hl).
    pose proof (compute_quote_locals_Ok _ _ _ _ _ _ _ _ Hl) as H0. cbv zeta in H0.
    destruct H0 as (? & fee & ? & ? & _ & _ & Hf & _ & _ & _ & _ & _ & _ & Hc & _).
    rewrite (get_missing _ _ _ Hn) in Hf. injection Hf as <-. rewrite Hc. reflexivity. }
  split; [|split; [|split]].
  - intros Hn. split; [|exact (Hbase Hn)].
    unfold compute_quote, compute_quote_locals.
    rewrite !(get_cons_missing _ _ _ Hn). cbn [String.eqb Ascii.eqb Bool.eqb].
    rewrite (get_missing _ _ (VInt 0) Hn). reflexivity.
  - intros Hn. split; [|exact (Hfee Hn)].
    unfold compute_quote, compute_quote_locals.
    rewrite !(get_cons_missing _ _ _ Hn). cbn [String.eqb Ascii.eqb Bool.eqb].
    rewrite (get_missing _ _ (VFloat (S754_zero false)) Hn). reflexivity.
  - intros Hn. split.
    + unfold compute_quote, compute_quote_locals.
      rewrite !(get_cons_missing _ _ _ Hn). cbn [String.eqb Ascii.eqb Bool.eqb].
      rewrite (get_missing _ _ (VFloat (S754_zero false)) Hn). reflexivity.
    + intros bd et sub Hl Hfin.
      pose proof (compute_quote_locals_Ok _ _ _ _ _ _ _ _ Hl) as H0. cbv zeta in H0.
      destruct H0 as (? & ? & rate & ? & _ & _ & _ & Hr & _ & _ & _ & _ & _ & _ & Ht & _).
      rewrite (get_missing _ _ _ Hn) in Hr. injection Hr as <-. rewrite Ht.
      destruct sub; try discriminate; reflexivity.
  - intros Hb Hc Ht V1 V2 Hd [g Hg].
    destruct (days_convert start end_ V1 V2 Hd) as (m & e & Hdays).
    destruct (compute_quote_returns boat start end_ guests selection
                (S754_zero false) (S754_zero false) (S754_zero false)
                (S754_finite false m e) g Hd) as [bd Hq]; try assumption.
    + rewrite (get_missing _ _ _ Hb). reflexivity.
    + rewrite (get_missing _ _ _ Hc). reflexivity.
    + rewrite (get_missing _ _ _ Ht). reflexivity.
    + exists bd. split; [exact Hq|]. split; [exact (Hbase Hb bd Hq) | exact (Hfee Hc bd Hq)].
Qed.

End Quote.

(** ** The request handlers *)

Section Handlers.

Context {oid : Type} `{Countable oid}.
Variable ObjectId : string → option oid.
Variable float_of_string : string → option float.
Variable create_document :
  string → dict (pyval oid) → database oid → result string * database oid.

Lemma find_one_boats (st : database oid) o :
  find_one st "boat" o =
  (λ doc, ("_id", VObjectId o) :: doc) <$> boats st !! o.
Proof.
  unfold find_one, boats. destruct (st !! "boat") as [c|]; cbn.
  - destruct (c !! o); reflexivity.
  - done.
Qed.

(** The three outcomes of the lookup. *)
Lemma get_boat_or_404_cases (st : database oid) (boat_id : string) :
  get_boat_or_404 ObjectId (Some st) boat_id =
  match ObjectId boat_id with
  | None => Raise InvalidIdentifier
  | Some o =>
      match boats st !! o with
      | None => Raise NotFound
      | Some doc => Ok (("_id", VObjectId o) :: doc)
      end
  end.
Proof.
  unfold get_boat_or_404. destruct (ObjectId boat_id) as [o|]; [|reflexivity].
  rewrite find_one_boats. destruct (boats st !! o); reflexivity.
Qed.

(** C8.  On an initialised store, [get_boat_or_404] raises the
    invalid-identifier error for an identifier that [ObjectId] rejects, the
    not-found error for an identifier with no boat record, and otherwise
    returns the stored record (with its [_id]); whatever it returns is a
    stored record. *)
Theorem get_boat_or_404_fails_closed (st : database oid) (boat_id : string) :
  (ObjectId boat_id = None →
     get_boat_or_404 ObjectId (Some st) boat_id = Raise InvalidIdentifier) ∧
  (∀ o, ObjectId boat_id = Some o → boats st !! o = None →
     get_boat_or_404 ObjectId (Some st) boat_id = Raise NotFound) ∧
  (∀ o doc, ObjectId boat_id = Some o → boats st !! o = Some doc →
     get_boat_or_404 ObjectId (Some st) boat_id
       = Ok (("_id", VObjectId o) :: doc)) ∧
  (∀ boat, get_boat_or_404 ObjectId (Some st) boat_id = Ok boat →
     ∃ o doc, ObjectId boat_id = Some o ∧ boats st !! o = Some doc ∧
              boat = ("_id", VObjectId o) :: doc).
Proof.
  rewrite get_boat_or_404_cases. split; [|split; [|split]].
  - intros ->. reflexivity.
  - intros o -> ->. reflexivity.
  - intros o doc -> ->. reflexivity.
  - intros boat. destruct (ObjectId boat_id) as [o|]; [|discriminate].
    destruct (boats st !! o) as [doc|] eqn:Hdoc; [|discriminate].
    intros [= <-]. exists o, doc. auto.
Qed.

Lemma guarded_raise {A : Type} (body : handler A) (st : database oid) e :
  body st = (Raise e, st) → guarded body (Some st) = (Raise e, Some st).
Proof. unfold guarded. intros ->. reflexivity. Qed.

(** C4.  When the boat lookup or the pricing fails, [create_booking]
    raises that error and leaves the database as it was: no booking record
    is inserted.  This covers an unknown boat identifier of valid format
    (not found) and an end date equal to the start date (invalid date
    range). *)
Theorem create_booking_atomic utcnow (req : BookingRequest.t) (st : database oid) :
  (∀ e, get_boat_or_404 ObjectId (Some st) (BookingRequest.boat_id req) = Raise e →
     create_booking ObjectId float_of_string create_document utcnow req (Some st)
       = (Raise e, Some st)) ∧
  (∀ boat e,
     get_boat_or_404 ObjectId (Some st) (BookingRequest.boat_id req) = Ok boat →
     compute_quote float_of_string boat (BookingRequest.start_date req)
       (BookingRequest.end_date req) (BookingRequest.guests req)
       (BookingRequest.extras req) = Raise e →
     create_booking ObjectId float_of_string create_document utcnow req (Some st)
       = (Raise e, Some st)) ∧
  (∀ o, ObjectId (BookingRequest.boat_id req) = Some o → boats st !! o = None →
     create_booking ObjectId float_of_string create_document utcnow req (Some st)
       = (Raise NotFound, Some st)) ∧
  (∀ boat,
     get_boat_or_404 ObjectId (Some st) (BookingRequest.boat_id req) = Ok boat →
     BookingRequest.end_date req = BookingRequest.start_date req →
     create_booking ObjectId float_of_string create_document utcnow req (Some st)
       = (Raise InvalidDateRange, Some st)).
Proof.
  assert (H1 : ∀ e,
    get_boat_or_404 ObjectId (Some st) (BookingRequest.boat_id req) = Raise e →
    create_booking ObjectId float_of_string create_document utcnow req (Some st)
      = (Raise e, Some st)).
  { intros e He. apply guarded_raise. unfold hbind, reading. rewrite He. reflexivity. }
  assert (H2 : ∀ boat e,
    get_boat_or_404 ObjectId (Some st) (BookingRequest.boat_id req) = Ok boat →
    compute_quote float_of_string boat (BookingRequest.start_date req)
      (BookingRequest.end_date req) (BookingRequest.guests req)
      (BookingRequest.extras req) = Raise e →
    create_booking ObjectId float_of_string create_document utcnow req (Some st)
      = (Raise e, Some st)).
  { intros boat e Hb He. apply guarded_raise. unfold hbind, reading.
    rewrite Hb, He. reflexivity. }
  split; [exact H1|]. split; [exact H2|]. split.
  - intros o Ho Hn. apply H1. rewrite get_boat_or_404_cases, Ho, Hn. reflexivity.
  - intros boat Hb Hdates. apply (H2 boat _ Hb).
    apply compute_quote_date_range. rewrite Hdates. unfold sub_days. lia.
Qed.

End Handlers.

(** ** Boat creation *)

Section BoatCreation.

Context {oid : Type} `{Countable oid} `{!Infinite oid}.
Variable str : oid → string.

Lemma insert_one_fresh name (doc : dict (pyval oid)) (st : database oid) :
  ∃ o, default ∅ (st !! name) !! o = None ∧
       insert_one str name doc st =
       (Ok (str o), <[name := <[o := doc]> (default ∅ (st !! name))]> st).
Proof.
  exists (fresh (dom (default ∅ (st !! name)))). split; [|reflexivity].
  apply not_elem_of_dom, is_fresh.
Qed.

(** C10.  [create_boat] checks nothing: on an initialised store it hands
    the mapping it is given, as it is, to [create_document] and returns
    the identifier that comes back; with the store's insert, any mapping at
    all is stored unchanged under a new identifier, whatever its fields. *)
Theorem create_boat_accepts_any_document (boat : dict (pyval oid))
    (st : database oid) :
  (∀ create_document,
     create_boat create_document boat (Some st) =
     let '(r, st') := create_document "boat" boat st in
     ((λ boat_id, [("id", VStr boat_id)]) <$> r, Some st')) ∧
  (∃ o, boats st !! o = None ∧
     create_boat (insert_one str) boat (Some st) =
     (Ok [("id", VStr (str o))], Some (<["boat" := <[o := boat]> (boats st)]> st)) ∧
     boats (<["boat" := <[o := boat]> (boats st)]> st) !! o = Some boat).
Proof.
  split.
  - intros create_document. unfold create_boat, guarded, hbind, hret.
    destruct (create_document "boat" boat st) as [[boat_id|e] st']; reflexivity.
  - destruct (insert_one_fresh "boat" boat st) as (o & Hfresh & Hins).
    exists o. split; [exact Hfresh|]. split.
    + unfold create_boat, guarded, hbind, hret. rewrite Hins. reflexivity.
    + unfold boats at 1. rewrite lookup_insert_eq. cbn. apply lookup_insert_eq.
Qed.

End BoatCreation.

(** ** Whole numbers in binary64

    Below [2^53] the floats hold every integer: the products and the sums
    of the pricing are then exact, and the float of an integer is the
    integer. *)

(** Rounding a mantissa and exponent whose value is that of a normal
    mantissa [m] at the exponent [e]: nothing is lost. *)
Lemma binary_round_exact s mx ex m e :
  Zpos (digits2_pos m) = prec → emin prec emax ≤ e ≤ emax - prec →
  Zpos mx * 2 ^ (ex - Z.min ex e) = Zpos m * 2 ^ (e - Z.min ex e) →
  binary_round prec emax s mx ex = S754_finite s m e.
Proof.
  intros Hd He Hv. unfold binary_round.
  destruct (Z.le_gt_cases ex e) as [Hle | Hgt].
  - (* the mantissa is wider: it is shifted right *)
    rewrite Z.min_l, Z.sub_diag, Z.mul_1_r in Hv by lia.
    rewrite (digits2_shift m (e - ex) ltac:(lia) mx Hv), Hd.
    replace (fexp prec emax (prec + (e - ex) + ex)) with e
      by (unfold fexp, emin, prec, emax in *; lia).
    unfold shl_align. destruct (e - ex) as [|k|k] eqn:Hk; try lia.
    + rewrite (binary_round_aux_exact s m 0 ex (Zpos mx) Hd); [f_equal| | |]; lia.
    + rewrite (binary_round_aux_exact s m (Zpos k) ex (Zpos mx) Hd); [f_equal| | |]; lia.
  - rewrite Z.min_r, Z.sub_diag, Z.mul_1_r in Hv by lia.
    assert (Hdm : Zpos (digits2_pos mx) + (ex - e) = prec).
    { rewrite <- Hd. symmetry. apply (digits2_shift mx (ex - e)); [lia|]. lia. }
    replace (fexp prec emax (Zpos (digits2_pos mx) + ex)) with e
      by (unfold fexp, emin, prec, emax in *; lia).
    unfold shl_align. destruct (e - ex) as [|k|k] eqn:Hk; try lia.
    assert (Hm : Pos.iter xO mx k = m).
    { apply Pos2Z.inj. rewrite iter_xO, <- Hv. f_equal. f_equal. lia. }
    rewrite Hm.
    rewrite (binary_round_aux_exact s m 0 e (Zpos m) Hd); [f_equal| | |]; lia.
Qed.

(** The float of a positive integer below [2^53]: the integer itself,
    written on 53 bits. *)
Lemma of_int_exact z :
  0 < z < 2 ^ 53 →
  ∃ m e, of_int z = Some (S754_finite false m e) ∧
    Zpos (digits2_pos m) = prec ∧ -52 ≤ e ≤ 0 ∧ Zpos m = z * 2 ^ (- e).
Proof.
  intros Hz. destruct z as [|p|p]; try lia.
  pose proof (digits2_bounds p) as HB.
  set (d := Zpos (digits2_pos p)) in *.
  assert (Hd : 1 ≤ d ≤ 53).
  { split; [unfold d; lia|]. destruct (Z.le_gt_cases d 53); [assumption|exfalso].
    assert (2 ^ 53 ≤ 2 ^ (d - 1)) by (apply Z.pow_le_mono_r; lia). lia. }
  assert (H2 : 0 < 2 ^ (53 - d)) by (apply Z.pow_pos_nonneg; lia).
  destruct (Zpos p * 2 ^ (53 - d)) as [|m|m] eqn:Hm; try lia.
  assert (Hdm : Zpos (digits2_pos m) = prec).
  { rewrite (digits2_shift p (53 - d) ltac:(lia) m (eq_sym Hm)). fold d. unfold prec. lia. }
  exists m, (d - 53). split; [|split; [exact Hdm|split; [lia|]]].
  - unfold of_int, binary_normalize.
    rewrite (binary_round_exact false p 0 m (d - 53) Hdm).
    + reflexivity.
    + unfold emin, prec, emax. lia.
    + rewrite Z.min_r by lia. rewrite Z.sub_diag, Z.mul_1_r.
      rewrite <- Hm. f_equal. f_equal. lia.
  - rewrite <- Hm. f_equal. f_equal. lia.
Qed.

(** A normal mantissa at an exponent [e ≤ 0] that holds the integer [z]
    is the float of [z]. *)
Lemma of_int_normal z m e :
  0 < z → Zpos (digits2_pos m) = prec → e ≤ 0 → Zpos m = z * 2 ^ (- e) →
  of_int z = Some (S754_finite false m e).
Proof.
  intros Hz Hd He Hm.
  destruct z as [|p|p]; try lia.
  assert (He' : -52 ≤ e).
  { pose proof (digits2_bounds m) as HB. rewrite Hd in HB. unfold prec in HB.
    destruct (Z.le_gt_cases (-52) e); [assumption|exfalso].
    assert (2 ^ 53 ≤ 2 ^ (- e)) by (apply Z.pow_le_mono_r; lia).
    assert (2 ^ 53 ≤ Zpos p * 2 ^ (- e)) by nia. lia. }
  unfold of_int, binary_normalize.
  rewrite (binary_round_exact false p 0 m e Hd).
  - reflexivity.
  - unfold emin, prec, emax. lia.
  - rewrite Z.min_r by lia. rewrite Z.sub_diag, Z.mul_1_r. rewrite Hm. reflexivity.
Qed.

(** The float product of two non-negative integers is the float of their
    product, as long as the product is below [2^53]. *)
Lemma of_int_mul a b fa fb :
  0 ≤ a → 0 ≤ b → a * b < 2 ^ 53 →
  of_int a = Some fa → of_int b = Some fb →
  of_int (a * b) = Some (fmul fa fb).
Proof.
  intros Ha Hb Hab Hfa Hfb.
  destruct (Z.eq_dec a 0) as [-> | Ha0].
  { injection Hfa as <-. rewrite Z.mul_0_l.
    destruct (Z.eq_dec b 0) as [-> | Hb0]; [injection Hfb as <-; reflexivity|].
    destruct (of_int_positive b fb ltac:(lia) Hfb) as (m & e & ->). reflexivity. }
  destruct (Z.eq_dec b 0) as [-> | Hb0].
  { injection Hfb as <-. rewrite Z.mul_0_r.
    destruct (of_int_positive a fa ltac:(lia) Hfa) as (m & e & ->). reflexivity. }
  assert (Ha53 : 0 < a < 2 ^ 53) by nia.
  assert (Hb53 : 0 < b < 2 ^ 53) by nia.
  destruct (of_int_exact a Ha53) as (ma & ea & Hfa' & Hda & Hea & Hma).
  destruct (of_int_exact b Hb53) as (mb & eb & Hfb' & Hdb & Heb & Hmb).
  rewrite Hfa in Hfa'. injection Hfa' as ->. rewrite Hfb in Hfb'. injection Hfb' as ->.
  destruct (of_int_exact (a * b) ltac:(nia)) as (mc & ec & Hfc & Hdc & Hec & Hmc).
  rewrite Hfc. f_equal. unfold fmul, SFmul. cbn [xorb]. symmetry.
  pose proof (digits2_bounds ma) as Ba. rewrite Hda in Ba.
  pose proof (digits2_bounds mb) as Bb. rewrite Hdb in Bb.
  pose proof (digits2_bounds mc) as Bc. rewrite Hdc in Bc.
  unfold prec in *. change (53 - 1) with 52 in *.
  assert (Pa : 0 < 2 ^ (- ea)) by (apply Z.pow_pos_nonneg; lia).
  assert (Pb : 0 < 2 ^ (- eb)) by (apply Z.pow_pos_nonneg; lia).
  assert (Pc : 0 < 2 ^ (- ec)) by (apply Z.pow_pos_nonneg; lia).
  (* the exponent of the product is at least the sum of the exponents *)
  assert (Hk : 0 ≤ ec - (ea + eb)).
  { destruct (Z.le_gt_cases 0 (ec - (ea + eb))); [assumption|exfalso].
    assert (E : 2 ^ (- ec) = 2 ^ (- ea) * 2 ^ (- eb) * 2 ^ (ea + eb - ec)).
    { rewrite <- !Z.pow_add_r by lia. f_equal. lia. }
    assert (2 ≤ 2 ^ (ea + eb - ec)).
    { change 2 with (2 ^ 1) at 1. apply Z.pow_le_mono_r; lia. }
    assert (Zpos mc = (Zpos ma * Zpos mb) * 2 ^ (ea + eb - ec)).
    { rewrite Hmc, Hma, Hmb, E. lia. }
    assert (2 ^ 52 * 2 ^ 52 ≤ Zpos ma * Zpos mb) by (apply Z.mul_le_mono_nonneg; lia).
    nia. }
  replace ec with (ea + eb + (ec - (ea + eb))) at 1 by lia.
  apply (binary_round_aux_exact false mc (ec - (ea + eb)) (ea + eb) _ Hdc).
  - lia.
  - unfold emin, prec, emax. lia.
  - rewrite Pos2Z.inj_mul, Hma, Hmb, Hmc.
    assert (E : 2 ^ (- ea) * 2 ^ (- eb) = 2 ^ (- ec) * 2 ^ (ec - (ea + eb))).
    { rewrite <- !Z.pow_add_r by lia. f_equal. lia. }
    transitivity (a * b * (2 ^ (- ea) * 2 ^ (- eb))); [lia|]. rewrite E. lia.
Qed.

Lemma shl_align_fst m e e' :
  e' ≤ e → Zpos (fst (shl_align m e e')) = Zpos m * 2 ^ (e - e').
Proof.
  intros He. unfold shl_align. destruct (e' - e) as [|d|d] eqn:Hd; try lia; cbn [fst].
  - replace (e - e') with 0 by lia. lia.
  - rewrite iter_xO. f_equal. f_equal. lia.
Qed.

(** The float sum of two non-negative integers is the float of their sum,
    as long as the sum is below [2^53]. *)
Lemma of_int_add a b fa fb :
  0 ≤ a → 0 ≤ b → a + b < 2 ^ 53 →
  of_int a = Some fa → of_int b = Some fb →
  of_int (a + b) = Some (fadd fa fb).
Proof.
  intros Ha Hb Hab Hfa Hfb.
  destruct (Z.eq_dec a 0) as [-> | Ha0].
  { injection Hfa as <-. rewrite Z.add_0_l, Hfb. f_equal.
    destruct (Z.eq_dec b 0) as [-> | Hb0]; [injection Hfb as <-; reflexivity|].
    destruct (of_int_positive b fb ltac:(lia) Hfb) as (m & e & ->). reflexivity. }
  destruct (Z.eq_dec b 0) as [-> | Hb0].
  { injection Hfb as <-. rewrite Z.add_0_r, Hfa. f_equal.
    destruct (of_int_positive a fa ltac:(lia) Hfa) as (m & e & ->). reflexivity. }
  destruct (of_int_exact a ltac:(lia)) as (ma & ea & Hfa' & Hda & Hea & Hma).
  destruct (of_int_exact b ltac:(lia)) as (mb & eb & Hfb' & Hdb & Heb & Hmb).
  rewrite Hfa in Hfa'. injection Hfa' as ->. rewrite Hfb in Hfb'. injection Hfb' as ->.
  destruct (of_int_exact (a + b) ltac:(lia)) as (mc & ec & Hfc & Hdc & Hec & Hmc).
  rewrite Hfc. f_equal. unfold fadd, SFadd. symmetry.
  set (ez := Z.min ea eb).
  pose proof (shl_align_fst ma ea ez ltac:(unfold ez; lia)) as Sa.
  pose proof (shl_align_fst mb eb ez ltac:(unfold ez; lia)) as Sb.
  cbn [cond_Zopp]. rewrite Sa, Sb.
  assert (Pz : 0 < 2 ^ (- ez)) by (apply Z.pow_pos_nonneg; unfold ez; lia).
  assert (Ea : Zpos ma * 2 ^ (ea - ez) = a * 2 ^ (- ez)).
  { rewrite Hma, <- Z.mul_assoc, <- Z.pow_add_r by (unfold ez; lia). do 2 f_equal. lia. }
  assert (Eb : Zpos mb * 2 ^ (eb - ez) = b * 2 ^ (- ez)).
  { rewrite Hmb, <- Z.mul_assoc, <- Z.pow_add_r by (unfold ez; lia). do 2 f_equal. lia. }
  rewrite Ea, Eb.
  destruct (a * 2 ^ (- ez) + b * 2 ^ (- ez)) as [|S|S] eqn:HS; try nia.
  cbn [binary_normalize].
  apply (binary_round_exact false S ez mc ec Hdc).
  - unfold emin, prec, emax. lia.
  - rewrite <- HS, Hmc. set (t := Z.min ez ec).
    assert (E1 : 2 ^ (- ez) * 2 ^ (ez - t) = 2 ^ (- t)).
    { rewrite <- Z.pow_add_r by (unfold t, ez; lia). f_equal. lia. }
    assert (E2 : 2 ^ (- ec) * 2 ^ (ec - t) = 2 ^ (- t)).
    { rewrite <- Z.pow_add_r by (unfold t, ez; lia). f_equal. lia. }
    transitivity ((a + b) * (2 ^ (- ez) * 2 ^ (ez - t))); [lia|].
    rewrite E1, <- E2. lia.
Qed.

(** The amounts of the catalog are whole dollars. *)
Lemma catalog_amounts :
  of_int 150 = Some (decimal 1500 1) ∧ of_int 80 = Some (decimal 800 1) ∧
  of_int 20 = Some (decimal 200 1).
Proof. repeat split; vm_compute; reflexivity. Qed.

(** A non-negative integer below [2^1023] converts to a float. *)
Lemma of_int_in_range z : 0 ≤ z < 2 ^ 1023 → is_Some (of_int z).
Proof.
  intros Hz. destruct z as [|p|p]; try lia; [eexists; reflexivity|].
  destruct (Z.lt_ge_cases (Zpos p) (2 ^ 53)) as [Hs|Hl].
  - destruct (of_int_small (Zpos p) ltac:(lia)) as (m & e & ->). eauto.
  - unfold of_int, binary_normalize, binary_round.
    pose proof (digits2_bounds p) as HB.
    set (d := Zpos (digits2_pos p)) in *.
    assert (Hd : 54 ≤ d ≤ 1023).
    { split.
      - destruct (Z.le_gt_cases 54 d); [assumption|exfalso].
        assert (2 ^ d ≤ 2 ^ 53) by (apply Z.pow_le_mono_r; lia). lia.
      - destruct (Z.le_gt_cases d 1023); [assumption|exfalso].
        assert (2 ^ 1023 ≤ 2 ^ (d - 1)) by (apply Z.pow_le_mono_r; lia). lia. }
    replace (fexp prec emax (d + 0)) with (d - 53)
      by (unfold fexp, emin, prec, emax; lia).
    unfold shl_align. destruct (d - 53 - 0) as [|k|k] eqn:Hk; try lia.
    destruct (binary_round_aux_shape false (Zpos p) 0 loc_Exact) as (m & e & _ & He & ->).
    + lia.
    + cbn [Zdigits2]. fold d. unfold prec. lia.
    + cbn [Zdigits2]. fold d. unfold emin, prec, emax. lia.
    + cbn [Zdigits2] in He. fold d in He. unfold prec, emax in *.
      destruct (Z.leb_spec e (1024 - 53)); [eauto|lia].
Qed.

(** An integer from [2^1024] on does not: [OverflowError]. *)
Lemma of_int_overflow z : 2 ^ 1024 ≤ z → of_int z = None.
Proof.
  intros Hz. assert (0 < 2 ^ 1024) by (apply Z.pow_pos_nonneg; lia).
  destruct z as [|p|p]; try lia.
  unfold of_int, binary_normalize, binary_round.
  pose proof (digits2_bounds p) as HB.
  set (d := Zpos (digits2_pos p)) in *.
  assert (Hd : 1025 ≤ d).
  { destruct (Z.le_gt_cases 1025 d); [assumption|exfalso].
    assert (2 ^ d ≤ 2 ^ 1024) by (apply Z.pow_le_mono_r; lia). lia. }
  replace (fexp prec emax (d + 0)) with (d - 53)
    by (unfold fexp, emin, prec, emax; lia).
  unfold shl_align. destruct (d - 53 - 0) as [|k|k] eqn:Hk; try lia.
  destruct (binary_round_aux_shape false (Zpos p) 0 loc_Exact) as (m & e & _ & He & ->).
  - lia.
  - cbn [Zdigits2]. fold d. unfold prec. lia.
  - cbn [Zdigits2]. fold d. unfold emin, prec, emax. lia.
  - cbn [Zdigits2] in He. fold d in He. unfold prec, emax in *.
    destruct (Z.leb_spec e (1024 - 53)); [lia|reflexivity].
Qed.

(** The float of a non-negative integer is [+0.0] or a positive float. *)
Lemma of_int_nonneg_cases z f : 0 ≤ z → of_int z = Some f →
  f = S754_zero false ∨ ∃ m e, f = S754_finite false m e.
Proof.
  intros Hz Hf. destruct (Z.eq_dec z 0) as [-> | Hne].
  - injection Hf as <-. auto.
  - right. apply (of_int_positive z f); [lia | exact Hf].
Qed.

(** ** Signs

    What is not below zero stays so through [*], [+] and [round]. *)

Lemma negative_sign x :
  negative x =
  match x with
  | S754_infinity s | S754_finite s _ _ => s
  | _ => false
  end.
Proof. destruct x as [s|s| |s m e]; try destruct s; reflexivity. Qed.

(** A rounded result has the sign it is given, or is a nan. *)
Lemma binary_round_aux_negative M E l :
  negative (binary_round_aux prec emax false M E l) = false.
Proof.
  unfold binary_round_aux.
  destruct (shr_fexp prec emax M E l) as [mrs' e'].
  destruct (shr_fexp prec emax _ e' loc_Exact) as [mrs'' e''].
  destruct (shr_m mrs''); try reflexivity.
  destruct (e'' <=? emax - prec); reflexivity.
Qed.

Lemma fmul_negative x y :
  negative x = false → negative y = false → negative (fmul x y) = false.
Proof.
  intros Hx Hy. rewrite negative_sign in Hx, Hy.
  destruct x as [sx|sx| |sx mx ex], y as [sy|sy| |sy my ey]; subst;
    try reflexivity; try (destruct sx; reflexivity); try (destruct sy; reflexivity).
  unfold fmul, SFmul. cbn [xorb]. apply binary_round_aux_negative.
Qed.

Lemma fadd_negative x y :
  negative x = false → negative y = false → negative (fadd x y) = false.
Proof.
  intros Hx Hy. rewrite negative_sign in Hx, Hy.
  destruct x as [sx|sx| |sx mx ex], y as [sy|sy| |sy my ey]; subst;
    try reflexivity; try (destruct sx; reflexivity); try (destruct sy; reflexivity);
    try (destruct sx, sy; reflexivity).
  unfold fadd, SFadd. cbn [cond_Zopp].
  destruct (Zpos (fst (shl_align mx ex (Z.min ex ey))) +
            Zpos (fst (shl_align my ey (Z.min ex ey)))) as [|p|p] eqn:Hp; try lia.
  cbn [binary_normalize]. unfold binary_round.
  destruct (shl_align p _ _) as [mz ez]. apply binary_round_aux_negative.
Qed.

Lemma round2_negative x : negative x = false → negative (round2 x) = false.
Proof.
  destruct x as [s|s| |s m e]; try (intros H; exact H).
  intros Hx. rewrite negative_sign in Hx. subst s. cbn [round2]. unfold of_cents.
  destruct (cents m e) as [|n|n]; try reflexivity.
  unfold nearest, SFdiv.
  destruct (SFdiv_core_binary _ _ _ _ _ _) as [[mz ez] lz]. cbn [xorb].
  apply binary_round_aux_negative.
Qed.

Lemma of_int_negative z f : 0 ≤ z → of_int z = Some f → negative f = false.
Proof.
  intros Hz Hf. destruct (Z.eq_dec z 0) as [-> | Hne].
  - injection Hf as <-. reflexivity.
  - destruct (of_int_positive z f ltac:(lia) Hf) as (m & e & ->). reflexivity.
Qed.

Lemma mul_int_negative x n c :
  negative x = false → 0 ≤ n → mul_int x n = Ok c → negative c = false.
Proof.
  unfold mul_int. intros Hx Hn. destruct (of_int n) as [y|] eqn:Hy; [|discriminate].
  intros Hc. replace c with (fmul x y) by congruence.
  apply fmul_negative; [exact Hx | exact (of_int_negative n y Hn Hy)].
Qed.

(** ** The loop over the extras, over the integers *)

Lemma exact_cost_nonneg key days guests :
  0 ≤ days → 0 ≤ guests → 0 ≤ exact_cost key days guests.
Proof. intros. unfold exact_cost. repeat case_match; nia. Qed.

Lemma exact_extras_total_nonneg days guests items :
  0 ≤ days → 0 ≤ guests → 0 ≤ exact_extras_total days guests items.
Proof.
  intros Hd Hg. unfold exact_extras_total.
  induction (List.filter priced items) as [|item l IH]; cbn [foldr]; [lia|].
  pose proof (exact_cost_nonneg item.1 days guests Hd Hg). lia.
Qed.

(** The float cost of a catalog extra is the float of its exact cost. *)
Lemma extra_cost_exact key r days guests c :
  dict_get key EXTRA_PRICING = Some r → 1 ≤ days → 0 ≤ guests →
  exact_cost key days guests < 2 ^ 53 →
  extra_cost r days guests = Ok c →
  of_int (exact_cost key days guests) = Some c.
Proof.
  intros Hr Hd Hg Hb. rewrite (extra_cost_catalog key r days guests Hr).
  destruct catalog_amounts as (A150 & A80 & A20).
  destruct (EXTRA_PRICING_cases key r Hr) as [[-> ->]|[[-> ->]|[-> ->]]].
  - change (exact_cost "skipper" days guests) with (150 * days) in *.
    change (mul_int (decimal 1500 1) days = Ok c → of_int (150 * days) = Some c).
    unfold mul_int.
    destruct (of_int days) as [d|] eqn:Hdays; [|discriminate]. intros Hc.
    replace c with (fmul (decimal 1500 1) d) by congruence.
    apply of_int_mul; try assumption; lia.
  - change (exact_cost "fuel" days guests) with (80 * days) in *.
    change (mul_int (decimal 800 1) days = Ok c → of_int (80 * days) = Some c).
    unfold mul_int.
    destruct (of_int days) as [d|] eqn:Hdays; [|discriminate]. intros Hc.
    replace c with (fmul (decimal 800 1) d) by congruence.
    apply of_int_mul; try assumption; lia.
  - change (exact_cost "snorkel" days guests) with (20 * guests * days) in *.
    change ((c1 ← mul_int (decimal 200 1) guests; mul_int c1 days) = Ok c →
            of_int (20 * guests * days) = Some c).
    unfold mul_int.
    destruct (of_int guests) as [g|] eqn:Hguests; [|discriminate].
    cbn [mbind result_bind].
    destruct (of_int days) as [d|] eqn:Hdays; [|discriminate]. intros Hc.
    replace c with (fmul (fmul (decimal 200 1) g) d) by congruence.
    apply of_int_mul; try assumption; try nia.
    apply of_int_mul; try assumption; nia.
Qed.

(** The running total of the loop is the float of the exact total, as
    long as that is below [2^53]. *)
Lemma extras_loop_exact days guests items : ∀ acc res z,
  1 ≤ days → 0 ≤ guests → 0 ≤ z →
  of_int z = Some acc.2 →
  z + exact_extras_total days guests items < 2 ^ 53 →
  extras_loop days guests items acc = Ok res →
  of_int (z + exact_extras_total days guests items) = Some res.2.
Proof.
  intros acc res z Hd Hg. revert acc res z.
  induction items as [|[k enabled] rest IH]; intros acc res z Hz Hacc Hb.
  - cbn. intros [= <-]. rewrite Z.add_0_r. exact Hacc.
  - rewrite extras_loop_filter.
    unfold exact_extras_total in *. cbn [List.filter] in *.
    destruct (priced (k, enabled)) eqn:Hp.
    + unfold priced in Hp. cbn [fst snd] in Hp.
      apply andb_true_iff in Hp as [-> Hp]. apply bool_decide_eq_true in Hp as [r Hr].
      cbn [extras_loop negb foldr fst] in *. rewrite Hr.
      destruct (extra_cost r days guests) as [c|] eqn:Hc; cbn [mbind result_bind];
        [|discriminate].
      rewrite <- extras_loop_filter. intros Hl.
      pose proof (exact_cost_nonneg k days guests ltac:(lia) Hg) as Hc0.
      pose proof (exact_extras_total_nonneg days guests rest ltac:(lia) Hg) as Ht0.
      unfold exact_extras_total in Ht0.
      rewrite Z.add_assoc.
      apply (IH (dict_set k (round2 c) acc.1, fadd acc.2 c) res
               (z + exact_cost k days guests) ltac:(lia)); [|lia|exact Hl].
      cbn [snd]. apply of_int_add; try assumption; try lia.
      apply (extra_cost_exact k r); try assumption. lia.
    + rewrite <- extras_loop_filter. apply IH; assumption.
Qed.

(** The order of the priced items does not change their exact total. *)
Lemma exact_extras_total_perm days guests items items' :
  items ≡ₚ items' →
  exact_extras_total days guests items = exact_extras_total days guests items'.
Proof.
  intros Hp. unfold exact_extras_total.
  assert (Hf : List.filter priced items ≡ₚ List.filter priced items').
  { induction Hp as [|x l l' _ IH|x y l|l l' l'' _ IH1 _ IH2]; cbn [List.filter].
    - reflexivity.
    - destruct (priced x); [constructor|]; exact IH.
    - destruct (priced x), (priced y); try reflexivity. constructor.
    - etransitivity; eassumption. }
  induction Hf as [|x l l' _ IH|x y l|l l' l'' _ IH1 _ IH2]; cbn [foldr]; lia.
Qed.

Lemma bool_decide_cons_ne (k key : string) (e : bool) (rest : dict bool) :
  (key, true) ≠ (k, e) →
  bool_decide ((key, true) ∈ (k, e) :: rest) = bool_decide ((key, true) ∈ rest).
Proof.
  intros Hne. apply bool_decide_ext. rewrite elem_of_cons. tauto.
Qed.

Lemma bool_decide_cons_eq (key : string) (rest : dict bool) :
  bool_decide ((key, true) ∈ (key, true) :: rest) = true.
Proof. apply bool_decide_eq_true_2. left. Qed.

Lemma bool_decide_fresh (key : string) (rest : dict bool) :
  key ∉ keys rest → bool_decide ((key, true) ∈ rest) = false.
Proof.
  intros Hk. apply bool_decide_eq_false_2. intros Hin. apply Hk.
  unfold keys. apply list_elem_of_fmap. exists (key, true). auto.
Qed.

(** On a request with distinct keys, the exact total of the priced items
    is the total of the three extras. *)
Lemma exact_extras_total_formula days guests selection :
  NoDup (keys selection) →
  exact_extras_total days guests selection = whole_extras days guests selection.
Proof.
  unfold exact_extras_total, whole_extras.
  induction selection as [|[k e] rest IH]; intros Hnd; [reflexivity|].
  cbn [keys map fst] in Hnd. apply NoDup_cons in Hnd as [Hk Hnd].
  specialize (IH Hnd). cbn [List.filter].
  destruct (priced (k, e)) eqn:Hp.
  - unfold priced in Hp. cbn [fst snd] in Hp.
    apply andb_true_iff in Hp as [-> Hp]. apply bool_decide_eq_true in Hp as [r Hr].
    cbn [foldr fst]. rewrite IH.
    destruct (EXTRA_PRICING_cases k r Hr) as [[-> _]|[[-> _]|[-> _]]].
    + rewrite bool_decide_cons_eq, (bool_decide_fresh _ _ Hk).
      rewrite !bool_decide_cons_ne by discriminate.
      change (exact_cost "skipper" days guests) with (150 * days). lia.
    + rewrite bool_decide_cons_eq, (bool_decide_fresh _ _ Hk).
      rewrite !bool_decide_cons_ne by discriminate.
      change (exact_cost "fuel" days guests) with (80 * days). lia.
    + rewrite bool_decide_cons_eq, (bool_decide_fresh _ _ Hk).
      rewrite !bool_decide_cons_ne by discriminate.
      change (exact_cost "snorkel" days guests) with (20 * guests * days). lia.
  - rewrite IH. unfold priced in Hp. cbn [fst snd] in Hp.
    assert (Hne : ∀ key, is_Some (dict_get key EXTRA_PRICING) → (key, true) ≠ (k, e)).
    { intros key Hsome [= -> <-]. cbn [andb] in Hp.
      apply bool_decide_eq_false in Hp. contradiction. }
    rewrite !bool_decide_cons_ne by (apply Hne; eexists; reflexivity).
    reflexivity.
Qed.

(** The loop returns exactly when each priced item has a cost. *)
Lemma extras_loop_Ok days guests items : ∀ acc,
  (∃ res, extras_loop days guests items acc = Ok res) ↔
  (∀ key r, (key, true) ∈ items → dict_get key EXTRA_PRICING = Some r →
            ∃ c, extra_cost r days guests = Ok c).
Proof.
  induction items as [|[k enabled] rest IH]; intros acc; cbn [extras_loop].
  - split; [intros _ key r Hin; apply elem_of_nil in Hin; destruct Hin | eauto].
  - destruct enabled; cbn [negb].
    + destruct (dict_get k EXTRA_PRICING) as [r|] eqn:Hr.
      * destruct (extra_cost r days guests) as [c|e] eqn:Hc; cbn [mbind result_bind].
        -- rewrite IH. split; intros Hall key r' Hin Hr'.
           ++ apply elem_of_cons in Hin as [[= ->]|Hin]; [|eauto].
              rewrite Hr in Hr'. injection Hr' as <-. eauto.
           ++ apply (Hall key r'); [right; exact Hin | exact Hr'].
        -- split; [intros [res Hres]; discriminate|].
           intros Hall. destruct (Hall k r ltac:(left) Hr) as [c Hc'].
           rewrite Hc in Hc'. discriminate.
      * rewrite IH. split; intros Hall key r' Hin Hr'.
        -- apply elem_of_cons in Hin as [[= ->]|Hin]; [congruence|eauto].
        -- apply (Hall key r'); [right; exact Hin | exact Hr'].
    + rewrite IH. split; intros Hall key r' Hin Hr'.
      * apply elem_of_cons in Hin as [[=]|Hin]. eauto.
      * apply (Hall key r'); [right; exact Hin | exact Hr'].
Qed.

(** On a request with distinct keys, the extras map holds under each key
    the rounded cost of the key when the key is enabled and priced, and
    nothing otherwise. *)
Lemma extras_loop_lookup days guests items res key :
  NoDup (keys items) →
  extras_loop days guests items ([], S754_zero false) = Ok res →
  dict_get key res.1 =
  if bool_decide ((key, true) ∈ items) then
    match dict_get key EXTRA_PRICING with
    | Some r => match extra_cost r days guests with
                | Ok c => Some (round2 c)
                | Raise _ => None
                end
    | None => None
    end
  else None.
Proof.
  intros Hnd Hl.
  destruct (dict_get key res.1) as [v|] eqn:Hg.
  - destruct (extras_loop_keys _ _ key v _ _ _ Hl Hg) as [Hnil|[Hin [r Hr]]];
      [discriminate|].
    rewrite bool_decide_eq_true_2 by exact Hin. rewrite Hr.
    destruct (extras_loop_records _ _ key r _ _ _ Hnd Hin Hr Hl) as (c & -> & Hc).
    congruence.
  - destruct (bool_decide ((key, true) ∈ items)) eqn:Hin; [|reflexivity].
    apply bool_decide_eq_true in Hin.
    destruct (dict_get key EXTRA_PRICING) as [r|] eqn:Hr; [|reflexivity].
    destruct (extras_loop_records _ _ key r _ _ _ Hnd Hin Hr Hl) as (c & -> & Hc).
    congruence.
Qed.

(** The cost of a catalog extra fails only for snorkel, on the number of
    guests. *)
Lemma extra_cost_Raise key r days guests d e :
  dict_get key EXTRA_PRICING = Some r → of_int days = Some d →
  extra_cost r days guests = Raise e ↔
  key = "snorkel" ∧ of_int guests = None ∧ e = OverflowError.
Proof.
  intros Hr Hd. rewrite (extra_cost_catalog key r days guests Hr).
  unfold mul_int. rewrite Hd.
  destruct (EXTRA_PRICING_cases key r Hr) as [[-> _]|[[-> _]|[-> _]]].
  - change (String.eqb "skipper" "snorkel") with false. cbv iota.
    split; [discriminate | intros ([=] & _)].
  - change (String.eqb "fuel" "snorkel") with false. cbv iota.
    split; [discriminate | intros ([=] & _)].
  - change (String.eqb "snorkel" "snorkel") with true. cbv iota.
    destruct (of_int guests) as [g|]; cbn [mbind result_bind].
    + split; [discriminate | intros (_ & [=] & _)].
    + split; [intros [= <-]; auto | intros (_ & _ & ->); reflexivity].
Qed.

Lemma extras_loop_Raise days guests d e items : ∀ acc,
  of_int days = Some d →
  extras_loop days guests items acc = Raise e ↔
  e = OverflowError ∧ ("snorkel", true) ∈ items ∧ of_int guests = None.
Proof.
  intros acc Hd. split.
  - revert acc. induction items as [|[k enabled] rest IH]; intros acc;
      cbn [extras_loop]; [discriminate|].
    assert (Hweak : e = OverflowError ∧ ("snorkel", true) ∈ rest ∧ of_int guests = None →
              e = OverflowError ∧ ("snorkel", true) ∈ (k, enabled) :: rest ∧
              of_int guests = None).
    { intros (? & ? & ?). repeat split; [assumption | right; assumption | assumption]. }
    destruct enabled; cbn [negb]; [|intros; apply Hweak; eapply IH; eassumption].
    destruct (dict_get k EXTRA_PRICING) as [r|] eqn:Hr;
      [|intros; apply Hweak; eapply IH; eassumption].
    destruct (extra_cost r days guests) as [c|e'] eqn:Hc; cbn [mbind result_bind];
      [intros; apply Hweak; eapply IH; eassumption|].
    intros [= ->]. apply (extra_cost_Raise k r days guests d e Hr Hd) in Hc
      as (-> & Hg & ->).
    repeat split; [left | assumption].
  - intros (-> & Hin & Hg).
    destruct (extras_loop days guests items acc) as [res|e] eqn:Hl.
    + exfalso.
      destruct (proj1 (extras_loop_Ok days guests items acc) ltac:(eauto)
                  "snorkel" _ Hin eq_refl) as [c Hc].
      unfold extra_cost, mul_int in Hc. cbn in Hc. rewrite Hg in Hc. discriminate.
    + f_equal. revert acc Hl.
      induction items as [|[k enabled] rest IH]; intros acc; cbn [extras_loop];
        [discriminate|].
      apply elem_of_cons in Hin as [[= <- <-]|Hin].
      * cbn. unfold mul_int. rewrite Hg. cbn. congruence.
      * destruct (negb enabled); [apply IH, Hin|].
        destruct (dict_get k EXTRA_PRICING) as [r|] eqn:Hr; [|apply IH, Hin].
        destruct (extra_cost r days guests) as [c|e'] eqn:Hc; cbn [mbind result_bind];
          [apply IH, Hin|].
        intros [= ->]. apply (extra_cost_Raise k r days guests d e Hr Hd) in Hc
          as (_ & _ & ->). reflexivity.
Qed.

(** Without snorkel the loop does not look at the number of guests. *)
Lemma extras_loop_guests days guests guests' items : ∀ acc,
  (("snorkel", true) ∈ items → guests = guests') →
  extras_loop days guests items acc = extras_loop days guests' items acc.
Proof.
  induction items as [|[k enabled] rest IH]; intros acc Hs; [reflexivity|].
  cbn [extras_loop].
  assert (Hrest : ("snorkel", true) ∈ rest → guests = guests')
    by (intros Hin; apply Hs; right; exact Hin).
  destruct enabled; cbn [negb]; [|apply IH, Hrest].
  destruct (dict_get k EXTRA_PRICING) as [r|] eqn:Hr; [|apply IH, Hrest].
  assert (Hc : extra_cost r days guests = extra_cost r days guests').
  { rewrite !(extra_cost_catalog k r _ _ Hr).
    destruct (String.eqb_spec k "snorkel") as [->|Hne]; [|reflexivity].
    rewrite (Hs ltac:(left)). reflexivity. }
  rewrite Hc. destruct (extra_cost r days guests'); cbn [mbind result_bind];
    [apply IH, Hrest | reflexivity].
Qed.

(** The keys of the extras map, in order: the priced items of the
    request. *)
Lemma extras_loop_order days guests items : ∀ acc res,
  NoDup (keys items) →
  (∀ k, k ∈ keys items → dict_get k acc.1 = None) →
  extras_loop days guests items acc = Ok res →
  keys res.1 = keys acc.1 ++ keys (List.filter priced items).
Proof.
  induction items as [|[k enabled] rest IH]; intros acc res Hnd Hfresh;
    cbn [extras_loop List.filter].
  - intros [= <-]. cbn. rewrite app_nil_r. reflexivity.
  - cbn [keys map fst] in Hnd, Hfresh. apply NoDup_cons in Hnd as [Hk Hnd].
    assert (Hfresh' : ∀ k', k' ∈ keys rest → dict_get k' acc.1 = None).
    { intros k' Hin. apply Hfresh. right. exact Hin. }
    unfold priced at 1. cbn [fst snd].
    destruct enabled; cbn [negb andb]; [|apply IH; assumption].
    destruct (dict_get k EXTRA_PRICING) as [r|] eqn:Hr.
    + rewrite bool_decide_eq_true_2 by eauto.
      destruct (extra_cost r days guests) as [c|]; cbn [mbind result_bind];
        [|discriminate].
      intros Hl.
      assert (Hf : ∀ k', k' ∈ keys rest →
                dict_get k' (dict_set k (round2 c) acc.1, fadd acc.2 c).1 = None).
      { intros k' Hin. cbn [fst]. rewrite dict_get_set_ne; [apply Hfresh', Hin|].
        intros ->. apply Hk, Hin. }
      rewrite (IH _ _ Hnd Hf Hl).
      cbn [fst]. rewrite dict_set_fresh by (apply Hfresh; left).
      unfold keys. rewrite map_app. cbn [map fst]. rewrite <- app_assoc. reflexivity.
    + rewrite bool_decide_eq_false_2 by (intros [? ?]; discriminate).
      apply IH; assumption.
Qed.

Lemma keys_filter_NoDup {V : Type} (f : string * V → bool) (d : dict V) :
  NoDup (keys d) → NoDup (keys (List.filter f d)).
Proof.
  induction d as [|[k v] d IH]; cbn [keys map fst List.filter]; [constructor|].
  intros Hnd. apply NoDup_cons in Hnd as [Hk Hnd].
  destruct (f (k, v)); [|apply IH, Hnd].
  cbn [map fst]. apply NoDup_cons. split; [|apply IH, Hnd].
  intros Hin. apply Hk. unfold keys in *.
  apply list_elem_of_fmap in Hin as ([k' v'] & -> & Hin).
  apply list_elem_of_fmap. exists (k', v'). split; [reflexivity|].
  apply list_elem_of_In, List.filter_In in Hin as [Hin _].
  apply list_elem_of_In. exact Hin.
Qed.

Lemma priced_keys (items : dict bool) k :
  k ∈ keys (List.filter priced items) → k ∈ keys EXTRA_PRICING.
Proof.
  unfold keys. intros Hin.
  apply list_elem_of_fmap in Hin as ([k' b] & -> & Hin).
  apply list_elem_of_In, List.filter_In in Hin as [_ Hp].
  unfold priced in Hp. cbn [fst snd] in *.
  apply andb_true_iff in Hp as [_ Hp]. apply bool_decide_eq_true in Hp as [r Hr].
  destruct (EXTRA_PRICING_cases k' r Hr) as [[-> _]|[[-> _]|[-> _]]];
    cbn; set_solver.
Qed.

Lemma extra_cost_negative key r days guests c :
  dict_get key EXTRA_PRICING = Some r → 0 ≤ days → 0 ≤ guests →
  extra_cost r days guests = Ok c → negative c = false.
Proof.
  intros Hr Hd Hg. rewrite (extra_cost_catalog key r days guests Hr).
  assert (Ha : negative (amount r) = false).
  { destruct (EXTRA_PRICING_cases key r Hr) as [[_ ->]|[[_ ->]|[_ ->]]]; reflexivity. }
  destruct (String.eqb key "snorkel").
  - destruct (mul_int (amount r) guests) as [c1|] eqn:H1; [|discriminate].
    cbn [mbind result_bind]. apply mul_int_negative; [|exact Hd].
    exact (mul_int_negative _ _ _ Ha Hg H1).
  - apply mul_int_negative; assumption.
Qed.

Lemma extras_loop_negative days guests items : ∀ acc res,
  0 ≤ days → 0 ≤ guests →
  Forall (λ kv, negative kv.2 = false) acc.1 → negative acc.2 = false →
  extras_loop days guests items acc = Ok res →
  Forall (λ kv, negative kv.2 = false) res.1 ∧ negative res.2 = false.
Proof.
  induction items as [|[k enabled] rest IH]; intros acc res Hd Hg Hm Ht;
    cbn [extras_loop].
  - intros [= <-]. auto.
  - destruct (negb enabled); [apply IH; assumption|].
    destruct (dict_get k EXTRA_PRICING) as [r|] eqn:Hr; [|apply IH; assumption].
    destruct (extra_cost r days guests) as [c|] eqn:Hc; cbn [mbind result_bind];
      [|discriminate].
    pose proof (extra_cost_negative k r days guests c Hr Hd Hg Hc) as Hneg.
    apply IH; try assumption; cbn [fst snd].
    + apply dict_set_Forall; [exact Hm|]. cbn [snd]. apply round2_negative, Hneg.
    + apply fadd_negative; assumption.
Qed.

(** ** Magnitudes

    How far the float operations of [compute_quote] can grow their
    operands: one binade for a product or a rounding, two for a sum,
    eight for [round(x, 2)]. *)

Lemma below_finite K x : below K x → is_finite x = true.
Proof. destruct x; cbn; tauto. Qed.

Lemma below_mono K K' x : K ≤ K' → below K x → below K' x.
Proof. destruct x; cbn; try tauto. lia. Qed.

Lemma digits2_le p t : Zpos p < 2 ^ t → Zpos (digits2_pos p) ≤ t.
Proof.
  intros Hp. pose proof (digits2_bounds p) as [HB _].
  destruct (Z.le_gt_cases (Zpos (digits2_pos p)) t); [assumption|exfalso].
  destruct (Z.le_gt_cases 0 t) as [Ht|Ht].
  - assert (2 ^ t ≤ 2 ^ (Zpos (digits2_pos p) - 1)) by (apply Z.pow_le_mono_r; lia). lia.
  - rewrite Z.pow_neg_r in Hp by lia. lia.
Qed.

Lemma Zdigits2_le M t : 0 ≤ M < 2 ^ t → 0 ≤ t → Zdigits2 M ≤ t.
Proof.
  intros HM Ht. destruct M as [|p|p]; try lia; cbn [Zdigits2]; [lia|].
  apply digits2_le. lia.
Qed.

(** The first half of [binary_round_aux]: the mantissa is cut to 53 bits
    at most, at an exponent in range, and does not grow. *)
Lemma shr_fexp_spec M E l :
  0 < M →
  ∃ mrs e', shr_fexp prec emax M E l = (mrs, e') ∧
    0 ≤ shr_m mrs < 2 ^ 53 ∧ emin prec emax ≤ e' ∧ E ≤ e' ∧
    e' ≤ Z.max E (Zdigits2 M + E - prec) `max` emin prec emax ∧
    shr_m mrs * 2 ^ (e' - E) ≤ M.
Proof.
  intros HM. destruct M as [|p|p]; try lia. cbn [Zdigits2].
  pose proof (digits2_bounds p) as HB.
  set (d := Zpos (digits2_pos p)) in *.
  unfold shr_fexp. cbn [Zdigits2]. fold d.
  set (k := fexp prec emax (d + E) - E).
  destruct (Z.le_gt_cases k 0) as [Hk|Hk].
  - assert (Hshr : shr (shr_record_of_loc (Zpos p) l) E k = (shr_record_of_loc (Zpos p) l, E)).
    { destruct k; try lia; reflexivity. }
    rewrite Hshr. eexists _, _. split; [reflexivity|].
    rewrite shr_record_of_loc_m.
    assert (Hd : d ≤ 53 ∧ emin prec emax ≤ E) by (unfold k, fexp, emin, prec, emax in *; lia).
    split; [split; [lia|]|].
    { apply Z.lt_le_trans with (1 := proj2 HB). apply Z.pow_le_mono_r; lia. }
    split; [lia|]. split; [lia|]. split; [lia|].
    rewrite Z.sub_diag. lia.
  - destruct (shr_spec (shr_record_of_loc (Zpos p) l) E k) as [He Hm];
      [rewrite shr_record_of_loc_m; lia | lia |].
    destruct (shr (shr_record_of_loc (Zpos p) l) E k) as [mrs e'].
    cbn [fst snd] in He, Hm. rewrite shr_record_of_loc_m in Hm.
    eexists _, _. split; [reflexivity|]. subst e'. rewrite Hm.
    assert (H2k : 0 < 2 ^ k) by (apply Z.pow_pos_nonneg; lia).
    assert (Hkd : d - 53 ≤ k) by (unfold k, fexp, emin, prec, emax in *; lia).
    split; [split|].
    + apply Z.div_pos; lia.
    + apply Z.div_lt_upper_bound; [lia|].
      rewrite <- Z.pow_add_r by lia.
      apply Z.lt_le_trans with (1 := proj2 HB). apply Z.pow_le_mono_r; lia.
    + split; [unfold k, fexp, emin, prec, emax in *; lia|]. split; [lia|].
      split; [unfold k, fexp, emin, prec, emax in *; lia|].
      replace (E + k - E) with k by lia. rewrite Z.mul_comm. apply Z.mul_div_le. lia.
Qed.

Lemma shr_fexp_zero e :
  emin prec emax ≤ e →
  shr_fexp prec emax 0 e loc_Exact = (shr_record_of_loc 0 loc_Exact, e).
Proof.
  intros He. unfold shr_fexp. cbn [Zdigits2].
  assert (Hk : fexp prec emax (0 + e) - e ≤ 0) by (unfold fexp, emin, prec, emax in *; lia).
  destruct (fexp prec emax (0 + e) - e); try lia; reflexivity.
Qed.

Lemma shr_fexp_fits p e :
  emin prec emax ≤ e → Zpos (digits2_pos p) ≤ prec →
  shr_fexp prec emax (Zpos p) e loc_Exact = (shr_record_of_loc (Zpos p) loc_Exact, e).
Proof.
  intros He Hd. unfold shr_fexp. cbn [Zdigits2].
  assert (Hk : fexp prec emax (Zpos (digits2_pos p) + e) - e ≤ 0)
    by (unfold fexp, emin, prec, emax in *; lia).
  destruct (fexp prec emax (Zpos (digits2_pos p) + e) - e); try lia; reflexivity.
Qed.

(** Rounding keeps the magnitude within one more binade, and within the
    range of the finite doubles when it started there. *)
Lemma binary_round_aux_below s M E l K :
  0 < M → Zdigits2 M + E ≤ K → E ≤ K → emin prec emax ≤ K ≤ emax - prec →
  below (K + 1) (binary_round_aux prec emax s M E l).
Proof.
  intros HM HK HE HKr.
  destruct (shr_fexp_spec M E l HM) as (mrs & e' & Hs & Hm & He1 & He2 & He3 & Hle).
  unfold binary_round_aux. rewrite Hs.
  assert (HeK : e' ≤ K) by (unfold prec in *; lia).
  assert (Hdig : 0 < shr_m mrs → Zdigits2 (shr_m mrs) + e' ≤ K).
  { intros Hpos. destruct M as [|p|p]; try lia. cbn [Zdigits2] in *.
    pose proof (digits2_bounds p) as HB. set (d := Zpos (digits2_pos p)) in *.
    set (k := e' - E) in *.
    assert (H2k : 0 < 2 ^ k) by (apply Z.pow_pos_nonneg; lia).
    destruct (Z.le_gt_cases d k) as [Hdk|Hdk].
    - assert (2 ^ d ≤ 2 ^ k) by (apply Z.pow_le_mono_r; lia). nia.
    - assert (Hsplit : 2 ^ d = 2 ^ (d - k) * 2 ^ k).
      { rewrite <- Z.pow_add_r by lia. f_equal. lia. }
      assert (shr_m mrs < 2 ^ (d - k)) by nia.
      assert (Zdigits2 (shr_m mrs) ≤ d - k) by (apply Zdigits2_le; lia).
      lia. }
  set (m1 := round_nearest_even (shr_m mrs) (loc_of_shr_record mrs)).
  assert (H1 : m1 = shr_m mrs ∨ m1 = shr_m mrs + 1) by apply round_nearest_even_cases.
  clearbody m1. destruct m1 as [|p1|p1]; try lia.
  - rewrite shr_fexp_zero by assumption. cbn. exact I.
  - destruct (Z.eq_dec (Zpos p1) (2 ^ 53)) as [Hc|Hc].
    + assert (Hp1 : p1 = (2 ^ 53)%positive) by (apply Pos2Z.inj; exact Hc).
      subst p1. unfold shr_fexp. cbn [Zdigits2].
      change (Zpos (digits2_pos (2 ^ 53))) with 54.
      replace (fexp prec emax (54 + e') - e') with 1
        by (unfold fexp, emin, prec, emax in *; lia).
      change (shr (shr_record_of_loc (Zpos (2 ^ 53)) loc_Exact) e' 1)
        with ({| shr_m := Zpos (2 ^ 52); shr_r := false; shr_s := false |}, e' + 1).
      cbn [shr_m].
      assert (Hm' : shr_m mrs = 2 ^ 53 - 1) by lia.
      assert (Hd' : Zdigits2 (shr_m mrs) = 53) by (rewrite Hm'; reflexivity).
      specialize (Hdig ltac:(lia)). rewrite Hd' in Hdig.
      destruct (Z.leb_spec (e' + 1) (emax - prec)); [|unfold prec, emax in *; lia].
      cbn [below]. change (Zpos (digits2_pos (2 ^ 52))) with 53. lia.
    + assert (Hp : Zpos p1 < 2 ^ 53) by lia.
      assert (Hd1 : Zpos (digits2_pos p1) ≤ 53) by (apply digits2_le; exact Hp).
      rewrite shr_fexp_fits by (unfold prec; assumption).
      cbn [shr_record_of_loc shr_m].
      destruct (Z.leb_spec e' (emax - prec)); [|lia].
      cbn [below].
      destruct (Z.eq_dec (shr_m mrs) 0) as [H0|H0].
      * assert (p1 = 1%positive) by lia. subst p1. cbn. lia.
      * specialize (Hdig ltac:(lia)).
        destruct (shr_m mrs) as [|q|q] eqn:Hq; try lia. cbn [Zdigits2] in Hdig.
        pose proof (digits2_bounds q) as HBq.
        assert (Zpos (digits2_pos p1) ≤ Zpos (digits2_pos q) + 1).
        { apply digits2_le. rewrite Z.pow_add_r by lia. lia. }
        lia.
Qed.


Lemma fmul_below a b x y :
  below a x → below b y → emin prec emax ≤ a + b ≤ emax - prec →
  below (a + b + 1) (fmul x y).
Proof.
  destruct x as [sx|sx| |sx mx ex], y as [sy|sy| |sy my ey]; cbn [below];
    try tauto; try (intros; exact I).
  intros Hx Hy HK. unfold fmul, SFmul.
  pose proof (digits2_bounds mx) as Bx. pose proof (digits2_bounds my) as By.
  apply binary_round_aux_below; try lia; try assumption.
  cbn [Zdigits2].
  assert (Zpos (digits2_pos (mx * my)) ≤ Zpos (digits2_pos mx) + Zpos (digits2_pos my)).
  { apply digits2_le. rewrite Z.pow_add_r by lia. rewrite Pos2Z.inj_mul. nia. }
  lia.
Qed.

Lemma binary_round_below s p e K :
  Zpos (digits2_pos p) + e ≤ K → emin prec emax ≤ K ≤ emax - prec →
  below (K + 1) (binary_round prec emax s p e).
Proof.
  intros Hp HK. unfold binary_round, shl_align.
  set (f := fexp prec emax (Zpos (digits2_pos p) + e)).
  pose proof (digits2_bounds p) as HB.
  destruct (f - e) as [|d|d] eqn:Hd.
  - apply binary_round_aux_below; cbn [Zdigits2]; lia.
  - apply binary_round_aux_below; cbn [Zdigits2]; lia.
  - apply binary_round_aux_below; try lia; cbn [Zdigits2].
    rewrite (digits2_shift p (Zpos d) ltac:(lia) (Pos.iter xO p d)); [lia|].
    apply iter_xO.
Qed.

Lemma fadd_below a x y :
  below a x → below a y → emin prec emax ≤ a + 1 ≤ emax - prec →
  below (a + 2) (fadd x y).
Proof.
  intros Hx Hy HK.
  destruct x as [sx|sx| |sx mx ex], y as [sy|sy| |sy my ey]; cbn [below] in Hx, Hy;
    try tauto; unfold fadd, SFadd.
  - destruct sx, sy; exact I.
  - cbn [below]. lia.
  - cbn [below]. lia.
  - pose proof (digits2_bounds mx) as Bx. pose proof (digits2_bounds my) as By.
    set (ez := Z.min ex ey).
    pose proof (shl_align_fst mx ex ez ltac:(lia)) as Hmx.
    pose proof (shl_align_fst my ey ez ltac:(lia)) as Hmy.
    set (X := Zpos (shl_align mx ex ez).1) in *.
    set (Y := Zpos (shl_align my ey ez).1) in *.
    assert (Hb : ∀ m e, Zpos m < 2 ^ Zpos (digits2_pos m) →
               Zpos (digits2_pos m) + e ≤ a → ez ≤ e →
               Zpos m * 2 ^ (e - ez) < 2 ^ (a - ez)).
    { intros m e Hm Hma Hez.
      assert (0 < 2 ^ (e - ez)) by (apply Z.pow_pos_nonneg; lia).
      apply Z.lt_le_trans with (2 ^ Zpos (digits2_pos m) * 2 ^ (e - ez)); [nia|].
      rewrite <- Z.pow_add_r by lia. apply Z.pow_le_mono_r; lia. }
    assert (HX : 0 < X < 2 ^ (a - ez)).
    { split; [unfold X; lia|]. rewrite Hmx. apply Hb; [apply Bx | lia | lia]. }
    assert (HY : 0 < Y < 2 ^ (a - ez)).
    { split; [unfold Y; lia|]. rewrite Hmy. apply Hb; [apply By | lia | lia]. }
    clearbody X Y.
    assert (HS : Z.abs (cond_Zopp sx X + cond_Zopp sy Y) < 2 ^ (a - ez + 1)).
    { rewrite Z.pow_add_r by lia. destruct sx, sy; cbn [cond_Zopp]; lia. }
    unfold binary_normalize.
    destruct (cond_Zopp sx X + cond_Zopp sy Y) as [|p|p]; [exact I| |];
      replace (a + 2) with (a + 1 + 1) by lia;
      (apply binary_round_below; [|lia]);
      assert (Zpos (digits2_pos p) ≤ a - ez + 1) by (apply digits2_le; lia); lia.
Qed.

(** The double nearest to [n] hundredths is below [2^K] when [n] is. *)
Lemma nearest_below s n K :
  Zpos n < 2 ^ K → emin prec emax ≤ K ≤ emax - prec →
  below (K + 1) (nearest s n 100).
Proof.
  intros Hn HK. unfold nearest, SFdiv, SFdiv_core_binary.
  set (dn := Zdigits2 (Zpos n)). change (Zdigits2 100) with 7.
  pose proof (digits2_bounds n) as HB. change (Zpos (digits2_pos n)) with dn in HB.
  assert (HK0 : 0 ≤ K).
  { destruct (Z.le_gt_cases 0 K); [assumption|]. rewrite Z.pow_neg_r in Hn; lia. }
  assert (Hdn : 1 ≤ dn ≤ K).
  { split; [unfold dn; cbn; lia|]. apply digits2_le. exact Hn. }
  set (e' := Z.min (fexp prec emax (dn + 0 - (7 + 0))) (0 - 0)).
  assert (He' : e' ≤ 0 ∧ (dn ≤ 7 → e' = dn - 60)) by (unfold e', fexp, emin, prec, emax; lia).
  replace (0 - 0 - e') with (- e') by lia.
  assert (Hm' : match - e' with
                | Zpos _ => Z.shiftl (Zpos n) (- e')
                | Z0 => Zpos n
                | Zneg _ => 0
                end = Zpos n * 2 ^ (- e')).
  { destruct (- e') eqn:E; try lia.
    rewrite Z.shiftl_mul_pow2 by lia. reflexivity. }
  rewrite Hm'.
  assert (H2 : 0 < 2 ^ (- e')) by (apply Z.pow_pos_nonneg; lia).
  assert (Hlow : 100 ≤ Zpos n * 2 ^ (- e')).
  { destruct (Z.le_gt_cases dn 7) as [Hs|Hl].
    - destruct He' as [_ He']. rewrite (He' Hs).
      assert (2 ^ 53 ≤ 2 ^ (- (dn - 60))) by (apply Z.pow_le_mono_r; lia).
      change (2 ^ 53) with 9007199254740992 in *. nia.
    - assert (2 ^ 7 ≤ 2 ^ (dn - 1)) by (apply Z.pow_le_mono_r; lia).
      change (2 ^ 7) with 128 in *. nia. }
  assert (Hup : Zpos n * 2 ^ (- e') < 2 ^ (dn - e')).
  { replace (dn - e') with (dn + - e') by lia. rewrite Z.pow_add_r by lia. nia. }
  remember (Zpos n * 2 ^ (- e')) as N eqn:EN.
  pose proof (Z_div_mod_eq_full N 100) as Hdiv.
  pose proof (Z.mod_pos_bound N 100 ltac:(lia)) as Hmod.
  unfold Z.div, Z.modulo in Hdiv, Hmod.
  destruct (Z.div_eucl N 100) as [q r].
  assert (Hq : 0 < q < 2 ^ (dn - e')) by lia.
  apply binary_round_aux_below; try lia.
  assert (Zdigits2 q ≤ dn - e') by (apply Zdigits2_le; lia). lia.
Qed.

Lemma cents_below K s m e :
  below K (S754_finite s m e) → 0 ≤ K → 0 ≤ cents m e < 2 ^ (K + 7).
Proof.
  cbn [below]. intros Hx HK.
  pose proof (digits2_bounds m) as HB. set (d := Zpos (digits2_pos m)) in *.
  rewrite Z.pow_add_r by lia. change (2 ^ 7) with 128.
  assert (H2K : 0 < 2 ^ K) by (apply Z.pow_pos_nonneg; lia).
  unfold cents. destruct e as [|p|p].
  - assert (2 ^ d ≤ 2 ^ K) by (apply Z.pow_le_mono_r; lia). cbn. lia.
  - assert (0 < 2 ^ Zpos p) by (apply Z.pow_pos_nonneg; lia).
    assert (2 ^ d * 2 ^ Zpos p ≤ 2 ^ K).
    { rewrite <- Z.pow_add_r by lia. apply Z.pow_le_mono_r; lia. }
    nia.
  - assert (Hp : 0 < 2 ^ Zpos p) by (apply Z.pow_pos_nonneg; lia).
    assert (Hm : Zpos m < 2 ^ K * 2 ^ Zpos p).
    { apply Z.lt_le_trans with (1 := proj2 HB).
      rewrite <- Z.pow_add_r by lia. apply Z.pow_le_mono_r; lia. }
    pose proof (rne_div_floor (Zpos m * 100) (2 ^ Zpos p) Hp) as Hfl.
    pose proof (rne_div_error (Zpos m * 100) (2 ^ Zpos p) Hp) as Herr.
    assert (0 ≤ Zpos m * 100 / 2 ^ Zpos p) by (apply Z.div_pos; lia).
    split; [lia|]. nia.
Qed.

(** [round(x, 2)] of a float below [2^K] is finite and below [2^(K+8)]. *)
Lemma round2_below K x :
  below K x → 0 ≤ K → K + 7 ≤ emax - prec → below (K + 8) (round2 x).
Proof.
  intros Hx HK HKr. destruct x as [s|s| |s m e]; cbn [below] in Hx; try tauto.
  cbn [round2]. pose proof (cents_below K s m e Hx HK) as Hc.
  destruct (cents m e) as [|n|n]; try lia; cbn [of_cents]; [exact I|].
  replace (K + 8) with (K + 7 + 1) by lia.
  apply nearest_below; [lia|]. unfold emin, prec, emax in *. lia.
Qed.

Lemma of_int_below z f K :
  0 ≤ z < 2 ^ K → 0 ≤ K ≤ emax - prec → of_int z = Some f → below (K + 1) f.
Proof.
  intros Hz HK. unfold of_int, binary_normalize.
  destruct z as [|p|p]; try lia.
  - intros [= <-]. exact I.
  - assert (Hb : below (K + 1) (binary_round prec emax false p 0)).
    { apply binary_round_below; [|unfold emin, prec, emax in *; lia].
      assert (Zpos (digits2_pos p) ≤ K) by (apply digits2_le; lia). lia. }
    destruct (binary_round prec emax false p 0); cbn [below] in Hb; try tauto;
      intros [= <-]; cbn [below]; auto.
Qed.

Lemma mul_int_below a K x n c :
  below a x → 0 ≤ n < 2 ^ K → 0 ≤ K ≤ emax - prec →
  emin prec emax ≤ a + K + 1 ≤ emax - prec →
  mul_int x n = Ok c → below (a + K + 2) c.
Proof.
  unfold mul_int. intros Hx Hn HK Hr.
  destruct (of_int n) as [y|] eqn:Hy; [|discriminate].
  intros Hc. replace c with (fmul x y) by congruence.
  replace (a + K + 2) with (a + (K + 1) + 1) by lia.
  apply fmul_below; [exact Hx | | lia].
  exact (of_int_below n y K Hn HK Hy).
Qed.

Lemma amount_below key r :
  dict_get key EXTRA_PRICING = Some r → below 8 (amount r).
Proof.
  intros Hr.
  destruct (EXTRA_PRICING_cases key r Hr) as [[_ ->]|[[_ ->]|[_ ->]]];
    vm_compute; discriminate.
Qed.

(** The cost of an extra for at most [2^22] days and [2^26] guests. *)
Lemma extra_cost_below key r days guests c :
  dict_get key EXTRA_PRICING = Some r →
  0 ≤ days < 2 ^ 22 → 0 ≤ guests < 2 ^ 26 →
  extra_cost r days guests = Ok c → below 60 c.
Proof.
  intros Hr Hd Hg. rewrite (extra_cost_catalog key r days guests Hr).
  pose proof (amount_below key r Hr) as Ha.
  destruct (String.eqb key "snorkel").
  - destruct (mul_int (amount r) guests) as [c1|] eqn:H1; [|discriminate].
    cbn [mbind result_bind]. intros H2.
    assert (B1 : below (8 + 26 + 2) c1).
    { apply (mul_int_below 8 26 (amount r) guests c1 Ha Hg); [unfold prec, emax; lia| |exact H1].
      unfold emin, prec, emax. lia. }
    apply (mul_int_below (8 + 26 + 2) 22 c1 days c B1 Hd); [unfold prec, emax; lia| |exact H2].
    unfold emin, prec, emax. lia.
  - intros H2. apply (below_mono (8 + 22 + 2)); [lia|].
    apply (mul_int_below 8 22 (amount r) days c Ha Hd); [unfold prec, emax; lia| |exact H2].
    unfold emin, prec, emax. lia.
Qed.

Lemma extras_loop_finite days guests items : ∀ acc res,
  0 ≤ days < 2 ^ 22 → 0 ≤ guests < 2 ^ 26 →
  Forall (λ kv, is_finite kv.2 = true) acc.1 →
  extras_loop days guests items acc = Ok res →
  Forall (λ kv, is_finite kv.2 = true) res.1.
Proof.
  induction items as [|[k enabled] rest IH]; intros acc res Hd Hg Hm;
    cbn [extras_loop].
  - intros [= <-]. auto.
  - destruct (negb enabled); [apply IH; assumption|].
    destruct (dict_get k EXTRA_PRICING) as [r|] eqn:Hr; [|apply IH; assumption].
    destruct (extra_cost r days guests) as [c|] eqn:Hc; cbn [mbind result_bind];
      [|discriminate].
    pose proof (extra_cost_below k r days guests c Hr Hd Hg Hc) as Hb.
    apply IH; try assumption; cbn [fst snd].
    apply dict_set_Forall; [exact Hm|]. cbn [snd].
    apply (below_finite (60 + 8)), round2_below; [exact Hb|lia|].
    unfold prec, emax. lia.
Qed.

Lemma whole_extras_bound days guests selection :
  0 ≤ days → 0 ≤ guests →
  0 ≤ whole_extras days guests selection ≤ 230 * days + 20 * guests * days.
Proof.
  intros Hd Hg. unfold whole_extras.
  repeat match goal with |- context [bool_decide ?P] => destruct (bool_decide P) end; nia.
Qed.

(** ** [compute_quote]: failures, inputs and exact amounts *)

Section QuoteFacts.

Context {oid : Type}.
Variable float_of_string : string → option float.

Abbreviation rate_card boat key default :=
  (py_float float_of_string (get boat key default)).

(** A run of [compute_quote] put together from its steps. *)
Lemma compute_quote_locals_intro (boat : dict (pyval oid)) start end_ guests
    selection base_daily cleaning tax_rate base_cost emap etot :
  1 ≤ sub_days end_ start →
  rate_card boat "base_price_per_day" (VInt 0) = Ok base_daily →
  rate_card boat "cleaning_fee" (VFloat (S754_zero false)) = Ok cleaning →
  rate_card boat "tax_rate" (VFloat (S754_zero false)) = Ok tax_rate →
  mul_int base_daily (sub_days end_ start) = Ok base_cost →
  extras_loop (sub_days end_ start) guests selection ([], S754_zero false)
    = Ok (emap, etot) →
  compute_quote_locals float_of_string boat start end_ guests selection =
  let subtotal := fadd (fadd (round2 base_cost) etot) (round2 cleaning) in
  let b_tax := round2 (fmul subtotal tax_rate) in
  Ok ({| nights := sub_days end_ start;
         base := round2 base_cost;
         extras := emap;
         cleaning_fee := round2 cleaning;
         tax := b_tax;
         total := round2 (fadd subtotal b_tax);
         currency := "USD";
         transparent := true;
         notes := "Prices include all fees and taxes. No hidden fees." |},
      (etot, subtotal)).
Proof.
  intros Hd H1 H2 H3 H4 H5. unfold compute_quote_locals, date_range_days.
  destruct (Z.ltb_spec (sub_days end_ start) 1); [lia|].
  cbn [mbind result_bind]. rewrite H1. cbn [mbind result_bind].
  rewrite H2. cbn [mbind result_bind]. rewrite H3. cbn [mbind result_bind].
  rewrite H4. cbn [mbind result_bind]. rewrite H5. reflexivity.
Qed.

(** X1.  The failures of [compute_quote], in the order it meets them:
    the date error when the dates are less than a day apart; otherwise the
    error of [float] on [base_price_per_day], then on [cleaning_fee], then
    on [tax_rate] (a [TypeError] for a field that holds [None], a list, a
    dict or an identifier, a [ValueError] for a string that is no
    numeral, an [OverflowError] for an int beyond the floats); otherwise an
    [OverflowError] when the number of days has no float or when snorkel
    is enabled and the number of guests has no float.  It fails in no
    other case. *)
Theorem compute_quote_failures (boat : dict (pyval oid)) start end_ guests
    selection e :
  compute_quote float_of_string boat start end_ guests selection = Raise e ↔
  (sub_days end_ start < 1 ∧ e = InvalidDateRange) ∨
  (1 ≤ sub_days end_ start ∧
   (rate_card boat "base_price_per_day" (VInt 0) = Raise e ∨
    ∃ base_daily, rate_card boat "base_price_per_day" (VInt 0) = Ok base_daily ∧
     (rate_card boat "cleaning_fee" (VFloat (S754_zero false)) = Raise e ∨
      ∃ fee, rate_card boat "cleaning_fee" (VFloat (S754_zero false)) = Ok fee ∧
       (rate_card boat "tax_rate" (VFloat (S754_zero false)) = Raise e ∨
        ∃ tax_rate,
          rate_card boat "tax_rate" (VFloat (S754_zero false)) = Ok tax_rate ∧
          e = OverflowError ∧
          (of_int (sub_days end_ start) = None ∨
           (("snorkel", true) ∈ selection ∧ of_int guests = None)))))).
Proof.
  unfold compute_quote, compute_quote_locals, date_range_days.
  destruct (Z.ltb_spec (sub_days end_ start) 1) as [Hlt|Hge]; cbn [mbind result_bind fmap result_fmap].
  { split; [intros [= <-]; left; auto | intros [[_ ->]|[? _]]; [reflexivity|lia]]. }
  set (days := sub_days end_ start) in *.
  destruct (rate_card boat "base_price_per_day" (VInt 0)) as [b|eb];
    cbn [mbind result_bind fmap result_fmap].
  2:{ split.
      - intros [= <-]. right. split; [assumption|]. left. reflexivity.
      - intros [[? _]|[_ [[= ->]|(? & [=] & _)]]]; [lia|reflexivity]. }
  destruct (rate_card boat "cleaning_fee" (VFloat (S754_zero false))) as [c|ec];
    cbn [mbind result_bind fmap result_fmap].
  2:{ split.
      - intros [= <-]. right. split; [assumption|]. right. exists b. split; [reflexivity|].
        left. reflexivity.
      - intros [[? _]|[_ [[=]|(? & _ & [[= ->]|(? & [=] & _)])]]]; [lia|reflexivity]. }
  destruct (rate_card boat "tax_rate" (VFloat (S754_zero false))) as [t|et];
    cbn [mbind result_bind fmap result_fmap].
  2:{ split.
      - intros [= <-]. right. split; [assumption|]. right. exists b. split; [reflexivity|].
        right. exists c. split; [reflexivity|]. left. reflexivity.
      - intros [[? _]|[_ [[=]|(? & _ & [[=]|(? & _ & [[= ->]|(? & [=] & _)])])]]];
          [lia|reflexivity]. }
  assert (Hshape : ∀ P : Prop,
    ((days < 1 ∧ e = InvalidDateRange) ∨
     (1 ≤ days ∧
      (Ok b = Raise e ∨
       ∃ b', Ok b = Ok b' ∧
        (Ok c = Raise e ∨
         ∃ c', Ok c = Ok c' ∧
          (Ok t = Raise e ∨ ∃ t', Ok t = Ok t' ∧ P))))) ↔ P).
  { intros P. split.
    - intros [[? _]|[_ [[=]|(? & _ & [[=]|(? & _ & [[=]|(? & _ & HP)])])]]];
        [lia|exact HP].
    - intros HP. right. split; [assumption|]. right. exists b. split; [reflexivity|].
      right. exists c. split; [reflexivity|]. right. exists t. split; [reflexivity|].
      exact HP. }
  rewrite Hshape. clear Hshape.
  unfold mul_int at 1.
  destruct (of_int days) as [d|] eqn:Hd; cbn [mbind result_bind fmap result_fmap].
  2:{ split; [intros [= <-]; auto | intros [-> _]; reflexivity]. }
  destruct (extras_loop days guests selection ([], S754_zero false)) as [[em et']|e']
    eqn:Hloop; cbn [mbind result_bind fmap result_fmap].
  - split; [discriminate|]. intros (-> & [[=]|[Hin Hg]]).
    assert (Hr : extras_loop days guests selection ([], S754_zero false)
                 = Raise OverflowError).
    { apply (extras_loop_Raise days guests d); auto. }
    congruence.
  - apply (extras_loop_Raise days guests d) in Hloop as (-> & Hin & Hg); [|exact Hd].
    split; [intros [= <-]; auto | intros [-> _]; reflexivity].
Qed.

(** X2.  On calendar dates with the end after the start, rate fields that
    convert to floats and a number of guests from 0 to below [2^1023],
    [compute_quote] returns a breakdown, with at least 1 and at most
    3652058 nights. *)
Theorem compute_quote_succeeds (boat : dict (pyval oid)) start end_ guests
    selection base_daily fee tax_rate :
  valid start → valid end_ → lt start end_ →
  rate_card boat "base_price_per_day" (VInt 0) = Ok base_daily →
  rate_card boat "cleaning_fee" (VFloat (S754_zero false)) = Ok fee →
  rate_card boat "tax_rate" (VFloat (S754_zero false)) = Ok tax_rate →
  0 ≤ guests < 2 ^ 1023 →
  ∃ bd, compute_quote float_of_string boat start end_ guests selection = Ok bd ∧
        1 ≤ nights bd ≤ 3652058.
Proof.
  intros V1 V2 Hlt H1 H2 H3 Hg.
  assert (Hd : 1 ≤ sub_days end_ start).
  { apply (toordinal_lt_iff start end_ V1 V2) in Hlt. unfold sub_days. lia. }
  destruct (days_convert start end_ V1 V2 Hd) as (m & e & Hdays).
  destruct (of_int_in_range guests Hg) as [g Hguests].
  destruct (compute_quote_returns float_of_string boat start end_ guests selection
              base_daily fee tax_rate _ g Hd H1 H2 H3 Hdays Hguests) as [bd Hq].
  exists bd. split; [exact Hq|].
  destruct (compute_quote_Ok float_of_string _ _ _ _ _ _ Hq) as (et & sub & Hl).
  pose proof (compute_quote_locals_Ok float_of_string _ _ _ _ _ _ _ _ Hl) as H0. cbv zeta in H0.
  destruct H0 as (? & ? & ? & ? & _ & _ & _ & _ & _ & _ & _ & Hn & _).
  rewrite Hn. pose proof (toordinal_range start V1). pose proof (toordinal_range end_ V2).
  unfold sub_days in *. lia.
Qed.

(** X3.  With snorkel enabled, a number of guests from [2^1024] on makes
    [compute_quote] raise [OverflowError] ([20.0 * guests] converts the
    int to a float), whatever the boat and the dates are worth. *)
Theorem huge_party_overflows (boat : dict (pyval oid)) start end_ guests
    selection base_daily fee tax_rate :
  valid start → valid end_ → lt start end_ →
  rate_card boat "base_price_per_day" (VInt 0) = Ok base_daily →
  rate_card boat "cleaning_fee" (VFloat (S754_zero false)) = Ok fee →
  rate_card boat "tax_rate" (VFloat (S754_zero false)) = Ok tax_rate →
  2 ^ 1024 ≤ guests →
  ("snorkel", true) ∈ selection →
  compute_quote float_of_string boat start end_ guests selection
    = Raise OverflowError.
Proof.
  intros V1 V2 Hlt H1 H2 H3 Hg Hin.
  assert (Hd : 1 ≤ sub_days end_ start).
  { apply (toordinal_lt_iff start end_ V1 V2) in Hlt. unfold sub_days. lia. }
  destruct (days_convert start end_ V1 V2 Hd) as (m & e & Hdays).
  unfold compute_quote, compute_quote_locals, date_range_days.
  destruct (Z.ltb_spec (sub_days end_ start) 1); [lia|].
  cbn [mbind result_bind]. rewrite H1. cbn [mbind result_bind].
  rewrite H2. cbn [mbind result_bind]. rewrite H3. cbn [mbind result_bind].
  unfold mul_int at 1. rewrite Hdays. cbn [mbind result_bind].
  rewrite (proj2 (extras_loop_Raise _ guests _ OverflowError selection
                    ([], S754_zero false) Hdays)).
  - reflexivity.
  - split; [reflexivity|]. split; [exact Hin|]. apply of_int_overflow, Hg.
Qed.

(** X4.  [compute_quote] reads three fields of the boat record and
    nothing else of it, and reads the number of guests only when snorkel
    is enabled: two records that agree on [base_price_per_day],
    [cleaning_fee] and [tax_rate] get the same breakdown, the same locals
    and the same errors, for any two numbers of guests if snorkel is not
    enabled. *)
Theorem quote_reads_rates_only (boat boat' : dict (pyval oid)) start end_
    guests guests' selection :
  dict_get "base_price_per_day" boat = dict_get "base_price_per_day" boat' →
  dict_get "cleaning_fee" boat = dict_get "cleaning_fee" boat' →
  dict_get "tax_rate" boat = dict_get "tax_rate" boat' →
  (("snorkel", true) ∈ selection → guests = guests') →
  compute_quote_locals float_of_string boat start end_ guests selection =
  compute_quote_locals float_of_string boat' start end_ guests' selection.
Proof.
  intros H1 H2 H3 Hg. unfold compute_quote_locals, get.
  rewrite H1, H2, H3.
  destruct (date_range_days start end_) as [days|]; cbn [mbind result_bind]; [|reflexivity].
  rewrite (extras_loop_guests days guests guests' selection _ Hg). reflexivity.
Qed.

(** X5.  Every breakdown has at least one night, the currency USD, the
    transparent flag and the fixed note; on a request with distinct keys
    its extras map lists the enabled extras of the catalog, in the order of
    the request and once each, so at most three of them. *)
Theorem breakdown_invariants (boat : dict (pyval oid)) start end_ guests
    selection bd :
  well_formed selection →
  compute_quote float_of_string boat start end_ guests selection = Ok bd →
  1 ≤ nights bd ∧
  currency bd = "USD" ∧ transparent bd = true ∧
  notes bd = "Prices include all fees and taxes. No hidden fees." ∧
  keys (extras bd) = keys (List.filter priced selection) ∧
  well_formed (extras bd) ∧
  (∀ key, key ∈ keys (extras bd) → key ∈ keys EXTRA_PRICING) ∧
  (length (extras bd) ≤ 3)%nat.
Proof.
  intros Hwf Hq.
  assert (Hk : keys (extras bd) = keys (List.filter priced selection) ∧
               1 ≤ nights bd).
  { destruct (compute_quote_Ok float_of_string _ _ _ _ _ _ Hq) as (et & sub & Hl).
    pose proof (compute_quote_locals_Ok float_of_string _ _ _ _ _ _ _ _ Hl) as H0. cbv zeta in H0.
    destruct H0 as (? & ? & ? & ? & Hd & _ & _ & _ & _ & Hloop & _ & Hn & _).
    split; [|lia].
    apply (extras_loop_order _ _ _ ([], S754_zero false) _ Hwf) in Hloop;
      [exact Hloop | reflexivity]. }
  destruct Hk as [Hk Hn].
  assert (Hnd : NoDup (keys (extras bd))).
  { rewrite Hk. apply keys_filter_NoDup, Hwf. }
  assert (Hsub : ∀ key, key ∈ keys (extras bd) → key ∈ keys EXTRA_PRICING).
  { intros key. rewrite Hk. apply priced_keys. }
  split; [exact Hn|].
  assert (Hconst : currency bd = "USD" ∧ transparent bd = true ∧
            notes bd = "Prices include all fees and taxes. No hidden fees.").
  { unfold compute_quote, compute_quote_locals in Hq.
    destruct (date_range_days start end_); cbn [mbind result_bind] in Hq; [|discriminate].
    destruct (rate_card boat "base_price_per_day" (VInt 0));
      cbn [mbind result_bind] in Hq; [|discriminate].
    destruct (rate_card boat "cleaning_fee" (VFloat (S754_zero false)));
      cbn [mbind result_bind] in Hq; [|discriminate].
    destruct (rate_card boat "tax_rate" (VFloat (S754_zero false)));
      cbn [mbind result_bind] in Hq; [|discriminate].
    destruct (mul_int _ _); cbn [mbind result_bind] in Hq; [|discriminate].
    destruct (extras_loop _ _ _ _) as [[em et]|]; cbn [mbind result_bind fmap result_fmap fst] in Hq;
      [|discriminate].
    assert (Hbd : ∀ x y : breakdown, Ok x = Ok y → x = y) by (intros x y [=]; assumption).
    apply Hbd in Hq. rewrite <- Hq. repeat split; reflexivity. }
  destruct Hconst as (Hcur & Htr & Hnotes).
  repeat split; try assumption.
  pose proof (submseteq_length _ _ (NoDup_submseteq _ _ Hnd Hsub)) as Hlen.
  unfold keys in Hlen. rewrite !length_map in Hlen. exact Hlen.
Qed.

(** The amount under a key of the extras map is the float of the exact
    cost of the key. *)
Lemma extras_amount_exact (boat : dict (pyval oid)) start end_ guests
    selection bd key v :
  compute_quote float_of_string boat start end_ guests selection = Ok bd →
  0 ≤ guests →
  dict_get key (extras bd) = Some v →
  exact_cost key (nights bd) guests < 2 ^ 53 →
  of_int (exact_cost key (nights bd) guests) = Some v.
Proof.
  intros Hq Hg Hv Hb. destruct (compute_quote_Ok float_of_string _ _ _ _ _ _ Hq) as (et & sub & Hl).
  pose proof (compute_quote_locals_Ok float_of_string _ _ _ _ _ _ _ _ Hl) as H0. cbv zeta in H0.
  destruct H0 as (? & ? & ? & ? & Hd & _ & _ & _ & _ & Hloop & _ & Hn & _).
  rewrite Hn in *.
  destruct (extras_loop_costs _ _ key v _ _ _ Hloop Hv) as [Hnil|(r & c & Hr & Hc & ->)];
    [discriminate|].
  rewrite (extra_cost_round2 key r (sub_days end_ start) guests c Hr ltac:(lia) Hc).
  apply (extra_cost_exact key r); assumption.
Qed.

(** X6.  The amounts of the extras map are exact: for a non-negative
    number of guests, skipper is [float(150 * nights)], fuel is
    [float(80 * nights)] and snorkel is [float(20 * guests * nights)], as
    long as the integer is below [2^53]. *)
Theorem extras_amounts_exact (boat : dict (pyval oid)) start end_ guests
    selection bd :
  compute_quote float_of_string boat start end_ guests selection = Ok bd →
  0 ≤ guests →
  (∀ v, dict_get "skipper" (extras bd) = Some v → 150 * nights bd < 2 ^ 53 →
        of_int (150 * nights bd) = Some v) ∧
  (∀ v, dict_get "fuel" (extras bd) = Some v → 80 * nights bd < 2 ^ 53 →
        of_int (80 * nights bd) = Some v) ∧
  (∀ v, dict_get "snorkel" (extras bd) = Some v →
        20 * guests * nights bd < 2 ^ 53 →
        of_int (20 * guests * nights bd) = Some v).
Proof.
  intros Hq Hg. repeat split; intros v Hv Hb.
  - exact (extras_amount_exact boat start end_ guests selection bd "skipper" v
             Hq Hg Hv Hb).
  - exact (extras_amount_exact boat start end_ guests selection bd "fuel" v
             Hq Hg Hv Hb).
  - exact (extras_amount_exact boat start end_ guests selection bd "snorkel" v
             Hq Hg Hv Hb).
Qed.

(** X7.  The running total of the extras is exact: on a request with
    distinct keys and for a non-negative number of guests, [extras_total]
    is the float of the extras in whole dollars, as long as that is below
    [2^53]; the subtotal is base + extras_total + cleaning_fee. *)
Theorem extras_total_exact (boat : dict (pyval oid)) start end_ guests
    selection bd extras_total subtotal :
  well_formed selection →
  compute_quote_locals float_of_string boat start end_ guests selection
    = Ok (bd, (extras_total, subtotal)) →
  0 ≤ guests →
  whole_extras (nights bd) guests selection < 2 ^ 53 →
  of_int (whole_extras (nights bd) guests selection) = Some extras_total ∧
  subtotal = fadd (fadd (base bd) extras_total) (cleaning_fee bd).
Proof.
  intros Hwf Hl Hg Hb.
  rewrite <- (exact_extras_total_formula _ _ _ Hwf) in *.
  pose proof (compute_quote_locals_Ok float_of_string _ _ _ _ _ _ _ _ Hl) as H0. cbv zeta in H0.
  destruct H0 as (? & ? & ? & ? & Hd & _ & _ & _ & _ & Hloop & Hs & Hn & Hbase & Hc & _).
  rewrite Hn in *. split.
  - apply (extras_loop_exact _ _ _ ([], S754_zero false) (extras bd, extras_total) 0);
      try assumption; try lia. reflexivity.
  - rewrite Hbase, Hc. exact Hs.
Qed.

(** X8.  The order of the extras in the request does not change the
    quote: on a reordered request (with distinct keys, a non-negative
    number of guests, and extras worth less than [2^53] dollars)
    [compute_quote] returns the same nights, base, cleaning fee, tax and
    total, the same [extras_total] and subtotal, and the same amount under
    each key of the extras map. *)
Theorem extras_order_irrelevant (boat : dict (pyval oid)) start end_ guests
    selection selection' bd extras_total subtotal :
  selection ≡ₚ selection' → well_formed selection → 0 ≤ guests →
  whole_extras (sub_days end_ start) guests selection < 2 ^ 53 →
  compute_quote_locals float_of_string boat start end_ guests selection
    = Ok (bd, (extras_total, subtotal)) →
  ∃ bd',
    compute_quote_locals float_of_string boat start end_ guests selection'
      = Ok (bd', (extras_total, subtotal)) ∧
    nights bd' = nights bd ∧ base bd' = base bd ∧
    cleaning_fee bd' = cleaning_fee bd ∧ tax bd' = tax bd ∧
    total bd' = total bd ∧
    ∀ key, dict_get key (extras bd') = dict_get key (extras bd).
Proof.
  intros Hp Hwf Hg Hb Hl.
  rewrite <- (exact_extras_total_formula _ _ _ Hwf) in Hb.
  pose proof (compute_quote_locals_Ok float_of_string _ _ _ _ _ _ _ _ Hl) as H0. cbv zeta in H0.
  destruct H0 as (bdaily & cl & rate & bcost & Hd & H1 & H2 & H3 & H4 & Hloop
                  & Hs & Hn & Hbase & Hc & Ht & Htot).
  set (days := sub_days end_ start) in *.
  assert (Hwf' : NoDup (keys selection')).
  { unfold well_formed, keys in *. rewrite <- Hp. exact Hwf. }
  (* the loop returns on the other order *)
  destruct (proj2 (extras_loop_Ok days guests selection' ([], S754_zero false)))
    as [[em' et'] Hloop'].
  { intros key r Hin Hr. rewrite <- Hp in Hin.
    apply (proj1 (extras_loop_Ok days guests selection ([], S754_zero false))
             ltac:(eauto) key r Hin Hr). }
  (* with the same total *)
  assert (Het : et' = extras_total).
  { pose proof (extras_loop_exact days guests selection ([], S754_zero false)
                  (extras bd, extras_total) 0 Hd Hg ltac:(lia)
                  eq_refl ltac:(lia) Hloop) as E1.
    pose proof (extras_loop_exact days guests selection' ([], S754_zero false)
                  (em', et') 0 Hd Hg ltac:(lia) eq_refl
                  ltac:(rewrite <- (exact_extras_total_perm days guests _ _ Hp); lia)
                  Hloop') as E2.
    rewrite <- (exact_extras_total_perm days guests _ _ Hp) in E2.
    cbn [snd] in E1, E2. congruence. }
  subst et'.
  eexists. split; [|split; [|split; [|split; [|split; [|split]]]]].
  - rewrite (compute_quote_locals_intro boat start end_ guests selection'
               bdaily cl rate bcost em' extras_total Hd H1 H2 H3 H4 Hloop').
    cbv zeta. rewrite <- Hs. reflexivity.
  - cbn [nights]. symmetry. exact Hn.
  - cbn [base]. symmetry. exact Hbase.
  - cbn [cleaning_fee]. symmetry. exact Hc.
  - cbn [tax]. symmetry. exact Ht.
  - cbn [total tax]. rewrite <- Ht. symmetry. exact Htot.
  - intros key. cbn [extras].
    pose proof (extras_loop_lookup days guests selection' (em', extras_total) key
                  Hwf' Hloop') as L'.
    pose proof (extras_loop_lookup days guests selection (extras bd, extras_total) key
                  Hwf Hloop) as L.
    cbn [fst] in L, L'. rewrite L, L'.
    rewrite (bool_decide_ext _ ((key, true) ∈ selection)); [reflexivity|].
    rewrite Hp. reflexivity.
Qed.

(** X9.  A boat with whole-dollar rates and no tax is quoted exactly:
    when the daily rate and the cleaning fee are the floats of the
    integers [b ≥ 0] and [c ≥ 0] and the tax rate is zero, the base is
    [float(b * nights)], the cleaning fee [float(c)], the tax zero and the
    total [float(b * nights + extras + c)], as long as that integer is
    below [2^53]. *)
Theorem whole_dollar_quote_exact (boat : dict (pyval oid)) start end_ guests
    selection bd b c base_daily fee tax_rate :
  rate_card boat "base_price_per_day" (VInt 0) = Ok base_daily →
  rate_card boat "cleaning_fee" (VFloat (S754_zero false)) = Ok fee →
  rate_card boat "tax_rate" (VFloat (S754_zero false)) = Ok tax_rate →
  of_int b = Some base_daily → of_int c = Some fee → is_zero tax_rate = true →
  0 ≤ b → 0 ≤ c → 0 ≤ guests → well_formed selection →
  compute_quote float_of_string boat start end_ guests selection = Ok bd →
  b * nights bd + whole_extras (nights bd) guests selection + c < 2 ^ 53 →
  of_int (b * nights bd) = Some (base bd) ∧
  of_int c = Some (cleaning_fee bd) ∧
  is_zero (tax bd) = true ∧
  of_int (b * nights bd + whole_extras (nights bd) guests selection + c)
    = Some (total bd).
Proof.
  intros H1 H2 H3 Hb Hc Hz Hb0 Hc0 Hg Hwf Hq Hbound.
  rewrite <- (exact_extras_total_formula _ _ _ Hwf) in *.
  destruct (compute_quote_Ok float_of_string _ _ _ _ _ _ Hq) as (et & sub & Hl).
  pose proof (compute_quote_locals_Ok float_of_string _ _ _ _ _ _ _ _ Hl) as H0. cbv zeta in H0.
  destruct H0 as (fb & fc & t & bcost & Hd & E1 & E2 & E3 & Hm & Hloop & Hs & Hn
                  & Hbase & Hfee & Ht & Htot).
  assert (fb = base_daily) by congruence. assert (fc = fee) by congruence.
  assert (t = tax_rate) by congruence. subst fb fc t.
  rewrite Hn in *. set (days := sub_days end_ start) in *.
  pose proof (exact_extras_total_nonneg days guests selection ltac:(lia) Hg) as HE0.
  set (E := exact_extras_total days guests selection) in *.
  assert (Hbd : 0 ≤ b * days) by nia.
  (* the base *)
  assert (Hbc : of_int (b * days) = Some bcost).
  { unfold mul_int in Hm. destruct (of_int days) as [d|] eqn:Hdays; [|discriminate].
    replace bcost with (fmul base_daily d) by congruence.
    apply of_int_mul; try assumption; lia. }
  assert (Hrb : round2 bcost = bcost) by (apply round2_whole, (of_int_whole _ _ Hbc)).
  assert (Hrc : round2 fee = fee) by (apply round2_whole, (of_int_whole _ _ Hc)).
  rewrite Hrb in *. rewrite Hrc in *.
  (* the extras and the subtotal *)
  assert (Het : of_int E = Some et).
  { apply (extras_loop_exact days guests selection ([], S754_zero false)
             (extras bd, et) 0); try assumption; try lia. reflexivity. }
  assert (Hsub : of_int (b * days + E + c) = Some sub).
  { rewrite Hs. apply of_int_add; try assumption; try lia.
    apply of_int_add; try assumption; try lia. }
  (* no tax *)
  destruct tax_rate as [st| | |]; try discriminate.
  assert (Htax : ∃ s, tax bd = S754_zero s).
  { rewrite Ht.
    destruct (of_int_nonneg_cases (b * days + E + c) sub ltac:(lia) Hsub) as [->|(m & e & ->)];
      eexists; reflexivity. }
  destruct Htax as [s Htax].
  split; [congruence|]. split; [congruence|]. split; [rewrite Htax; reflexivity|].
  rewrite Htot, Htax.
  assert (Hadd : fadd sub (S754_zero s) = sub).
  { destruct (of_int_nonneg_cases (b * days + E + c) sub ltac:(lia) Hsub) as [->|(m & e & ->)];
      [destruct s; reflexivity | reflexivity]. }
  rewrite Hadd, (round2_whole sub (of_int_whole _ _ Hsub)). exact Hsub.
Qed.

(** X10.  No amount is below zero when no rate is: if the daily rate,
    the cleaning fee and the tax rate of the boat are not negative and the
    number of guests is not, then base, every amount of the extras map,
    cleaning fee, tax and total are not negative. *)
Theorem no_negative_amounts (boat : dict (pyval oid)) start end_ guests
    selection base_daily fee tax_rate bd :
  rate_card boat "base_price_per_day" (VInt 0) = Ok base_daily →
  rate_card boat "cleaning_fee" (VFloat (S754_zero false)) = Ok fee →
  rate_card boat "tax_rate" (VFloat (S754_zero false)) = Ok tax_rate →
  negative base_daily = false → negative fee = false →
  negative tax_rate = false → 0 ≤ guests →
  compute_quote float_of_string boat start end_ guests selection = Ok bd →
  negative (base bd) = false ∧
  Forall (λ kv, negative kv.2 = false) (extras bd) ∧
  negative (cleaning_fee bd) = false ∧
  negative (tax bd) = false ∧
  negative (total bd) = false.
Proof.
  intros H1 H2 H3 N1 N2 N3 Hg Hq.
  destruct (compute_quote_Ok float_of_string _ _ _ _ _ _ Hq) as (et & sub & Hl).
  pose proof (compute_quote_locals_Ok float_of_string _ _ _ _ _ _ _ _ Hl) as H0. cbv zeta in H0.
  destruct H0 as (b & c & t & bcost & Hd & E1 & E2 & E3 & Hm & Hloop & Hs & _
                  & Hb & Hc & Ht & Htot).
  assert (b = base_daily) by congruence. assert (c = fee) by congruence.
  assert (t = tax_rate) by congruence. subst b c t.
  destruct (extras_loop_negative (sub_days end_ start) guests selection
              ([], S754_zero false) (extras bd, et) ltac:(lia) Hg
              ltac:(constructor) eq_refl Hloop) as [Hem Het].
  cbn [fst snd] in Hem, Het.
  assert (Nb : negative (base bd) = false).
  { rewrite Hb. apply round2_negative.
    apply (mul_int_negative base_daily (sub_days end_ start)); [assumption|lia|assumption]. }
  assert (Nc : negative (cleaning_fee bd) = false).
  { rewrite Hc. apply round2_negative, N2. }
  assert (Ns : negative sub = false).
  { rewrite Hs, <- Hb, <- Hc. repeat apply fadd_negative; assumption. }
  assert (Nt : negative (tax bd) = false).
  { rewrite Ht. apply round2_negative, fmul_negative; assumption. }
  repeat split; try assumption.
  rewrite Htot. apply round2_negative, fadd_negative; assumption.
Qed.

(** X20.  No amount overflows on rates of a sane size: if the daily rate
    and the cleaning fee of the boat are finite and below [2^800] in
    magnitude, the tax rate finite and below [2^100], the dates calendar
    dates and the guests fewer than [2^26], then base, every amount of
    the extras map, cleaning fee, tax and total are finite floats: no
    [inf] and no [nan] is returned. *)
Theorem sane_rates_give_finite_amounts (boat : dict (pyval oid)) start end_
    guests selection base_daily fee tax_rate bd :
  rate_card boat "base_price_per_day" (VInt 0) = Ok base_daily →
  rate_card boat "cleaning_fee" (VFloat (S754_zero false)) = Ok fee →
  rate_card boat "tax_rate" (VFloat (S754_zero false)) = Ok tax_rate →
  below 800 base_daily → below 800 fee → below 100 tax_rate →
  valid start → valid end_ → well_formed selection → 0 ≤ guests < 2 ^ 26 →
  compute_quote float_of_string boat start end_ guests selection = Ok bd →
  is_finite (base bd) = true ∧
  Forall (λ kv, is_finite kv.2 = true) (extras bd) ∧
  is_finite (cleaning_fee bd) = true ∧
  is_finite (tax bd) = true ∧
  is_finite (total bd) = true.
Proof.
  intros H1 H2 H3 B1 B2 B3 V1 V2 Hwf Hg Hq.
  destruct (compute_quote_Ok float_of_string _ _ _ _ _ _ Hq) as (et & sub & Hl).
  pose proof (compute_quote_locals_Ok float_of_string _ _ _ _ _ _ _ _ Hl) as H0. cbv zeta in H0.
  destruct H0 as (b & c & t & bcost & Hd & E1 & E2 & E3 & Hm & Hloop & Hs & _
                  & Hb & Hc & Ht & Htot).
  assert (b = base_daily) by congruence. assert (c = fee) by congruence.
  assert (t = tax_rate) by congruence. subst b c t.
  assert (Hdays : 0 ≤ sub_days end_ start < 2 ^ 22).
  { pose proof (toordinal_range start V1). pose proof (toordinal_range end_ V2).
    unfold sub_days in *. change (2 ^ 22) with 4194304. lia. }
  assert (Hr : ∀ K, 0 ≤ K ≤ 960 → emin prec emax ≤ K ≤ emax - prec ∧ K + 7 ≤ emax - prec).
  { intros K HK. unfold emin, prec, emax. lia. }
  assert (Bb : below 832 (base bd)).
  { rewrite Hb. apply (round2_below 824); [|lia|unfold prec, emax; lia].
    apply (mul_int_below 800 22 base_daily _ bcost B1 Hdays); [unfold prec, emax; lia| |exact Hm].
    unfold emin, prec, emax. lia. }
  assert (Bc : below 832 (cleaning_fee bd)).
  { rewrite Hc. apply (below_mono 808); [lia|].
    apply (round2_below 800); [exact B2|lia|unfold prec, emax; lia]. }
  assert (Be : below 832 et).
  { pose proof (whole_extras_bound (sub_days end_ start) guests selection
                  ltac:(lia) ltac:(lia)) as Hw.
    rewrite <- (exact_extras_total_formula _ _ _ Hwf) in Hw.
    assert (Hlt : 0 + exact_extras_total (sub_days end_ start) guests selection < 2 ^ 53).
    { change (2 ^ 22) with 4194304 in Hdays. change (2 ^ 26) with 67108864 in Hg.
      change (2 ^ 53) with 9007199254740992. nia. }
    pose proof (extras_loop_exact (sub_days end_ start) guests selection
                  ([], S754_zero false) (extras bd, et) 0 ltac:(lia) ltac:(lia)
                  ltac:(lia) eq_refl Hlt Hloop) as He.
    cbn [snd] in He. apply (below_mono 54); [lia|].
    apply (of_int_below _ et 53) in He; [exact He|lia|unfold prec, emax; lia]. }
  assert (Bs : below 836 sub).
  { rewrite Hs, <- Hb, <- Hc.
    apply (fadd_below 834); [|apply (below_mono 832); [lia|exact Bc]|apply Hr; lia].
    apply (fadd_below 832); [exact Bb|exact Be|apply Hr; lia]. }
  assert (Bt : below 945 (tax bd)).
  { rewrite Ht. apply (round2_below 937); [|lia|unfold prec, emax; lia].
    apply (fmul_below 836 100); [exact Bs|exact B3|unfold emin, prec, emax; lia]. }
  split; [exact (below_finite _ _ Bb)|]. split.
  { apply (extras_loop_finite (sub_days end_ start) guests selection
             ([], S754_zero false) (extras bd, et) Hdays Hg); [constructor|exact Hloop]. }
  split; [exact (below_finite _ _ Bc)|]. split; [exact (below_finite _ _ Bt)|].
  rewrite Htot. apply (below_finite (947 + 8)), round2_below; [|lia|unfold prec, emax; lia].
  apply (fadd_below 945); [apply (below_mono 836); [lia|exact Bs]|exact Bt|].
  unfold emin, prec, emax. lia.
Qed.

End QuoteFacts.

(** ** More on dates *)

(** X11.  [date_range_days] counts the nights of a calendar month and of
    a calendar year: from the first of a month to the first of the next
    there are as many nights as the month has days (29 in a February of a
    leap year, and December runs into January), and from one new year's
    day to the next 366 nights in a leap year and 365 otherwise. *)
Theorem nights_of_a_calendar_month y m :
  MINYEAR ≤ y < MAXYEAR → 1 ≤ m ≤ 12 →
  date_range_days (mkdate y m 1)
    (if m =? 12 then mkdate (y + 1) 1 1 else mkdate y (m + 1) 1)
    = Ok (days_in_month y m) ∧
  date_range_days (mkdate y 1 1) (mkdate (y + 1) 1 1)
    = Ok (if is_leap y then 366 else 365).
Proof.
  intros _ Hm.
  pose proof (days_before_month_next y m Hm) as Hn.
  pose proof (days_in_month_pos y m Hm) as Hp.
  pose proof (days_before_year_succ y) as Hy.
  unfold date_range_days, sub_days, toordinal, ymd2ord. split.
  - destruct (Z.eqb_spec m 12) as [->|Hne]; cbn [year month day].
    + change (days_before_month (y + 1) 1) with 0.
      replace (days_before_year (y + 1) + 0 + 1 - (days_before_year y + days_before_month y 12 + 1))
        with (days_in_month y 12) by lia.
      destruct (Z.ltb_spec (days_in_month y 12) 1); [lia|reflexivity].
    + replace (days_before_year y + days_before_month y (m + 1) + 1
               - (days_before_year y + days_before_month y m + 1))
        with (days_in_month y m) by lia.
      destruct (Z.ltb_spec (days_in_month y m) 1); [lia|reflexivity].
  - cbn [year month day]. change (days_before_month (y + 1) 1) with 0.
    change (days_before_month y 1) with 0.
    replace (days_before_year (y + 1) + 0 + 1 - (days_before_year y + 0 + 1))
      with (if is_leap y then 366 else 365) by lia.
    destruct (is_leap y); reflexivity.
Qed.

Lemma digit_inj a b : digit a = digit b → a mod 10 = b mod 10.
Proof.
  unfold digit. intros Hd. apply (f_equal nat_of_ascii) in Hd.
  pose proof (Z.mod_pos_bound a 10 ltac:(lia)).
  pose proof (Z.mod_pos_bound b 10 ltac:(lia)).
  rewrite !nat_ascii_embedding in Hd by lia. lia.
Qed.

Lemma pad2_inj a b : 0 ≤ a < 100 → 0 ≤ b < 100 → pad2 a = pad2 b → a = b.
Proof.
  unfold pad2. intros Ha Hb [= H1 H0].
  apply digit_inj in H1, H0. Z.div_mod_to_equations. lia.
Qed.

Lemma pad4_inj a b : 0 ≤ a < 10000 → 0 ≤ b < 10000 → pad4 a = pad4 b → a = b.
Proof.
  unfold pad4, pad2. intros Ha Hb [= H3 H2 H1 H0].
  apply digit_inj in H3, H2, H1, H0. Z.div_mod_to_equations. lia.
Qed.

(** X12.  The dates that [create_booking] stores, [isoformat()] of the
    requested dates, are ten characters long and identify the dates: two
    calendar dates with the same string are the same date. *)
Theorem isoformat_identifies_the_date d1 d2 :
  valid d1 → valid d2 →
  String.length (isoformat d1) = 10%nat ∧
  (isoformat d1 = isoformat d2 → d1 = d2).
Proof.
  intros (Hy1 & Hm1 & Hd1) (Hy2 & Hm2 & Hd2). split; [reflexivity|].
  pose proof (days_in_month_pos (year d1) (month d1) Hm1).
  pose proof (days_in_month_pos (year d2) (month d2) Hm2).
  unfold MINYEAR, MAXYEAR in *.
  destruct d1 as [y1 m1 a1], d2 as [y2 m2 a2]. cbn [year month day] in *.
  unfold isoformat. cbn [year month day].
  intros Hs.
  assert (H4 : pad4 y1 = pad4 y2 ∧ pad2 m1 = pad2 m2 ∧ pad2 a1 = pad2 a2).
  { unfold pad4, pad2 in *. cbn in Hs.
    injection Hs as E1 E2 E3 E4 E5 E6 E7 E8. repeat split; congruence. }
  destruct H4 as (Ey & Em & Ea).
  apply pad4_inj in Ey; [|lia|lia]. apply pad2_inj in Em; [|lia|lia].
  apply pad2_inj in Ea; [|lia|lia]. congruence.
Qed.

(** ** More on the request handlers *)

Section HandlerFacts.

Context {oid : Type} `{Countable oid}.
Variable ObjectId : string → option oid.
Variable float_of_string : string → option float.
Variable create_document :
  string → dict (pyval oid) → database oid → result string * database oid.

(** The [_id] that the store adds to a record plays no part in its
    price. *)
Lemma compute_quote_ignores_id (doc : dict (pyval oid)) v start end_ guests selection :
  compute_quote float_of_string (("_id", v) :: doc) start end_ guests selection =
  compute_quote float_of_string doc start end_ guests selection.
Proof. reflexivity. Qed.

(** What [quote] answers, case by case. *)
Lemma quote_cases (req : QuoteRequest.t) (st : database oid) :
  quote ObjectId float_of_string req (Some st) =
  (match ObjectId (QuoteRequest.boat_id req) with
   | None => Raise InvalidIdentifier
   | Some o =>
       match boats st !! o with
       | None => Raise NotFound
       | Some doc =>
           (λ bd, (bd, QuoteRequest.boat_id req)) <$>
           compute_quote float_of_string doc (QuoteRequest.start_date req)
             (QuoteRequest.end_date req) (QuoteRequest.guests req)
             (QuoteRequest.extras req)
       end
   end, Some st).
Proof.
  unfold quote, guarded, hbind, reading, hret.
  rewrite get_boat_or_404_cases.
  destruct (ObjectId (QuoteRequest.boat_id req)) as [o|]; [|reflexivity].
  destruct (boats st !! o) as [doc|]; [|reflexivity].
  rewrite compute_quote_ignores_id.
  destruct (compute_quote _ _ _ _ _ _); reflexivity.
Qed.

(** X13.  [quote] changes nothing in the database, and answers in this
    order: the store-unavailable error without a database, whatever the
    request; the invalid-identifier error for an identifier that
    [ObjectId] rejects, whatever the dates; the not-found error for an
    identifier with no boat record; and otherwise what [compute_quote]
    gives on the stored record, its breakdown paired with the requested
    [boat_id] or its error. *)
Theorem quote_endpoint (req : QuoteRequest.t) :
  (∀ db, (quote ObjectId float_of_string req db).2 = db) ∧
  quote ObjectId float_of_string req None = (Raise StoreUnavailable, None) ∧
  (∀ st, ObjectId (QuoteRequest.boat_id req) = None →
     (quote ObjectId float_of_string req (Some st)).1 = Raise InvalidIdentifier) ∧
  (∀ st o, ObjectId (QuoteRequest.boat_id req) = Some o → boats st !! o = None →
     (quote ObjectId float_of_string req (Some st)).1 = Raise NotFound) ∧
  (∀ st o doc, ObjectId (QuoteRequest.boat_id req) = Some o →
     boats st !! o = Some doc →
     (quote ObjectId float_of_string req (Some st)).1 =
     (λ bd, (bd, QuoteRequest.boat_id req)) <$>
     compute_quote float_of_string doc (QuoteRequest.start_date req)
       (QuoteRequest.end_date req) (QuoteRequest.guests req)
       (QuoteRequest.extras req)).
Proof.
  split; [|split; [reflexivity|split; [|split]]].
  - intros [st|]; [rewrite quote_cases|]; reflexivity.
  - intros st Ho. rewrite quote_cases, Ho. reflexivity.
  - intros st o Ho Hn. rewrite quote_cases, Ho, Hn. reflexivity.
  - intros st o doc Ho Hd. rewrite quote_cases, Ho, Hd. reflexivity.
Qed.

(** X14.  A booking is priced as it is quoted: [create_booking] fails
    with the error of [quote] on the same boat, dates, guests and extras,
    leaving the database as it was; and when [quote] gives a breakdown, it
    calls [create_document] once, on the collection "booking", with a
    document of twelve distinct fields that holds the requested
    [boat_id], the dates in ISO format, the guests, that breakdown as
    [pricing], the status "requested" and the time of the call, and
    answers with the identifier that comes back, the status "requested"
    and the same breakdown.  Without a database it raises the
    store-unavailable error. *)
Theorem booking_follows_quote utcnow (req : BookingRequest.t) (st : database oid) :
  create_booking ObjectId float_of_string create_document utcnow req None
    = (Raise StoreUnavailable, None) ∧
  match (quote ObjectId float_of_string (as_quote req) (Some st)).1 with
  | Raise e =>
      create_booking ObjectId float_of_string create_document utcnow req (Some st)
        = (Raise e, Some st)
  | Ok (bd, _) =>
      ∃ doc,
        dict_get "boat_id" doc = Some (VStr (BookingRequest.boat_id req)) ∧
        dict_get "start_date" doc
          = Some (VStr (isoformat (BookingRequest.start_date req))) ∧
        dict_get "end_date" doc
          = Some (VStr (isoformat (BookingRequest.end_date req))) ∧
        dict_get "guests" doc = Some (VInt (BookingRequest.guests req)) ∧
        dict_get "pricing" doc = Some (VDict (breakdown_dict bd)) ∧
        dict_get "status" doc = Some (VStr "requested") ∧
        dict_get "created_at" doc = Some (VStr utcnow) ∧
        (length doc = 12)%nat ∧ well_formed doc ∧
        create_booking ObjectId float_of_string create_document utcnow req (Some st)
          = let '(r, st') := create_document "booking" doc st in
            ((λ booking_id, {| BookingResponse.id := booking_id;
                               BookingResponse.status := "requested";
                               BookingResponse.pricing := bd |}) <$> r,
             Some st')
  end.
Proof.
  split; [reflexivity|].
  unfold quote, create_booking, guarded, hbind, reading, hret, as_quote.
  cbn [QuoteRequest.boat_id QuoteRequest.start_date QuoteRequest.end_date
       QuoteRequest.guests QuoteRequest.extras fst].
  destruct (get_boat_or_404 ObjectId (Some st) (BookingRequest.boat_id req))
    as [boat|e]; [|reflexivity].
  destruct (compute_quote float_of_string boat _ _ _ _) as [bd|e]; [|reflexivity].
  cbn [fst].
  exists [
      ("boat_id", VStr (BookingRequest.boat_id req));
      ("start_date", VStr (isoformat (BookingRequest.start_date req)));
      ("end_date", VStr (isoformat (BookingRequest.end_date req)));
      ("guests", VInt (BookingRequest.guests req));
      ("customer_name", VStr (BookingRequest.customer_name req));
      ("customer_email", VStr (BookingRequest.customer_email req));
      ("customer_phone", optional_str (BookingRequest.customer_phone req));
      ("extras", VDict (dict_map VBool (BookingRequest.extras req)));
      ("notes", optional_str (BookingRequest.notes req));
      ("pricing", VDict (breakdown_dict bd));
      ("status", VStr "requested");
      ("created_at", VStr utcnow)
    ].
  do 8 (split; [reflexivity|]). split.
  - unfold well_formed. cbn [keys map fst].
    apply (bool_decide_eq_true_1 (NoDup _)). vm_compute. reflexivity.
  - destruct (create_document "booking" _ st) as [[id|e] st']; reflexivity.
Qed.

End HandlerFacts.

(** ** The boat list *)

Lemma dict_pop_None {V : Type} (k : string) (d : dict V) :
  dict_pop k d = None ↔ dict_get k d = None.
Proof.
  induction d as [|[k' v] d IH]; cbn [dict_pop dict_get]; [tauto|].
  destruct (String.eqb k k'); [split; discriminate|].
  destruct (dict_pop k d) as [[x r]|]; cbn; [|tauto].
  split; [discriminate|]. intros Hn. apply IH in Hn. discriminate.
Qed.

(** Popping a key of a dict with distinct keys: its value comes out, the
    key is gone, the other items stay as they are. *)
Lemma dict_pop_Some {V : Type} (k : string) (d : dict V) v r :
  NoDup (keys d) → dict_pop k d = Some (v, r) →
  dict_get k d = Some v ∧ dict_get k r = None ∧
  (∀ k', k' ≠ k → dict_get k' r = dict_get k' d) ∧
  NoDup (keys r) ∧ (∀ k', k' ∈ keys r → k' ∈ keys d).
Proof.
  revert v r. induction d as [|[k' v'] d IH]; intros v r Hnd; cbn [dict_pop dict_get];
    [discriminate|].
  cbn [keys map fst] in Hnd. apply NoDup_cons in Hnd as [Hk Hnd].
  destruct (String.eqb_spec k k') as [->|Hne].
  - intros [= <- <-]. split; [reflexivity|]. split; [apply dict_get_None, Hk|].
    split; [|split; [exact Hnd | intros; right; assumption]].
    intros k0 Hk0. apply String.eqb_neq in Hk0. rewrite Hk0. reflexivity.
  - destruct (dict_pop k d) as [[x r']|] eqn:Hp; cbn; [|discriminate].
    intros [= <- <-]. destruct (IH x r' Hnd eq_refl) as (Hg & Hn & Ho & Hnd' & Hsub).
    split; [exact Hg|]. cbn [dict_get].
    apply String.eqb_neq in Hne. rewrite Hne.
    split; [exact Hn|]. split; [|split].
    + intros k0 Hk0. destruct (String.eqb k0 k'); [reflexivity | apply Ho, Hk0].
    + cbn [keys map fst]. apply NoDup_cons. split; [|exact Hnd'].
      intros Hin. apply Hk, Hsub, Hin.
    + cbn [keys map fst]. intros k0 Hin.
      apply elem_of_cons in Hin as [->|Hin]; [left | right; apply Hsub, Hin].
Qed.

Lemma dict_set_keys {V : Type} (k : string) (v : V) (d : dict V) :
  NoDup (keys d) → NoDup (keys (dict_set k v d)).
Proof.
  induction d as [|[k' v'] d IH]; cbn [dict_set keys map fst].
  - intros _. apply NoDup_singleton.
  - intros Hnd. apply NoDup_cons in Hnd as [Hk Hnd].
    destruct (String.eqb_spec k k') as [->|Hne]; cbn [map fst].
    + apply NoDup_cons. auto.
    + apply NoDup_cons. split; [|apply IH, Hnd].
      intros Hin. apply Hk. clear IH Hnd Hk.
      induction d as [|[k2 v2] d IH]; cbn [dict_set map fst] in *.
      * apply list_elem_of_singleton in Hin. congruence.
      * destruct (String.eqb_spec k k2) as [->|Hne2]; cbn [map fst] in *.
        -- exact Hin.
        -- apply elem_of_cons in Hin as [->|Hin]; [left | right; apply IH, Hin].
Qed.

Section ListingFacts.

Context {oid : Type} `{Countable oid}.
Variable str : pyval oid → string.
Variable get_documents :
  string → database oid → option (list (dict (pyval oid))).

(** [to_public] fails exactly on a document without [_id]. *)
Lemma to_public_spec_None (doc : dict (pyval oid)) :
  to_public str doc = None ↔ dict_get "_id" doc = None.
Proof.
  unfold to_public. rewrite <- dict_pop_None.
  destruct (dict_pop "_id" doc) as [[v r]|]; cbn; [split; discriminate | tauto].
Qed.

(** X15.  [to_public] fails exactly on a document without [_id];
    otherwise, on a document with distinct keys, the result has no [_id],
    has [str] of the old [_id] under [id] (a field [id] of the document
    itself is overwritten), has every other field as it was, and still has
    distinct keys. *)
Theorem to_public_renames_id (doc : dict (pyval oid)) :
  (to_public str doc = None ↔ dict_get "_id" doc = None) ∧
  (∀ v, well_formed doc → dict_get "_id" doc = Some v →
     ∃ doc', to_public str doc = Some doc' ∧
       dict_get "id" doc' = Some (VStr (str v)) ∧
       dict_get "_id" doc' = None ∧
       (∀ k, k ≠ "_id" → k ≠ "id" → dict_get k doc' = dict_get k doc) ∧
       well_formed doc').
Proof.
  unfold to_public. split.
  - rewrite <- dict_pop_None. destruct (dict_pop "_id" doc) as [[v r]|]; cbn.
    + split; discriminate.
    + tauto.
  - intros v Hwf Hv.
    destruct (dict_pop "_id" doc) as [[v' r]|] eqn:Hp.
    2:{ apply dict_pop_None in Hp. congruence. }
    destruct (dict_pop_Some "_id" doc v' r Hwf Hp) as (Hg & Hn & Ho & Hnd & _).
    assert (v' = v) by congruence. subst v'. cbn.
    eexists. split; [reflexivity|]. split; [apply dict_get_set_eq|].
    split; [rewrite dict_get_set_ne by discriminate; exact Hn|].
    split; [|apply dict_set_keys, Hnd].
    intros k H1 H2. rewrite dict_get_set_ne by exact H2. apply Ho, H1.
Qed.

(** X16.  [list_boats] answers the empty list without a database (it
    raises no store-unavailable error); with one, it fails when
    [get_documents] does or when some document has no [_id], and otherwise
    lists one public document for each document of [get_documents], in the
    same order, the i-th with [str] of the i-th [_id] under [id]. *)
Theorem list_boats_lists_every_document (st : database oid) docs :
  list_boats str get_documents None = Some [] ∧
  (get_documents "boat" st = None → list_boats str get_documents (Some st) = None) ∧
  (get_documents "boat" st = Some docs →
     (list_boats str get_documents (Some st) = None ↔
      ∃ d, d ∈ docs ∧ dict_get "_id" d = None) ∧
     (∀ l, list_boats str get_documents (Some st) = Some l →
        length l = length docs ∧
        ∀ i d, docs !! i = Some d →
          ∃ v d', dict_get "_id" d = Some v ∧ l !! i = Some d' ∧
                  to_public str d = Some d' ∧
                  dict_get "id" d' = Some (VStr (str v)))).
Proof.
  split; [reflexivity|]. split.
  - intros Hg. unfold list_boats. rewrite Hg. reflexivity.
  - intros Hg. unfold list_boats. rewrite Hg. cbn [mbind option_bind]. split.
    + rewrite mapM_None, Exists_exists. split.
      * intros (d & Hin & Hd). exists d. split; [exact Hin|].
        apply (proj1 (to_public_spec_None d)), Hd.
      * intros (d & Hin & Hd). exists d. split; [exact Hin|].
        apply (proj2 (to_public_spec_None d)), Hd.
    + intros l Hl. split; [symmetry; exact (length_mapM _ _ _ Hl)|].
      apply mapM_Some_1 in Hl. intros i d Hi.
      destruct (Forall2_lookup_l _ _ _ i d Hl Hi) as (d' & Hi' & Hd').
      destruct (dict_get "_id" d) as [v|] eqn:Hv.
      2:{ apply (proj2 (to_public_spec_None d)) in Hv. congruence. }
      exists v, d'. split; [reflexivity|]. split; [exact Hi'|]. split; [exact Hd'|].
      unfold to_public in Hd'.
      destruct (dict_pop "_id" d) as [[v' r]|] eqn:Hp; [|discriminate].
      cbn in Hd'. injection Hd' as <-.
      assert (v' = v).
      { clear -Hp Hv. revert v' r Hp. induction d as [|[k x] d IH]; intros v' r;
          cbn [dict_pop dict_get] in *; [discriminate|].
        destruct (String.eqb "_id" k); [congruence|].
        destruct (dict_pop "_id" d) as [[y r']|]; cbn; [|discriminate].
        intros [= <- <-]. apply (IH Hv y r'). reflexivity. }
      subst v'. apply dict_get_set_eq.
Qed.

End ListingFacts.

(** ** The seed data *)

Section SeedFacts.

Context {oid : Type} `{Countable oid}.
Variable ObjectId : string → option oid.
Variable float_of_string : string → option float.

Lemma insert_many_notin ids (docs : list (dict (pyval oid))) o : ∀ c,
  o ∉ ids → insert_many ids docs c !! o = c !! o.
Proof.
  unfold insert_many. revert docs.
  induction ids as [|o' ids IH]; intros docs c Hn; [reflexivity|].
  destruct docs as [|b docs]; [reflexivity|].
  cbn [zip zip_with foldl fst snd]. rewrite IH by (intros Hin; apply Hn; right; exact Hin).
  apply lookup_insert_ne. intros ->. apply Hn. left.
Qed.

(** Inserting documents under distinct identifiers: each is found under
    its own. *)
Lemma insert_many_lookup ids (docs : list (dict (pyval oid))) : ∀ c i o b,
  NoDup ids → ids !! i = Some o → docs !! i = Some b →
  insert_many ids docs c !! o = Some b.
Proof.
  revert docs. induction ids as [|o' ids IH]; intros docs c i o b Hnd Hi Hb;
    [discriminate|].
  destruct docs as [|b' docs]; [destruct i; discriminate|].
  apply NoDup_cons in Hnd as [Hk Hnd].
  destruct i as [|i]; cbn in Hi, Hb.
  - injection Hi as ->. injection Hb as ->.
    change (insert_many (o :: ids) (b :: docs) c)
      with (insert_many ids docs (<[o := b]> c)).
    rewrite insert_many_notin by exact Hk. apply lookup_insert_eq.
  - change (insert_many (o' :: ids) (b' :: docs) c)
      with (insert_many ids docs (<[o' := b']> c)).
    apply (IH docs _ i); assumption.
Qed.

Lemma insert_many_nonempty ids (docs : list (dict (pyval oid))) : ∀ c,
  c ≠ ∅ ∨ (ids ≠ [] ∧ docs ≠ []) → insert_many ids docs c ≠ ∅.
Proof.
  revert docs. induction ids as [|o ids IH]; intros docs c Hc.
  - destruct Hc as [Hc|[Hc _]]; [exact Hc | congruence].
  - destruct docs as [|b docs]; [destruct Hc as [Hc|[_ Hc]]; [exact Hc | congruence]|].
    change (insert_many (o :: ids) (b :: docs) c)
      with (insert_many ids docs (<[o := b]> c)).
    apply IH. left. apply insert_non_empty.
Qed.

Lemma count_documents_zero (c : collection oid) :
  (count_documents c =? 0) = true ↔ c = ∅.
Proof.
  unfold count_documents. rewrite Z.eqb_eq, <- map_size_empty_iff. lia.
Qed.

Lemma boats_insert (st : database oid) c : boats (<["boat" := c]> st) = c.
Proof. unfold boats. rewrite lookup_insert_eq. reflexivity. Qed.

Lemma seed_boats_empty ids (st : database oid) :
  boats st = ∅ →
  seed_boats ids (Some st) = Some (<["boat" := insert_many ids sample_boats ∅]> st).
Proof.
  intros He. unfold seed_boats. rewrite (proj2 (count_documents_zero _) He), He.
  reflexivity.
Qed.

Lemma seed_boats_nonempty ids (st : database oid) :
  boats st ≠ ∅ → seed_boats ids (Some st) = Some st.
Proof.
  intros Hne. unfold seed_boats.
  destruct (count_documents (boats st) =? 0) eqn:E; [|reflexivity].
  apply count_documents_zero in E. contradiction.
Qed.

(** X17.  [seed_boats] does nothing without a database and nothing to a
    database that has a boat; it never touches another collection (the
    bookings stay as they are); and once it has run with at least one
    identifier the collection is not empty, so a second run changes
    nothing. *)
Theorem seed_boats_only_fills_an_empty_collection ids ids' (st : database oid) :
  seed_boats ids None = None ∧
  (boats st ≠ ∅ → seed_boats ids (Some st) = Some st) ∧
  (∃ st', seed_boats ids (Some st) = Some st' ∧
     (∀ name, name ≠ "boat" → st' !! name = st !! name) ∧
     bookings st' = bookings st ∧
     (ids ≠ [] → boats st' ≠ ∅ ∧ seed_boats ids' (Some st') = Some st')).
Proof.
  split; [reflexivity|]. split; [apply seed_boats_nonempty|].
  destruct (decide (boats st = ∅)) as [He|Hne].
  - rewrite (seed_boats_empty ids st He). eexists. split; [reflexivity|].
    split; [|split].
    + intros name Hn. apply lookup_insert_ne. congruence.
    + unfold bookings. rewrite lookup_insert_ne by discriminate. reflexivity.
    + intros Hids.
      assert (Hb : boats (<["boat" := insert_many ids sample_boats ∅]> st) ≠ ∅).
      { rewrite boats_insert. apply insert_many_nonempty. right.
        split; [exact Hids | discriminate]. }
      split; [exact Hb | apply seed_boats_nonempty, Hb].
  - rewrite (seed_boats_nonempty ids st Hne). exists st.
    split; [reflexivity|]. split; [reflexivity|]. split; [reflexivity|].
    intros _. split; [exact Hne | apply seed_boats_nonempty, Hne].
Qed.

(** X18.  After [seed_boats] on a database without boats, with distinct
    identifiers: [get_boat_or_404] returns the i-th sample boat, with its
    [_id], for the string of the i-th identifier, and raises the not-found
    error for the string of any other identifier. *)
Theorem seeded_boats_are_found ids (st : database oid) :
  boats st = ∅ → NoDup ids →
  (∀ i o b s, ids !! i = Some o → sample_boats !! i = Some b →
     ObjectId s = Some o →
     get_boat_or_404 ObjectId (seed_boats ids (Some st)) s
       = Ok (("_id", VObjectId o) :: b)) ∧
  (∀ o s, o ∉ ids → ObjectId s = Some o →
     get_boat_or_404 ObjectId (seed_boats ids (Some st)) s = Raise NotFound).
Proof.
  intros He Hnd. rewrite (seed_boats_empty ids st He). split.
  - intros i o b s Hi Hb Hs.
    rewrite get_boat_or_404_cases, Hs, boats_insert.
    rewrite (insert_many_lookup ids sample_boats ∅ i o b Hnd Hi Hb). reflexivity.
  - intros o s Ho Hs.
    rewrite get_boat_or_404_cases, Hs, boats_insert.
    rewrite insert_many_notin by exact Ho. rewrite lookup_empty. reflexivity.
Qed.

(** The rates of the sample boats are floats. *)
Lemma sample_boats_rates (b : dict (pyval oid)) :
  b ∈ sample_boats →
  ∃ base_daily fee tax_rate,
    py_float float_of_string (get b "base_price_per_day" (VInt 0)) = Ok base_daily ∧
    py_float float_of_string (get b "cleaning_fee" (VFloat (S754_zero false))) = Ok fee ∧
    py_float float_of_string (get b "tax_rate" (VFloat (S754_zero false))) = Ok tax_rate.
Proof.
  unfold sample_boats. intros Hin.
  repeat (apply elem_of_cons in Hin as [->|Hin]; [do 3 eexists; repeat split; reflexivity|]).
  apply elem_of_nil in Hin. destruct Hin.
Qed.

(** X19.  Every seeded boat can be quoted: after [seed_boats] on a
    database without boats, [quote] for the identifier of a sample boat,
    calendar dates with the end after the start and a number of guests
    from 0 to below [2^1023] returns the breakdown that [compute_quote]
    gives on that sample boat, and leaves the database as it is. *)
Theorem seeded_boats_can_be_quoted ids (st : database oid) i o
    (b : dict (pyval oid)) (req : QuoteRequest.t) :
  boats st = ∅ → NoDup ids →
  ids !! i = Some o → sample_boats !! i = Some b →
  ObjectId (QuoteRequest.boat_id req) = Some o →
  valid (QuoteRequest.start_date req) → valid (QuoteRequest.end_date req) →
  lt (QuoteRequest.start_date req) (QuoteRequest.end_date req) →
  0 ≤ QuoteRequest.guests req < 2 ^ 1023 →
  ∃ bd,
    quote ObjectId float_of_string req (seed_boats ids (Some st))
      = (Ok (bd, QuoteRequest.boat_id req), seed_boats ids (Some st)) ∧
    compute_quote float_of_string b (QuoteRequest.start_date req)
      (QuoteRequest.end_date req) (QuoteRequest.guests req)
      (QuoteRequest.extras req) = Ok bd.
Proof.
  intros He Hnd Hi Hb Ho V1 V2 Hlt Hg.
  assert (Hd : 1 ≤ sub_days (QuoteRequest.end_date req) (QuoteRequest.start_date req)).
  { apply (toordinal_lt_iff _ _ V1 V2) in Hlt. unfold sub_days. lia. }
  destruct (days_convert _ _ V1 V2 Hd) as (m & e & Hdays).
  destruct (of_int_in_range _ Hg) as [g Hguests].
  destruct (sample_boats_rates b) as (r1 & r2 & r3 & H1 & H2 & H3).
  { eapply list_elem_of_lookup_2. exact Hb. }
  destruct (compute_quote_returns float_of_string b _ _ _ (QuoteRequest.extras req)
              r1 r2 r3 _ g Hd H1 H2 H3 Hdays Hguests) as [bd Hq].
  exists bd. split; [|exact Hq].
  rewrite (seed_boats_empty ids st He).
  unfold quote, guarded, hbind, reading, hret.
  rewrite get_boat_or_404_cases, Ho, boats_insert.
  rewrite (insert_many_lookup ids sample_boats ∅ i o b Hnd Hi Hb).
  change (compute_quote float_of_string (("_id", VObjectId o) :: b))
    with (compute_quote float_of_string b).
  rewrite Hq. reflexivity.
Qed.

End SeedFacts.

(** ** Examples *)

Lemma skipper_and_snorkel_well_formed : well_formed skipper_and_snorkel.
Proof.
  unfold well_formed, skipper_and_snorkel. cbn [keys map fst].
  apply NoDup_cons. split; [|apply NoDup_singleton].
  intros Hin. apply list_elem_of_singleton in Hin. discriminate.
Qed.

Lemma aqua_quote_computed :
  compute_quote_locals no_numeral aqua_breeze july_1 july_4 2 skipper_and_snorkel
    = Ok (aqua_quote, (decimal 57000 2, decimal 186500 2)).
Proof. vm_compute. reflexivity. Qed.

(** C1, as the specification states it, fails: on a boat at 99.99 a day
    taxed at 0.1, six nights give base 599.94, tax 59.99 and total 659.93,
    while the float sum base + 0 + cleaning_fee + tax is
    659.9300000000001. *)
Lemma total_differs_from_float_sum :
  ∃ bd, compute_quote no_numeral dinghy july_1 july_7 1 [] = Ok bd ∧
        base bd = decimal 59994 2 ∧
        tax bd = decimal 5999 2 ∧
        total bd = decimal 65993 2 ∧
        fadd (subtotal_of bd) (tax bd) = S754_finite false 5804805668145726 (-43) ∧
        feqb (total bd) (fadd (subtotal_of bd) (tax bd)) = false ∧
        ¬ total_is_sum bd.
Proof.
  eexists. split; [vm_compute; reflexivity|].
  repeat split; try (vm_compute; reflexivity).
  unfold total_is_sum. vm_compute. discriminate.
Qed.

(** Where an amount has overflowed, the equations on tax and total are
    lost: on a
    record with a daily price of 1e308, two nights give an infinite base
    and a tax and a total that are nan, and nan equals nothing, itself
    included. *)
Lemma overflowed_total_equals_nothing :
  ∃ bd, compute_quote no_numeral flagship july_1 july_3 1 [] = Ok bd ∧
        base bd = S754_infinity false ∧
        total bd = S754_nan ∧
        total bd = round2 (fadd (subtotal_of bd) (tax bd)) ∧
        feqb (total bd) (round2 (fadd (subtotal_of bd) (tax bd))) = false ∧
        feqb (round2 (total bd)) (total bd) = false.
Proof.
  eexists. split; [vm_compute; reflexivity|].
  repeat split; vm_compute; reflexivity.
Qed.

Lemma aqua_quote_returned :
  compute_quote no_numeral aqua_breeze july_1 july_4 2 skipper_and_snorkel
    = Ok aqua_quote.
Proof. vm_compute. reflexivity. Qed.

Lemma quote_invariant_witness :
  well_formed skipper_and_snorkel ∧
  compute_quote no_numeral aqua_breeze july_1 july_4 2 skipper_and_snorkel
    = Ok aqua_quote ∧
  is_finite (total aqua_quote) = true ∧
  ((∃ tax_rate,
      py_float no_numeral (get aqua_breeze "tax_rate" (VFloat (S754_zero false)))
        = Ok tax_rate ∧
      feqb (tax aqua_quote) (round2 (fmul (subtotal_of aqua_quote) tax_rate)) = true) ∧
   feqb (total aqua_quote)
     (round2 (fadd (subtotal_of aqua_quote) (tax aqua_quote))) = true ∧
   two_decimals (base aqua_quote) ∧
   Forall (λ kv, two_decimals kv.2) (extras aqua_quote) ∧
   two_decimals (cleaning_fee aqua_quote) ∧
   two_decimals (tax aqua_quote) ∧
   two_decimals (total aqua_quote)).
Proof.
  split; [exact skipper_and_snorkel_well_formed|].
  split; [exact aqua_quote_returned|].
  split; [reflexivity|].
  exact (quote_invariant no_numeral aqua_breeze july_1 july_4 2
           skipper_and_snorkel aqua_quote
           skipper_and_snorkel_well_formed aqua_quote_returned eq_refl).
Defined.

Lemma subtotal_from_rounded_components_witness :
  well_formed skipper_and_snorkel ∧
  compute_quote_locals no_numeral aqua_breeze july_1 july_4 2 skipper_and_snorkel
    = Ok (aqua_quote, (decimal 57000 2, decimal 186500 2)) ∧
  decimal 186500 2 =
    fadd (fadd (base aqua_quote) (sum_values (extras aqua_quote)))
         (cleaning_fee aqua_quote) ∧
  total aqua_quote = round2 (fadd (decimal 186500 2) (tax aqua_quote)).
Proof.
  split; [exact skipper_and_snorkel_well_formed|].
  split; [exact aqua_quote_computed|].
  pose proof (subtotal_from_rounded_components no_numeral aqua_breeze july_1
                july_4 2 skipper_and_snorkel aqua_quote (decimal 57000 2)
                (decimal 186500 2) skipper_and_snorkel_well_formed
                aqua_quote_computed) as (_ & _ & _ & Hsub & _ & Htotal).
  split; [exact Hsub | exact Htotal].
Defined.

Lemma extras_priced_by_catalog_witness :
  well_formed skipper_and_snorkel ∧
  ("snorkel", true) ∈ skipper_and_snorkel ∧
  ∃ per_day cost,
    mul_int (decimal 200 1) 2 = Ok per_day ∧
    mul_int per_day (nights aqua_quote) = Ok cost ∧
    dict_get "snorkel" (extras aqua_quote) = Some (round2 cost).
Proof.
  assert (Hin : ("snorkel", true) ∈ skipper_and_snorkel).
  { unfold skipper_and_snorkel. apply list_elem_of_further, list_elem_of_here. }
  split; [exact skipper_and_snorkel_well_formed|]. split; [exact Hin|].
  pose proof (extras_priced_by_catalog no_numeral aqua_breeze july_1 july_4 2
                skipper_and_snorkel aqua_quote "snorkel"
                skipper_and_snorkel_well_formed aqua_quote_returned Hin)
    as (_ & _ & Hsnorkel).
  exact (Hsnorkel eq_refl).
Defined.

Lemma worked_examples_witness :
  compute_quote_locals no_numeral aqua_breeze july_1 july_4 2 skipper_and_snorkel
    = Ok (aqua_quote, (decimal 57000 2, decimal 186500 2)) ∧
  compute_quote_locals no_numeral aqua_breeze july_3 july_4 2 []
    = Ok ({| nights := 1;
             base := decimal 42000 2;
             extras := [];
             cleaning_fee := decimal 3500 2;
             tax := decimal 3640 2;
             total := decimal 49140 2;
             currency := "USD";
             transparent := true;
             notes := "Prices include all fees and taxes. No hidden fees." |},
          (S754_zero false, decimal 45500 2)).
Proof.
  apply (worked_examples no_numeral aqua_breeze july_1 july_4 july_3 july_4 2);
    reflexivity.
Defined.

(** C9, as stated, fails for the tax: on a record with a daily price of
    1e308 and no [tax_rate], two nights give an infinite base and subtotal,
    and the tax is nan, not 0.00. *)
Lemma missing_tax_rate_gives_nan :
  dict_get "tax_rate" flagship = None ∧
  ∃ bd, compute_quote no_numeral flagship july_1 july_3 1 [] = Ok bd ∧
        base bd = S754_infinity false ∧
        tax bd = S754_nan ∧
        is_zero (tax bd) = false.
Proof.
  split; [reflexivity|]. eexists. split; [vm_compute; reflexivity|].
  repeat split; vm_compute; reflexivity.
Qed.

(** A booking for an identifier that no boat has, and a booking that ends
    on the day it starts: both fail and the store is untouched, while a
    well-formed booking inserts a record. *)
Lemma create_booking_atomic_witness :
  create_booking hex_ObjectId no_numeral (insert_one id) "2024-06-01T12:00:00"
    (booking_request "000000000000000000000000" july_1 july_4) (Some marina)
  = (Raise NotFound, Some marina) ∧
  create_booking hex_ObjectId no_numeral (insert_one id) "2024-06-01T12:00:00"
    (booking_request aqua_id july_1 july_1) (Some marina)
  = (Raise InvalidDateRange, Some marina).
Proof.
  split.
  - exact (proj1 (proj2 (proj2
      (create_booking_atomic hex_ObjectId no_numeral (insert_one id)
         "2024-06-01T12:00:00"
         (booking_request "000000000000000000000000" july_1 july_4) marina)))
      "000000000000000000000000" eq_refl eq_refl).
  - exact (proj2 (proj2 (proj2
      (create_booking_atomic hex_ObjectId no_numeral (insert_one id)
         "2024-06-01T12:00:00" (booking_request aqua_id july_1 july_1) marina)))
      (("_id", VObjectId aqua_id) :: aqua_breeze) eq_refl eq_refl).
Defined.

Example booking_of_three_nights :
  ∃ o doc response,
    create_booking hex_ObjectId no_numeral (insert_one id) "2024-06-01T12:00:00"
      (booking_request aqua_id july_1 july_4) (Some marina)
    = (Ok response, Some (<["booking" := {[ o := doc ]}]> marina)) ∧
    bookings marina = ∅ ∧
    bookings (<["booking" := {[ o := doc ]}]> marina) = {[ o := doc ]} ∧
    BookingResponse.id response = o ∧
    BookingResponse.pricing response = aqua_quote ∧
    dict_get "status" doc = Some (VStr "requested").
Proof.
  eexists _, _, _. split.
  - unfold create_booking, guarded, hbind, reading, hret.
    change (get_boat_or_404 hex_ObjectId (Some marina) _)
      with (Ok (("_id", VObjectId aqua_id) :: aqua_breeze : dict (pyval string))).
    cbv beta iota.
    change (compute_quote no_numeral _ _ _ _ _) with (Ok aqua_quote).
    cbv beta iota. unfold insert_one.
    change (default ∅ (marina !! "booking")) with (∅ : gmap string (dict (pyval string))).
    cbv beta iota zeta. reflexivity.
  - repeat split; reflexivity.
Qed.

Example lookup_of_malformed_identifier :
  get_boat_or_404 hex_ObjectId (Some marina) "aqua" = Raise InvalidIdentifier.
Proof. reflexivity. Qed.

Example lookup_of_aqua_breeze :
  get_boat_or_404 hex_ObjectId (Some marina) aqua_id
  = Ok (("_id", VObjectId aqua_id) :: aqua_breeze).
Proof. reflexivity. Qed.

(** ** More examples *)

Lemma july_1_valid : valid july_1.
Proof. repeat split; vm_compute; discriminate. Qed.

Lemma july_3_valid : valid july_3.
Proof. repeat split; vm_compute; discriminate. Qed.

Lemma july_4_valid : valid july_4.
Proof. repeat split; vm_compute; discriminate. Qed.

Lemma july_1_before_july_4 : lt july_1 july_4.
Proof. right. split; [reflexivity|]. right. split; [reflexivity|]. reflexivity. Qed.

Lemma july_1_before_july_3 : lt july_1 july_3.
Proof. right. split; [reflexivity|]. right. split; [reflexivity|]. reflexivity. Qed.

Lemma snorkel_selected : ("snorkel", true) ∈ skipper_and_snorkel.
Proof. unfold skipper_and_snorkel. apply list_elem_of_further, list_elem_of_here. Qed.

Lemma all_extras_well_formed : well_formed all_extras.
Proof. apply (bool_decide_eq_true_1 (NoDup _)). vm_compute. reflexivity. Qed.

Lemma seed_ids_distinct : NoDup seed_ids.
Proof. apply (bool_decide_eq_true_1 (NoDup _)). vm_compute. reflexivity. Qed.

Lemma punt_quote_returned :
  compute_quote no_numeral punt july_1 july_4 2 all_extras = Ok punt_quote.
Proof. vm_compute. reflexivity. Qed.

Lemma compute_quote_succeeds_witness :
  ∃ bd, compute_quote no_numeral aqua_breeze july_1 july_4 2 skipper_and_snorkel
          = Ok bd ∧
        1 ≤ nights bd ≤ 3652058.
Proof.
  apply (compute_quote_succeeds no_numeral aqua_breeze july_1 july_4 2
           skipper_and_snorkel (decimal 4200 1) (decimal 350 1) (decimal 8 2)
           july_1_valid july_4_valid july_1_before_july_4 eq_refl eq_refl eq_refl).
  split; [lia | reflexivity].
Defined.

Lemma huge_party_overflows_witness :
  compute_quote no_numeral aqua_breeze july_1 july_4 (2 ^ 1024) skipper_and_snorkel
    = Raise OverflowError.
Proof.
  apply (huge_party_overflows no_numeral aqua_breeze july_1 july_4 (2 ^ 1024)
           skipper_and_snorkel (decimal 4200 1) (decimal 350 1) (decimal 8 2)
           july_1_valid july_4_valid july_1_before_july_4 eq_refl eq_refl eq_refl).
  - apply Z.le_refl.
  - exact snorkel_selected.
Defined.

Lemma quote_reads_rates_only_witness :
  compute_quote_locals no_numeral aqua_breeze july_1 july_4 2 [("skipper", true)] =
  compute_quote_locals no_numeral (("_id", VObjectId aqua_id) :: aqua_breeze)
    july_1 july_4 7 [("skipper", true)].
Proof.
  apply (quote_reads_rates_only no_numeral aqua_breeze
           (("_id", VObjectId aqua_id) :: aqua_breeze) july_1 july_4 2 7
           [("skipper", true)] eq_refl eq_refl eq_refl).
  intros Hin. apply list_elem_of_singleton in Hin. discriminate Hin.
Defined.

Lemma breakdown_invariants_witness :
  1 ≤ nights aqua_quote ∧
  currency aqua_quote = "USD" ∧ transparent aqua_quote = true ∧
  notes aqua_quote = "Prices include all fees and taxes. No hidden fees." ∧
  keys (extras aqua_quote) = keys (List.filter priced skipper_and_snorkel) ∧
  well_formed (extras aqua_quote) ∧
  (∀ key, key ∈ keys (extras aqua_quote) → key ∈ keys EXTRA_PRICING) ∧
  (length (extras aqua_quote) ≤ 3)%nat.
Proof.
  exact (breakdown_invariants no_numeral aqua_breeze july_1 july_4 2
           skipper_and_snorkel aqua_quote skipper_and_snorkel_well_formed
           aqua_quote_returned).
Defined.

Lemma extras_amounts_exact_witness :
  of_int (20 * 2 * nights aqua_quote) = Some (decimal 12000 2).
Proof.
  refine (proj2 (proj2 (extras_amounts_exact no_numeral aqua_breeze july_1 july_4 2
            skipper_and_snorkel aqua_quote aqua_quote_returned _))
            (decimal 12000 2) eq_refl eq_refl).
  lia.
Defined.

Lemma extras_total_exact_witness :
  of_int (whole_extras (nights aqua_quote) 2 skipper_and_snorkel)
    = Some (decimal 57000 2) ∧
  decimal 186500 2 =
    fadd (fadd (base aqua_quote) (decimal 57000 2)) (cleaning_fee aqua_quote).
Proof.
  apply (extras_total_exact no_numeral aqua_breeze july_1 july_4 2
           skipper_and_snorkel aqua_quote (decimal 57000 2) (decimal 186500 2)
           skipper_and_snorkel_well_formed aqua_quote_computed).
  - lia.
  - reflexivity.
Defined.

Lemma extras_order_irrelevant_witness :
  ∃ bd',
    compute_quote_locals no_numeral aqua_breeze july_1 july_4 2 snorkel_and_skipper
      = Ok (bd', (decimal 57000 2, decimal 186500 2)) ∧
    nights bd' = nights aqua_quote ∧ base bd' = base aqua_quote ∧
    cleaning_fee bd' = cleaning_fee aqua_quote ∧ tax bd' = tax aqua_quote ∧
    total bd' = total aqua_quote ∧
    ∀ key, dict_get key (extras bd') = dict_get key (extras aqua_quote).
Proof.
  apply (extras_order_irrelevant no_numeral aqua_breeze july_1 july_4 2
           skipper_and_snorkel snorkel_and_skipper aqua_quote (decimal 57000 2)
           (decimal 186500 2)).
  - apply perm_swap.
  - exact skipper_and_snorkel_well_formed.
  - lia.
  - reflexivity.
  - exact aqua_quote_computed.
Defined.

Lemma whole_dollar_quote_exact_witness :
  of_int (120 * nights punt_quote) = Some (base punt_quote) ∧
  of_int 15 = Some (cleaning_fee punt_quote) ∧
  is_zero (tax punt_quote) = true ∧
  of_int (120 * nights punt_quote + whole_extras (nights punt_quote) 2 all_extras + 15)
    = Some (total punt_quote).
Proof.
  apply (whole_dollar_quote_exact no_numeral punt july_1 july_4 2 all_extras
           punt_quote 120 15 (decimal 1200 1) (decimal 150 1) (S754_zero false)
           eq_refl eq_refl eq_refl eq_refl eq_refl eq_refl).
  - lia.
  - lia.
  - lia.
  - exact all_extras_well_formed.
  - exact punt_quote_returned.
  - reflexivity.
Defined.

Lemma no_negative_amounts_witness :
  negative (base aqua_quote) = false ∧
  Forall (λ kv, negative kv.2 = false) (extras aqua_quote) ∧
  negative (cleaning_fee aqua_quote) = false ∧
  negative (tax aqua_quote) = false ∧
  negative (total aqua_quote) = false.
Proof.
  apply (no_negative_amounts no_numeral aqua_breeze july_1 july_4 2
           skipper_and_snorkel (decimal 4200 1) (decimal 350 1) (decimal 8 2)
           aqua_quote eq_refl eq_refl eq_refl eq_refl eq_refl eq_refl).
  - lia.
  - exact aqua_quote_returned.
Defined.

Lemma nights_of_a_calendar_month_witness :
  date_range_days (mkdate 2024 2 1) (mkdate 2024 3 1) = Ok 29 ∧
  date_range_days (mkdate 2024 1 1) (mkdate 2025 1 1) = Ok 366.
Proof.
  apply (nights_of_a_calendar_month 2024 2); [unfold MINYEAR, MAXYEAR|]; lia.
Defined.

Lemma isoformat_identifies_the_date_witness :
  String.length (isoformat july_1) = 10%nat ∧
  (isoformat july_1 = isoformat july_3 → july_1 = july_3).
Proof.
  exact (isoformat_identifies_the_date july_1 july_3 july_1_valid july_3_valid).
Defined.

Lemma seeded_boats_are_found_witness :
  (∀ i o b s, seed_ids !! i = Some o → sample_boats !! i = Some b →
     hex_ObjectId s = Some o →
     get_boat_or_404 hex_ObjectId (seed_boats seed_ids (Some harbour)) s
       = Ok (("_id", VObjectId o) :: b)) ∧
  (∀ o s, o ∉ seed_ids → hex_ObjectId s = Some o →
     get_boat_or_404 hex_ObjectId (seed_boats seed_ids (Some harbour)) s
       = Raise NotFound).
Proof.
  apply (seeded_boats_are_found hex_ObjectId seed_ids harbour).
  - reflexivity.
  - exact seed_ids_distinct.
Defined.

Lemma seeded_boats_can_be_quoted_witness :
  ∃ bd,
    quote hex_ObjectId no_numeral weekend_quote (seed_boats seed_ids (Some harbour))
      = (Ok (bd, "65a000000000000000000002"), seed_boats seed_ids (Some harbour)) ∧
    compute_quote no_numeral sunset_whisper july_1 july_3 4
      skipper_and_snorkel = Ok bd.
Proof.
  apply (seeded_boats_can_be_quoted hex_ObjectId no_numeral seed_ids harbour 1%nat
           "65a000000000000000000002" sunset_whisper weekend_quote).
  - reflexivity.
  - exact seed_ids_distinct.
  - reflexivity.
  - reflexivity.
  - reflexivity.
  - exact july_1_valid.
  - exact july_3_valid.
  - exact july_1_before_july_3.
  - split; [vm_compute; discriminate | reflexivity].
Defined.

(** The bound of X8 is needed: for a party of 76861433640456465 guests the
    snorkel costs more than [2^62] dollars, where the floats are 1024
    apart, and three nights of skipper and fuel (450 and 240) count when
    added together first, not when added one by one. *)
Example extras_order_matters_for_a_crowd :
  ∃ bd bd' sub sub',
    compute_quote_locals no_numeral aqua_breeze july_1 july_4 crowd
      [("skipper", true); ("fuel", true); ("snorkel", true)]
      = Ok (bd, (S754_finite false 4503599627370497 10, sub)) ∧
    compute_quote_locals no_numeral aqua_breeze july_1 july_4 crowd
      [("snorkel", true); ("skipper", true); ("fuel", true)]
      = Ok (bd', (S754_finite false 4503599627370496 10, sub')) ∧
    feqb (total bd) (total bd') = false.
Proof.
  eexists _, _, _, _. split; [vm_compute; reflexivity|].
  split; vm_compute; reflexivity.
Qed.

Example list_of_a_boat_with_its_own_id :
  to_public (λ v, match v with VObjectId o => o | _ => "" end)
    [("_id", VObjectId aqua_id); ("name", VStr "Punt"); ("id", VInt 7)]
  = Some [("name", VStr "Punt"); ("id", VStr aqua_id)].
Proof. reflexivity. Qed.

Lemma sane_rates_give_finite_amounts_witness :
  is_finite (base aqua_quote) = true ∧
  Forall (λ kv, is_finite kv.2 = true) (extras aqua_quote) ∧
  is_finite (cleaning_fee aqua_quote) = true ∧
  is_finite (tax aqua_quote) = true ∧
  is_finite (total aqua_quote) = true.
Proof.
  apply (sane_rates_give_finite_amounts no_numeral aqua_breeze july_1 july_4 2
           skipper_and_snorkel (decimal 4200 1) (decimal 350 1) (decimal 8 2)
           aqua_quote eq_refl eq_refl eq_refl).
  - vm_compute. discriminate.
  - vm_compute. discriminate.
  - vm_compute. discriminate.
  - exact july_1_valid.
  - exact july_4_valid.
  - exact skipper_and_snorkel_well_formed.
  - split; [lia | reflexivity].
  - exact aqua_quote_returned.
Defined.
